(** * A shallow embedding of the spreadsheet engine

    The development follows the Python sources [spreadsheet.py],
    [spreadsheet_functions.py] and [spreadsheet_history.py].

    Conventions of the embedding.
    - Python [int] is [Z]; Python [str] is [string], read as a sequence of
      ASCII characters (so the regular-expression class [\d] is [0-9]).
    - A Python [dict] that is only looked up is a [gmap]; the [_functions]
      dictionary, which the code iterates, is an association list kept in
      insertion order; a Python [set] is a [gset], iterated in an order the
      run time chooses ([set_order]).
    - Stateful methods live in a state-and-exception monad [M]: a raised
      exception keeps every mutation done before the [raise], as in Python.
    - The recursion of [recalculate_dependents] and of
      [has_circular_dependency] is bounded by a depth budget; running out of
      it is Python's [RecursionError]. *)

From Stdlib Require Import ZArith QArith Lia Ascii String List.
From stdpp Require Import gmap strings list fin_maps sorting relations.

Local Open Scope string_scope.
Local Open Scope Z_scope.

(** ** Constants of [spreadsheet.py] *)

Definition ALPHABET_LENGTH : Z := 26.
Definition ASCII_A : Z := 65.

(** ** Exceptions *)

Inductive value_error :=
| InvalidCellAddress (cell : string)
| ExceedingMaximumSheetSize
| MissingRangeAddress
| InvalidCellRange (start_cell end_cell : string)
| TargetInFunctionRange (cell : string)
| UnsupportedFunction (function_name : string).

Inductive exn :=
| ValueError (e : value_error)
| CircularDependency (cell dep : string)
| FormulaEvaluationFailed (formula msg : string)
| AttributeError
| RuntimeError
| RecursionError
| IndexError
| NoPreviousStates.

Definition result (A : Type) : Type := exn + A.

(** ** Characters and strings, as Python sees them *)

Module Py.

Definition ord (c : ascii) : Z := Z.of_nat (nat_of_ascii c).
Definition chr (z : Z) : ascii := ascii_of_nat (Z.to_nat z).

Definition is_alpha (c : ascii) : bool :=
  ((65 <=? ord c) && (ord c <=? 90)) || ((97 <=? ord c) && (ord c <=? 122)).

Definition is_digit (c : ascii) : bool :=
  (48 <=? ord c) && (ord c <=? 57).

Definition upper_char (c : ascii) : ascii :=
  if (97 <=? ord c) && (ord c <=? 122) then chr (ord c - 32) else c.

Fixpoint upper (s : string) : string :=
  match s with
  | EmptyString => EmptyString
  | String c r => String (upper_char c) (upper r)
  end.

(** The longest prefix of [s] in the class [p], and the rest. *)
Fixpoint span (p : ascii -> bool) (s : string) : string * string :=
  match s with
  | EmptyString => (EmptyString, EmptyString)
  | String c r =>
      if p c then let '(a, b) := span p r in (String c a, b)
      else (EmptyString, s)
  end.

(** [int(s)] on a string of decimal digits. *)
Definition int_of_digits (s : string) : Z :=
  fold_left (fun acc c => acc * 10 + (ord c - 48)) (list_ascii_of_string s) 0.

(** [str(n)] for an integer: the digits are produced from the right. *)
Fixpoint digits_loop (fuel : nat) (n : Z) (acc : string) : string :=
  match fuel with
  | O => acc
  | S f =>
      let acc' := String (chr (48 + n mod 10)) acc in
      if n <? 10 then acc' else digits_loop f (n / 10) acc'
  end.

Definition str_of_int (n : Z) : string :=
  if n <? 0 then String "-" (digits_loop (S (Z.to_nat (- n))) (- n) EmptyString)
  else digits_loop (S (Z.to_nat n)) n EmptyString.

Definition startswith (p s : string) : bool := String.prefix p s.

(** [needle in haystack]. *)
Fixpoint contains (needle haystack : string) : bool :=
  String.prefix needle haystack
  || match haystack with
     | EmptyString => false
     | String _ r => contains needle r
     end.

(** [range(a, b)]. *)
Definition range (a b : Z) : list Z := seqZ a (b - a).

(** One bound of [seq[a:b]] on a sequence of length [n]. *)
Definition slice_bound (n i : Z) : Z :=
  if i <? 0 then Z.max (i + n) 0 else Z.min i n.

(** [l[a:b]]. *)
Definition slice {A} (a b : Z) (l : list A) : list A :=
  let n := Z.of_nat (length l) in
  let a' := slice_bound n a in
  let b' := slice_bound n b in
  take (Z.to_nat (b' - a')) (drop (Z.to_nat a') l).

End Py.

(** ** Address codec *)

(** [re.match(r"^([A-Za-z]+)(\d+)$", cell)]: the two groups.  In Python [$]
    also matches just before a final newline. *)
Definition match_cell_address (cell : string) : option (string * string) :=
  let '(letters, rest) := Py.span Py.is_alpha cell in
  let '(digits, tail) := Py.span Py.is_digit rest in
  if negb (String.eqb letters EmptyString) && negb (String.eqb digits EmptyString)
     && (String.eqb tail EmptyString || String.eqb tail (String (Py.chr 10) EmptyString))
  then Some (letters, digits) else None.

Definition parse_cell_address (cell : string) : result (Z * string) :=
  match match_cell_address cell with
  | None => inl (ValueError (InvalidCellAddress cell))
  | Some (column_label, row_number) =>
      inr (Py.int_of_digits row_number, Py.upper column_label)
  end.

(** The body of [while col >= 0] in [convert_indices_to_cell_address] and in
    [index_to_column_letter]. *)
Fixpoint column_label_loop (fuel : nat) (col : Z) (column_label : string) : string :=
  match fuel with
  | O => column_label
  | S f =>
      if 0 <=? col then
        let remainder := col mod ALPHABET_LENGTH in
        let col := col / ALPHABET_LENGTH in
        column_label_loop f (col - 1) (String (Py.chr (ASCII_A + remainder)) column_label)
      else column_label
  end.

Definition index_to_column_letter (index : Z) : string :=
  column_label_loop (S (Z.to_nat index)) index EmptyString.

Definition convert_indices_to_cell_address (row col : Z) : string :=
  let column_label := column_label_loop (S (Z.to_nat col)) col EmptyString in
  let row_label := row + 1 in
  column_label ++ Py.str_of_int row_label.

Definition column_letter_to_index (column_letter : string) : Z :=
  fold_left (fun column_index char =>
               column_index * ALPHABET_LENGTH + (Py.ord (Py.upper_char char) - Py.ord "A" + 1))
            (list_ascii_of_string column_letter) 0 - 1.

(** The body of [while i > 0] in [generate_column_labels]. *)
Fixpoint generate_label_loop (fuel : nat) (i : Z) (label : string) : string :=
  match fuel with
  | O => label
  | S f =>
      if 0 <? i then
        let remainder := (i - 1) mod ALPHABET_LENGTH in
        let i := (i - 1) / ALPHABET_LENGTH in
        generate_label_loop f i (String (Py.chr (ASCII_A + remainder)) label)
      else label
  end.

Definition generate_column_labels (n : Z) : list string :=
  map (fun i => generate_label_loop (S (Z.to_nat i)) i EmptyString) (Py.range 1 (n + 1)).

Definition parse_cell_range (cell_range : string * string)
  : result ((Z * Z) * (Z * Z)) :=
  match parse_cell_address (fst cell_range) with
  | inl e => inl e
  | inr (start_row, start_col) =>
      match parse_cell_address (snd cell_range) with
      | inl e => inl e
      | inr (end_row, end_col) =>
          let col_start_pos := column_letter_to_index start_col in
          let col_end_pos := column_letter_to_index end_col in
          inr ((start_row - 1, end_row), (col_start_pos, col_end_pos + 1))
      end
  end.

Definition cell_in_function_range (cell : string) (cell_range : string * string)
  : result bool :=
  let '(start_cell, end_cell) := cell_range in
  match parse_cell_address start_cell with
  | inl e => inl e
  | inr (start_row, start_col_label) =>
      match parse_cell_address end_cell with
      | inl e => inl e
      | inr (end_row, end_col_label) =>
          match parse_cell_address cell with
          | inl e => inl e
          | inr (updated_row, updated_col_label) =>
              let start_col_index := column_letter_to_index start_col_label in
              let end_col_index := column_letter_to_index end_col_label in
              let updated_col_index := column_letter_to_index updated_col_label in
              let is_within_row_range :=
                (start_row <=? updated_row) && (updated_row <=? end_row) in
              let is_within_col_range :=
                (start_col_index <=? updated_col_index)
                && (updated_col_index <=? end_col_index) in
              inr (is_within_row_range && is_within_col_range)
          end
      end
  end.

(** [start_col <= end_col] compares the two column labels as Python strings,
    that is, lexicographically. *)
Definition is_valid_range (start_cell end_cell : string) : result bool :=
  match parse_cell_address start_cell with
  | inl e => inl e
  | inr (start_row, start_col) =>
      match parse_cell_address end_cell with
      | inl e => inl e
      | inr (end_row, end_col) =>
          inr ((start_row <=? end_row) && String.leb start_col end_col)
      end
  end.

(** [re.findall(r'[A-Za-z]+\d+', formula)]: a scanner with three modes.  The
    two classes are disjoint, so the greedy match is the only one. *)
Inductive scan_mode :=
| Idle
| InLetters (acc : string)
| InDigits (acc : string).

Definition snoc_char (s : string) (c : ascii) : string := s ++ String c EmptyString.

Fixpoint findall_refs_go (m : scan_mode) (s : string) : list string :=
  match s with
  | EmptyString =>
      match m with InDigits acc => [acc] | _ => [] end
  | String c r =>
      match m with
      | Idle =>
          if Py.is_alpha c then findall_refs_go (InLetters (String c EmptyString)) r
          else findall_refs_go Idle r
      | InLetters acc =>
          if Py.is_alpha c then findall_refs_go (InLetters (snoc_char acc c)) r
          else if Py.is_digit c then findall_refs_go (InDigits (snoc_char acc c)) r
          else findall_refs_go Idle r
      | InDigits acc =>
          if Py.is_digit c then findall_refs_go (InDigits (snoc_char acc c)) r
          else if Py.is_alpha c then acc :: findall_refs_go (InLetters (String c EmptyString)) r
          else acc :: findall_refs_go Idle r
      end
  end.

Definition findall_refs (formula : string) : list string :=
  findall_refs_go Idle formula.

(** ** Cell values *)

(** The Python objects a cell can hold.  A Python [float] is modelled by an
    exact rational, with [VNaN] for the not-a-number the data frame uses to
    mark a cell that was never written. *)
Inductive value :=
| VNone
| VNaN
| VInt (n : Z)
| VFloat (q : Q)
| VBool (b : bool)
| VStr (s : string).

(** Python truthiness, as used by [get_cell_value(ref) or 0]. *)
Definition truthy (v : value) : bool :=
  match v with
  | VNone => false
  | VNaN => true
  | VInt n => negb (n =? 0)
  | VFloat q => negb (Qnum q =? 0)
  | VBool b => b
  | VStr s => negb (String.eqb s EmptyString)
  end.

Definition or_zero (v : value) : value := if truthy v then v else VInt 0.

(** [if isinstance(value, float) and value.is_integer(): value = int(value)] *)
Definition integral_float_to_int (v : value) : value :=
  match v with
  | VFloat q =>
      if Qnum q mod Zpos (Qden q) =? 0 then VInt (Qnum q / Zpos (Qden q)) else v
  | _ => v
  end.

(** ** The data frame

    Modelled from the spec: the grid storage (section 4.2) is a pandas
    [DataFrame], which is not part of the sources.  The model keeps what the
    engine uses of it: row labels with their rows in frame order, column
    labels in frame order, label access with [.at] (a read of a missing label
    is a [KeyError], a write to a missing label enlarges the frame),
    [reindex] with a fill value, [sort_index], positional [iloc] slices. *)
Record DataFrame := mkDataFrame {
  df_columns : list string;
  df_rows : list (Z * list value)
}.

Definition empty_frame : DataFrame := mkDataFrame [] [].

Definition column_position (df : DataFrame) (c : string) : option nat :=
  fst <$> list_find (fun x => x = c) (df_columns df).

Definition row_position (df : DataFrame) (r : Z) : option nat :=
  fst <$> list_find (fun x => fst x = r) (df_rows df).

(** [df.at[r, c]]; [None] is the [KeyError]. *)
Definition df_at_get (df : DataFrame) (r : Z) (c : string) : option value :=
  match row_position df r, column_position df c with
  | Some i, Some j =>
      Some (default VNaN (df_rows df !! i ≫= fun row => snd row !! j))
  | _, _ => None
  end.

Definition df_add_column (df : DataFrame) (c : string) (fill : value) : DataFrame :=
  mkDataFrame (df_columns df ++ [c])%list
              (map (fun row => (fst row, (snd row ++ [fill])%list)) (df_rows df)).

Definition df_add_row (df : DataFrame) (r : Z) (fill : value) : DataFrame :=
  mkDataFrame (df_columns df)
              (df_rows df ++ [(r, replicate (length (df_columns df)) fill)])%list.

(** [df.at[r, c] = v], with enlargement by a missing label. *)
Definition df_at_set (df : DataFrame) (r : Z) (c : string) (v : value) : DataFrame :=
  let df := match column_position df c with Some _ => df | None => df_add_column df c VNaN end in
  let df := match row_position df r with Some _ => df | None => df_add_row df r VNaN end in
  match row_position df r, column_position df c with
  | Some i, Some j =>
      mkDataFrame (df_columns df)
                  (alter (fun row => (fst row, <[j:=v]> (snd row))) i (df_rows df))
  | _, _ => df
  end.

(** [df.reindex(columns=new_columns, fill_value=fill)] *)
Definition df_reindex_columns (df : DataFrame) (new_columns : list string) (fill : value)
  : DataFrame :=
  mkDataFrame new_columns
    (map (fun row =>
            (fst row,
             map (fun c => match column_position df c with
                           | Some j => default VNaN (snd row !! j)
                           | None => fill
                           end) new_columns))
         (df_rows df)).

(** [df.reindex(index=new_index, fill_value=fill)] *)
Definition df_reindex_index (df : DataFrame) (new_index : list Z) (fill : value)
  : DataFrame :=
  mkDataFrame (df_columns df)
    (map (fun r => match row_position df r with
                   | Some i => (r, default [] (snd <$> df_rows df !! i))
                   | None => (r, replicate (length (df_columns df)) fill)
                   end) new_index).

Fixpoint insert_row (r : Z * list value) (l : list (Z * list value)) :=
  match l with
  | [] => [r]
  | x :: l' => if fst r <=? fst x then r :: l else x :: insert_row r l'
  end.

(** [df.sort_index(inplace=True)] *)
Definition df_sort_index (df : DataFrame) : DataFrame :=
  mkDataFrame (df_columns df) (foldr insert_row [] (df_rows df)).

(** [df.iloc[r0:r1, c0:c1]], row by row. *)
Definition df_iloc (df : DataFrame) (row_slice col_slice : Z * Z) : list (list value) :=
  map (fun row => Py.slice (fst col_slice) (snd col_slice) (snd row))
      (Py.slice (fst row_slice) (snd row_slice) (df_rows df)).

(** [pd.DataFrame(index=range(1, rows + 1), columns=column_labels, dtype=object)] *)
Definition new_frame (rows : Z) (column_labels : list string) : DataFrame :=
  mkDataFrame column_labels
    (map (fun r => (r, replicate (length column_labels) VNaN)) (Py.range 1 (rows + 1))).

(** ** What the engine takes from its libraries *)

(** The outcome of [SimpleEval.eval]: a value, a [ZeroDivisionError], or any
    other exception with its message. *)
Inductive eval_result :=
| EvalOk (v : value)
| EvalZeroDivision
| EvalRaise (msg : string).

Inductive reduction := RCount | RSum | RMean | RMax | RMin | RMedian | RProd.

(** The library behaviour the engine is parametric in: [float(...)] on a
    string ([None] is its [ValueError]), the expression evaluator applied to a
    formula and the evaluator's [names] table, the pandas reduction of a
    block after [to_numeric(errors='coerce')] printed with [str], and the
    order in which a [set] is iterated. *)
Record Runtime := mkRuntime {
  py_float : string -> option value;
  simple_eval : string -> gmap string value -> eval_result;
  pandas_reduce : reduction -> list (list value) -> string;
  set_order : gset string -> list string;
  set_order_perm : forall s, set_order s ≡ₚ elements s
}.

(** ** Engine state *)

Inductive dep_collection :=
| DepList (l : list string)
| DepSet (s : gset string).

Definition function_info : Type := string * (string * string).

Record Spreadsheet := mkSpreadsheet {
  _data : DataFrame;
  _evaluator_names : gmap string value;
  _formulas : gmap string string;
  _functions : list (string * function_info);
  _dependencies : gmap string dep_collection;
  _reverse_dependencies : gmap string (gset string)
}.

(** [Spreadsheet()] *)
Definition new_spreadsheet : Spreadsheet :=
  mkSpreadsheet empty_frame ∅ ∅ [] ∅ ∅.

Definition with_data (f : DataFrame -> DataFrame) (s : Spreadsheet) : Spreadsheet :=
  mkSpreadsheet (f (_data s)) (_evaluator_names s) (_formulas s) (_functions s)
                (_dependencies s) (_reverse_dependencies s).

Definition with_names (f : gmap string value -> gmap string value) (s : Spreadsheet) :=
  mkSpreadsheet (_data s) (f (_evaluator_names s)) (_formulas s) (_functions s)
                (_dependencies s) (_reverse_dependencies s).

Definition with_formulas (f : gmap string string -> gmap string string) (s : Spreadsheet) :=
  mkSpreadsheet (_data s) (_evaluator_names s) (f (_formulas s)) (_functions s)
                (_dependencies s) (_reverse_dependencies s).

Definition with_functions
  (f : list (string * function_info) -> list (string * function_info)) (s : Spreadsheet) :=
  mkSpreadsheet (_data s) (_evaluator_names s) (_formulas s) (f (_functions s))
                (_dependencies s) (_reverse_dependencies s).

Definition with_dependencies
  (f : gmap string dep_collection -> gmap string dep_collection) (s : Spreadsheet) :=
  mkSpreadsheet (_data s) (_evaluator_names s) (_formulas s) (_functions s)
                (f (_dependencies s)) (_reverse_dependencies s).

Definition with_reverse_dependencies
  (f : gmap string (gset string) -> gmap string (gset string)) (s : Spreadsheet) :=
  mkSpreadsheet (_data s) (_evaluator_names s) (_formulas s) (_functions s)
                (_dependencies s) (f (_reverse_dependencies s)).

(** An insertion-ordered [dict] as an association list. *)
Module Dict.
Section Dict.
Context {V : Type}.

Fixpoint set (k : string) (v : V) (d : list (string * V)) : list (string * V) :=
  match d with
  | [] => [(k, v)]
  | (k', v') :: d' =>
      if String.eqb k k' then (k, v) :: d' else (k', v') :: set k v d'
  end.

Definition pop (k : string) (d : list (string * V)) : list (string * V) :=
  List.filter (fun kv => negb (String.eqb k (fst kv))) d.

Definition mem (k : string) (d : list (string * V)) : bool :=
  existsb (fun kv => String.eqb k (fst kv)) d.
End Dict.
End Dict.

(** ** The state-and-exception monad *)

Definition M (A : Type) : Type := Spreadsheet -> Spreadsheet * result A.

Definition ret {A} (a : A) : M A := fun s => (s, inr a).

Definition bind {A B} (m : M A) (k : A -> M B) : M B :=
  fun s => match m s with
           | (s', inl e) => (s', inl e)
           | (s', inr a) => k a s'
           end.

Definition get : M Spreadsheet := fun s => (s, inr s).
Definition modify (f : Spreadsheet -> Spreadsheet) : M unit := fun s => (f s, inr tt).
Definition raise {A} (e : exn) : M A := fun s => (s, inl e).
Definition lift {A} (r : result A) : M A := fun s => (s, r).

Declare Scope engine_scope.
Delimit Scope engine_scope with engine.
Notation "x <- c1 ;; c2" := (bind c1 (fun x => c2))
  (at level 100, c1 at next level, right associativity) : engine_scope.
Notation "c1 ;; c2" := (bind c1 (fun _ => c2))
  (at level 100, right associativity) : engine_scope.
Local Open Scope engine_scope.

(** [for x in l: body(x)] *)
Fixpoint for_each {A} (l : list A) (body : A -> M unit) : M unit :=
  match l with
  | [] => ret tt
  | x :: l' => body x ;; for_each l' body
  end.

Definition when (b : bool) (m : M unit) : M unit := if b then m else ret tt.

(** ** The engine: [class Spreadsheet] *)

Definition REF_ERROR : value := VStr "#REF!".
Definition DIV0_ERROR : value := VStr "div/0 Error".
Definition VALUE_ERROR : value := VStr "Value Error".
Definition GENERAL_ERROR : value := VStr "General Error".

Definition dict_add_to_set (k x : string) (d : gmap string (gset string))
  : gmap string (gset string) :=
  match d !! k with
  | Some st => <[k := {[x]} ∪ st]> d
  | None => <[k := {[x]}]> d
  end.

(** The loop of [has_circular_dependency] over the dependencies of one cell;
    [rec] is the recursive call, and the visited set is threaded through, as
    the Python set is shared by all calls. *)
Fixpoint has_circular_dependency_loop
  (rec : string -> gset string -> option (bool * gset string))
  (target : string) (l : list string) (visited : gset string)
  : option (bool * gset string) :=
  match l with
  | [] => Some (false, visited)
  | dep :: l' =>
      if String.eqb dep target then Some (true, visited)
      else if decide (dep ∈ visited) then has_circular_dependency_loop rec target l' visited
      else match rec dep visited with
           | None => None
           | Some (true, visited') => Some (true, visited')
           | Some (false, visited') => has_circular_dependency_loop rec target l' visited'
           end
  end.

Section Engine.
Context (R : Runtime).

Definition dep_iter (d : dep_collection) : list string :=
  match d with
  | DepList l => l
  | DepSet s => set_order R s
  end.

Definition create_sheet (rows columns : Z) : M unit :=
  let column_labels := generate_column_labels columns in
  modify (with_data (fun _ => new_frame rows column_labels)).

Definition get_cell_value (cell : string) : M value :=
  rc <- lift (parse_cell_address cell) ;;
  s <- get ;;
  ret (match df_at_get (_data s) (fst rc) (snd rc) with
       | Some v => v
       | None => REF_ERROR
       end).

Definition get_cell_formula (cell : string) : M (option string) :=
  s <- get ;; ret (_formulas s !! cell).

Definition update_dependencies (cell formula : string) : M unit :=
  modify (with_dependencies <[cell := DepList (findall_refs formula)]>) ;;
  for_each (findall_refs formula)
    (fun dep => modify (with_reverse_dependencies (dict_add_to_set dep cell))).

(** [None] is a recursion deeper than the budget. *)
Fixpoint has_circular_dependency (fuel : nat) (deps : gmap string dep_collection)
  (cell target : string) (visited : gset string) : option (bool * gset string) :=
  match fuel with
  | O => None
  | S f =>
      let visited := {[cell]} ∪ visited in
      if String.eqb cell target then Some (true, visited)
      else match deps !! cell with
           | Some d =>
               has_circular_dependency_loop
                 (fun dep visited => has_circular_dependency f deps dep target visited)
                 target (dep_iter d) visited
           | None => Some (false, visited)
           end
  end.

Definition track_one_dependency (cell dep_cell : string) : M unit :=
  modify (with_reverse_dependencies (dict_add_to_set dep_cell cell)) ;;
  s <- get ;;
  match _dependencies s !! cell with
  | Some (DepSet st) => modify (with_dependencies <[cell := DepSet ({[dep_cell]} ∪ st)]>)
  | Some (DepList _) => raise AttributeError
  | None => modify (with_dependencies <[cell := DepSet {[dep_cell]}]>)
  end.

Definition track_function_dependencies (cell : string) (cell_range : string * string)
  : M unit :=
  let '(start_cell, end_cell) := cell_range in
  start <- lift (parse_cell_address start_cell) ;;
  end_ <- lift (parse_cell_address end_cell) ;;
  for_each (Py.range (fst start) (fst end_ + 1)) (fun row =>
    for_each (Py.range (column_letter_to_index (snd start))
                       (column_letter_to_index (snd end_) + 1)) (fun col =>
      track_one_dependency cell (convert_indices_to_cell_address (row - 1) col))).

Definition expand_columns (target_col_index : Z) : M unit :=
  s <- get ;;
  let current_max_col := Z.of_nat (length (df_columns (_data s))) in
  when (current_max_col <? target_col_index)
    (let additional_columns :=
       let labels := generate_column_labels target_col_index in
       Py.slice (-1 * (target_col_index - current_max_col))
                (Z.of_nat (length labels)) labels in
     modify (with_data (fun df =>
       df_reindex_columns df (df_columns df ++ additional_columns)%list (VStr EmptyString)))).

Definition expand_rows (target_row_number : Z) : M unit :=
  s <- get ;;
  when (Z.of_nat (length (df_rows (_data s))) <? target_row_number)
    (modify (with_data (fun df =>
       df_reindex_index df (Py.range 1 (target_row_number + 1)) (VStr EmptyString)))).

Definition expand_sheet_to_include_cell (cell_address : string) : M unit :=
  rc <- lift (parse_cell_address cell_address) ;;
  let '(row_number, column_label) := rc in
  let target_col_index :=
    fold_left (fun acc char => acc * ALPHABET_LENGTH + (Py.ord char - Py.ord "A" + 1))
              (list_ascii_of_string column_label) 0 in
  if (500 <? target_col_index) || (500 <? row_number)
  then raise (ValueError ExceedingMaximumSheetSize)
  else
    s <- get ;;
    when ((Z.of_nat (length (df_columns (_data s))) <? target_col_index)
          || (Z.of_nat (length (df_rows (_data s))) <? row_number))
      (expand_columns target_col_index ;; expand_rows row_number) ;;
    modify (with_data df_sort_index).

Definition set_cell_value_direct (cell : string) (v : value) : M unit :=
  rc <- lift (parse_cell_address cell) ;;
  let v := integral_float_to_int v in
  modify (with_data (fun df => df_at_set df (fst rc) (snd rc) v)).

Definition resolve_cell_references (formula : string) : M unit :=
  for_each (findall_refs formula) (fun ref =>
    v <- get_cell_value ref ;;
    let cell_value := or_zero v in
    modify (with_names <[ref := cell_value]>)).

(** A failing [set_cell_value_direct] inside the [try] can only be the
    [ValueError] of an unparsable target; the [except Exception] handler
    then calls it again and the same error leaves the method, so the
    handler is not written out for that case. *)
Definition calculate_formula (target_cell formula : string) : M unit :=
  resolve_cell_references formula ;;
  s <- get ;;
  match simple_eval R formula (_evaluator_names s) with
  | EvalOk result_ => set_cell_value_direct target_cell result_
  | EvalZeroDivision => set_cell_value_direct target_cell DIV0_ERROR
  | EvalRaise msg =>
      let result_ :=
        if Py.contains "unsupported operand type(s)" msg
           || Py.contains "can't multiply sequence by non-int" msg
        then VALUE_ERROR else GENERAL_ERROR in
      set_cell_value_direct target_cell result_ ;;
      raise (FormulaEvaluationFailed formula msg)
  end.

Definition run_reduction (red : reduction) (cell_range : string * string) : M string :=
  sl <- lift (parse_cell_range cell_range) ;;
  s <- get ;;
  ret (pandas_reduce R red (df_iloc (_data s) (fst sl) (snd sl))).

Definition function_count := run_reduction RCount.
Definition function_sum := run_reduction RSum.
Definition function_average := run_reduction RMean.
Definition function_max := run_reduction RMax.
Definition function_min := run_reduction RMin.
Definition function_median := run_reduction RMedian.
Definition function_product := run_reduction RProd.

Definition recalculated_functions : list string :=
  ["Sum"; "Average"; "Max"; "Min"; "Count"; "Median"; "Product"].

(** [for dependent_cell in self._reverse_dependencies[cell]]: the set is
    fetched once; the iterator raises [RuntimeError] on its next step when
    the set has changed size in the meantime. *)
Fixpoint iterate_reverse_dependencies (cell : string) (used : nat) (l : list string)
  (body : string -> M unit) : M unit :=
  s <- get ;;
  if negb (size (default ∅ (_reverse_dependencies s !! cell)) =? used)%nat
  then raise RuntimeError
  else match l with
       | [] => ret tt
       | x :: l' => body x ;; iterate_reverse_dependencies cell used l' body
       end.

(** The methods below call [recalculate_dependents], which calls them
    back; they are written over the recursive call [recalc]. *)
Section OpenRecursion.
Variable fuel : nat.
Variable recalc : string -> M unit.

Definition delete_cell_with (cell : string) : M unit :=
  set_cell_value_direct cell VNone ;;
  modify (with_formulas (delete cell)) ;;
  modify (with_functions (Dict.pop cell)) ;;
  recalc cell.

Definition check_circular_dependencies (cell : string) (temp_dependencies : list string)
  : M unit :=
  for_each temp_dependencies (fun dep =>
    s <- get ;;
    match has_circular_dependency fuel (_dependencies s) dep cell ∅ with
    | None => raise RecursionError
    | Some (true, _) => raise (CircularDependency cell dep)
    | Some (false, _) => ret tt
    end).

Definition set_cell_value_with (cell value_ : string) (info : option function_info)
  : M unit :=
  expand_sheet_to_include_cell cell ;;
  when (String.eqb value_ EmptyString) (delete_cell_with cell) ;;
  s <- get ;;
  when (bool_decide (is_Some (_formulas s !! cell)) || Dict.mem cell (_functions s))
    (delete_cell_with cell) ;;
  match info with
  | Some fi => modify (with_functions (Dict.set cell fi))
  | None => ret tt
  end ;;
  let value_str := value_ in
  (if Py.startswith "=" value_str then
     let formula := String.substring 1 (String.length value_str - 1) value_str in
     let temp_dependencies := findall_refs formula in
     check_circular_dependencies cell temp_dependencies ;;
     modify (with_formulas <[cell := formula]>) ;;
     update_dependencies cell formula ;;
     calculate_formula cell formula
   else
     let true_value :=
       match py_float R value_str with
       | Some x => x
       | None => VStr value_str
       end in
     set_cell_value_direct cell true_value) ;;
  recalc cell.

Definition function_handle_with (cell function_name : string)
  (cell_range : string * string) (result_value : string) : M unit :=
  let fi : function_info := (function_name, cell_range) in
  set_cell_value_with cell result_value (Some fi) ;;
  track_function_dependencies cell cell_range.

Definition execute_function_with (cell function_name : string)
  (cell_range : list string) : M unit :=
  match match_cell_address cell with
  | None => raise (ValueError (InvalidCellAddress cell))
  | Some _ =>
      match cell_range with
      | [start_cell; end_cell] =>
          if String.eqb start_cell EmptyString || String.eqb end_cell EmptyString
          then raise (ValueError MissingRangeAddress)
          else
            valid <- lift (is_valid_range start_cell end_cell) ;;
            if negb valid
            then raise (ValueError (InvalidCellRange start_cell end_cell))
            else
              inside <- lift (cell_in_function_range cell (start_cell, end_cell)) ;;
              if (inside : bool)
              then raise (ValueError (TargetInFunctionRange cell))
              else
                let rng := (start_cell, end_cell) in
                result_ <-
                  (if String.eqb function_name "Sum" then function_sum rng
                   else if String.eqb function_name "Average" then function_average rng
                   else if String.eqb function_name "Max" then function_max rng
                   else if String.eqb function_name "Min" then function_min rng
                   else if String.eqb function_name "Count" then function_count rng
                   else if String.eqb function_name "Median" then function_median rng
                   else if String.eqb function_name "Product" then function_product rng
                   else raise (ValueError (UnsupportedFunction function_name))) ;;
                function_handle_with cell function_name rng result_
      | _ => raise (ValueError MissingRangeAddress)
      end
  end.
End OpenRecursion.

Fixpoint recalculate_dependents (fuel : nat) (cell : string) : M unit :=
  match fuel with
  | O => raise RecursionError
  | S f =>
      s <- get ;;
      match _reverse_dependencies s !! cell with
      | Some dependents =>
          iterate_reverse_dependencies cell (size dependents) (set_order R dependents)
            (fun dependent_cell =>
               s' <- get ;;
               match _formulas s' !! dependent_cell with
               | Some formula =>
                   calculate_formula dependent_cell formula ;;
                   recalculate_dependents f dependent_cell
               | None => ret tt
               end)
      | None => ret tt
      end ;;
      s <- get ;;
      for_each (_functions s) (fun entry =>
        let '(func_cell, (func_name, cell_range_tuple)) := entry in
        inside <- lift (cell_in_function_range cell cell_range_tuple) ;;
        when inside
          (when (bool_decide (func_name ∈ recalculated_functions))
             (execute_function_with f (recalculate_dependents f) func_cell func_name
                [fst cell_range_tuple; snd cell_range_tuple]) ;;
           recalculate_dependents f func_cell))
  end.

Definition delete_cell (fuel : nat) (cell : string) : M unit :=
  delete_cell_with (recalculate_dependents fuel) cell.

Definition set_cell_value (fuel : nat) (cell value_ : string)
  (info : option function_info) : M unit :=
  set_cell_value_with fuel (recalculate_dependents fuel) cell value_ info.

Definition function_handle (fuel : nat) :=
  function_handle_with fuel (recalculate_dependents fuel).

Definition execute_function (fuel : nat) (cell function_name : string)
  (cell_range : list string) : M unit :=
  execute_function_with fuel (recalculate_dependents fuel) cell function_name cell_range.

Definition clear_sheet : M unit :=
  s <- get ;;
  let current_rows := Z.of_nat (length (df_rows (_data s))) in
  let current_columns := Z.of_nat (length (df_columns (_data s))) in
  create_sheet current_rows current_columns ;;
  modify (with_formulas (fun _ => ∅)) ;;
  modify (with_functions (fun _ => [])) ;;
  modify (with_dependencies (fun _ => ∅)) ;;
  modify (with_reverse_dependencies (fun _ => ∅)).

End Engine.

(** ** A run time for the worked examples

    Modelled from the spec: the expression evaluator (section 4.4: numeric
    literals, [+ - * /], parentheses, and names resolved through the
    reference table), Python's [float] on plain decimal literals, and the
    range reductions of section 4.5, which are library code (simpleeval,
    the Python run time, pandas).  The general theorems below hold for every
    [Runtime]; this one is used to run the scenarios of the specification. *)
Module Example.

(** [float(s)] for an optional sign, digits and an optional fraction. *)
Definition float_of_string (s : string) : option value :=
  let '(sign, body) :=
    match s with
    | String "-" r => (-1, r)
    | String "+" r => (1, r)
    | _ => (1, s)
    end in
  let '(ip, rest) := Py.span Py.is_digit body in
  match rest with
  | EmptyString =>
      if String.eqb ip EmptyString then None
      else Some (VFloat (Qred (sign * Py.int_of_digits ip # 1)))
  | String "." fr =>
      let '(fp, tail) := Py.span Py.is_digit fr in
      if String.eqb tail EmptyString && negb (String.eqb ip EmptyString && String.eqb fp EmptyString) then
        let scale := Z.pow 10 (Z.of_nat (String.length fp)) in
        Some (VFloat (Qred (sign * (Py.int_of_digits ip * scale + Py.int_of_digits fp)
                             # Z.to_pos scale)))
      else None
  | _ => None
  end.

Inductive token :=
| TNum (n : Z)
| TName (x : string)
| TOp (op : ascii)
| TLParen
| TRParen.

Definition is_ident_char (c : ascii) : bool :=
  Py.is_alpha c || Py.is_digit c || Ascii.eqb c "_".

Fixpoint tokenize (fuel : nat) (s : string) : option (list token) :=
  match fuel with
  | O => None
  | S f =>
      match s with
      | EmptyString => Some []
      | String c r =>
          if Ascii.eqb c " " then tokenize f r
          else if Py.is_digit c then
            let '(ds, rest) := Py.span Py.is_digit s in
            cons (TNum (Py.int_of_digits ds)) <$> tokenize f rest
          else if Py.is_alpha c || Ascii.eqb c "_" then
            let '(x, rest) := Py.span is_ident_char s in
            cons (TName x) <$> tokenize f rest
          else if Ascii.eqb c "(" then cons TLParen <$> tokenize f r
          else if Ascii.eqb c ")" then cons TRParen <$> tokenize f r
          else if Ascii.eqb c "+" || Ascii.eqb c "-" || Ascii.eqb c "*" || Ascii.eqb c "/"
          then cons (TOp c) <$> tokenize f r
          else None
      end
  end.

Inductive expr :=
| ENum (n : Z)
| EName (x : string)
| ENeg (e : expr)
| EBin (op : ascii) (a b : expr).

(** Recursive descent: [expr := term (("+"|"-") term)*],
    [term := factor (("*"|"/") factor)*],
    [factor := number | name | "(" expr ")" | ("-"|"+") factor]. *)
Fixpoint parse_level (fuel : nat) (level : nat) (ts : list token)
  : option (expr * list token) :=
  match fuel with
  | O => None
  | S f =>
      match level with
      | O =>
          match ts with
          | TNum n :: r => Some (ENum n, r)
          | TName x :: r => Some (EName x, r)
          | TOp "-" :: r =>
              match parse_level f 0 r with
              | Some (e, r') => Some (ENeg e, r')
              | None => None
              end
          | TOp "+" :: r => parse_level f 0 r
          | TLParen :: r =>
              match parse_level f 2 r with
              | Some (e, TRParen :: r') => Some (e, r')
              | _ => None
              end
          | _ => None
          end
      | S lower =>
          match parse_level f lower ts with
          | Some (a, r) => parse_rest f level a r
          | None => None
          end
      end
  end
with parse_rest (fuel : nat) (level : nat) (a : expr) (ts : list token)
  : option (expr * list token) :=
  match fuel with
  | O => None
  | S f =>
      match ts with
      | TOp op :: r =>
          let mine :=
            match level with
            | 1%nat => Ascii.eqb op "*" || Ascii.eqb op "/"
            | _ => Ascii.eqb op "+" || Ascii.eqb op "-"
            end in
          if mine then
            match parse_level f (Nat.pred level) r with
            | Some (b, r') => parse_rest f level (EBin op a b) r'
            | None => None
            end
          else Some (a, ts)
      | _ => Some (a, ts)
      end
  end.

Definition as_number (v : value) : option (bool * Q) :=
  match v with
  | VInt n => Some (false, n # 1)
  | VBool b => Some (false, (if b then 1 else 0) # 1)
  | VFloat q => Some (true, q)
  | _ => None
  end.

Definition number (is_float : bool) (q : Q) : value :=
  if is_float then VFloat (Qred q) else VInt (Qnum (Qred q)).

Fixpoint repeat_string (n : nat) (s : string) : string :=
  match n with
  | O => EmptyString
  | S n' => s ++ repeat_string n' s
  end.

Definition UNSUPPORTED : string := "unsupported operand type(s)".

Definition binary (op : ascii) (a b : value) : eval_result :=
  match a, b with
  | VNaN, (VNaN | VInt _ | VFloat _ | VBool _) | (VInt _ | VFloat _ | VBool _), VNaN =>
      EvalOk VNaN
  | _, _ =>
      match as_number a, as_number b with
      | Some (fa, qa), Some (fb, qb) =>
          if Ascii.eqb op "+" then EvalOk (number (fa || fb) (qa + qb))
          else if Ascii.eqb op "-" then EvalOk (number (fa || fb) (qa - qb))
          else if Ascii.eqb op "*" then EvalOk (number (fa || fb) (qa * qb))
          else if Qnum qb =? 0 then EvalZeroDivision
          else EvalOk (VFloat (Qred (qa / qb)))
      | _, _ =>
          match a, b with
          | VStr x, VStr y =>
              if Ascii.eqb op "+" then EvalOk (VStr (x ++ y))
              else if Ascii.eqb op "*"
                   then EvalRaise "can't multiply sequence by non-int of type 'str'"
                   else EvalRaise UNSUPPORTED
          | VStr x, VInt n | VInt n, VStr x =>
              if Ascii.eqb op "*" then EvalOk (VStr (repeat_string (Z.to_nat n) x))
              else match a with
                   | VStr _ =>
                       if Ascii.eqb op "+"
                       then EvalRaise "can only concatenate str (not int) to str"
                       else EvalRaise UNSUPPORTED
                   | _ => EvalRaise UNSUPPORTED
                   end
          | VStr _, VFloat _ | VFloat _, VStr _ =>
              if Ascii.eqb op "*"
              then EvalRaise "can't multiply sequence by non-int of type 'float'"
              else EvalRaise UNSUPPORTED
          | _, _ => EvalRaise UNSUPPORTED
          end
      end
  end.

Fixpoint eval_expr (names : gmap string value) (e : expr) : eval_result :=
  match e with
  | ENum n => EvalOk (VInt n)
  | EName x =>
      match names !! x with
      | Some v => EvalOk v
      | None => EvalRaise ("'" ++ x ++ "' is not defined")
      end
  | ENeg a =>
      match eval_expr names a with
      | EvalOk v => binary "-" (VInt 0) v
      | r => r
      end
  | EBin op a b =>
      match eval_expr names a with
      | EvalOk va =>
          match eval_expr names b with
          | EvalOk vb => binary op va vb
          | r => r
          end
      | r => r
      end
  end.

Definition eval (formula : string) (names : gmap string value) : eval_result :=
  let n := S (String.length formula) in
  match tokenize n formula with
  | Some ts =>
      match parse_level (4 * n) 2 ts with
      | Some (e, []) => eval_expr names e
      | _ => EvalRaise "invalid syntax"
      end
  | None => EvalRaise "invalid syntax"
  end.

(** [pd.to_numeric(..., errors='coerce')] on one cell; the reductions are
    carried out on integer data, where pandas is exact; the mean and the
    median, whose results are binary floats, are outside this run time and
    print as nan. *)
Definition to_numeric (v : value) : option Z :=
  match v with
  | VInt n => Some n
  | VFloat q => if Zpos (Qden q) =? 1 then Some (Qnum q) else None
  | _ => None
  end.

Definition reduce (red : reduction) (block : list (list value)) : string :=
  let cells := concat block in
  let nums := omap to_numeric cells in
  let all_numeric := (length nums =? length cells)%nat in
  let show (n : Z) := if all_numeric then Py.str_of_int n else Py.str_of_int n ++ ".0" in
  match red with
  | RCount => Py.str_of_int (Z.of_nat (length nums))
  | RSum => show (fold_right Z.add 0 nums)
  | RProd => show (fold_right Z.mul 1 nums)
  | RMax => match nums with [] => "nan" | n :: r => show (fold_right Z.max n r) end
  | RMin => match nums with [] => "nan" | n :: r => show (fold_right Z.min n r) end
  | RMean | RMedian => "nan"
  end.

Lemma elements_order (s : gset string) : elements s ≡ₚ elements s.
Proof. reflexivity. Qed.

Definition runtime : Runtime :=
  mkRuntime float_of_string eval reduce elements elements_order.

End Example.

(** ** The history manager: [class SpreadsheetHistory]

    The history directory is part of the model: a list of files in the order
    [glob] reports them, each with its modification time.  [mkstemp] names
    are random; here the file created by the [n]-th call is [StateFile n]
    (the pattern [spreadsheet_state_*.pkl] selects exactly these).  The clock
    advances with every file written, so modification times are distinct. *)
Module History.

Inductive file_name :=
| StateFile (id : nat)
| OtherFile (name : string).

#[global] Instance file_name_eq_dec : EqDecision file_name.
Proof. solve_decision. Defined.

Record file := mkFile {
  path : file_name;
  mtime : Z;
  pickled : option Spreadsheet
}.

Record SpreadsheetHistory := mkHistory {
  history_dir : list file;
  max_history : Z;
  states : list file_name;
  clock : Z;
  next_temp : nat
}.

(** [SpreadsheetHistory(history_dir)] on an empty directory. *)
Definition new_history (max_history : Z) : SpreadsheetHistory :=
  mkHistory [] max_history [] 0 0.

Definition DEFAULT_MAX_HISTORY : Z := 20.

Definition is_state_file (f : file) : bool :=
  match path f with StateFile _ => true | OtherFile _ => false end.

(** [glob.glob(os.path.join(history_dir, 'spreadsheet_state_*.pkl'))] *)
Definition glob_state_files (dir : list file) : list file :=
  List.filter is_state_file dir.

Fixpoint insert_by_mtime (f : file) (l : list file) : list file :=
  match l with
  | [] => [f]
  | x :: l' => if mtime f <=? mtime x then f :: l else x :: insert_by_mtime f l'
  end.

(** [files.sort(key=os.path.getmtime)] *)
Definition sort_by_mtime (l : list file) : list file :=
  foldr insert_by_mtime [] l.

(** [os.remove(p)] *)
Definition os_remove (p : file_name) (dir : list file) : list file :=
  List.filter (fun f => negb (bool_decide (path f = p))) dir.

(** [while len(files) >= self.max_history: os.remove(files.pop(0))];
    [pop(0)] on an empty list is an [IndexError]. *)
Fixpoint evict_oldest (max_history : Z) (files : list file) (dir : list file)
  : result (list file) :=
  if max_history <=? Z.of_nat (length files) then
    match files with
    | [] => inl IndexError
    | f :: files' => evict_oldest max_history files' (os_remove (path f) dir)
    end
  else inr dir.

Definition with_dir (dir : list file) (h : SpreadsheetHistory) : SpreadsheetHistory :=
  mkHistory dir (max_history h) (states h) (clock h) (next_temp h).

Definition enforce_max_history_limit (h : SpreadsheetHistory)
  : SpreadsheetHistory * result unit :=
  let files := sort_by_mtime (glob_state_files (history_dir h)) in
  match evict_oldest (max_history h) files (history_dir h) with
  | inl e => (h, inl e)
  | inr dir => (with_dir dir h, inr tt)
  end.

(** [tempfile.mkstemp] creates the file, [save_state] then writes the
    pickle into it. *)
Definition save_current_state (spreadsheet : Spreadsheet) (h : SpreadsheetHistory)
  : SpreadsheetHistory * result unit :=
  match enforce_max_history_limit h with
  | (h', inl e) => (h', inl e)
  | (h', inr _) =>
      let temp_file_path := StateFile (next_temp h') in
      let written := mkFile temp_file_path (clock h' + 1) (Some spreadsheet) in
      (mkHistory (history_dir h' ++ [written])%list (max_history h')
                 (states h' ++ [temp_file_path])%list (clock h' + 2) (S (next_temp h')),
       inr tt)
  end.

(** [save_current_state] called once for each spreadsheet of the list,
    stopping at the first error. *)
Fixpoint save_all (sheets : list Spreadsheet) (h : SpreadsheetHistory)
  : SpreadsheetHistory * result unit :=
  match sheets with
  | [] => (h, inr tt)
  | sp :: rest =>
      match save_current_state sp h with
      | (h', inl e) => (h', inl e)
      | (h', inr _) => save_all rest h'
      end
  end.

(** [len(os.listdir(history_dir))] restricted to the state files. *)
Definition state_file_count (h : SpreadsheetHistory) : Z :=
  Z.of_nat (length (glob_state_files (history_dir h))).

(** What can go wrong in [load_state]: [open] of a path that is not in the
    directory, and [pickle.load] of a file that holds no pickle. *)
Inductive load_error :=
| FileNotFoundError
| UnpicklingError.

(** The two exceptions of [undo]. *)
Inductive undo_error :=
| NoPreviousStatesAvailable
| FailedToLoadPreviousState (cause : load_error).

(** [s.endswith(suffix)] *)
Definition endswith (suffix s : string) : bool :=
  let n := String.length s in
  let k := String.length suffix in
  (k <=? n)%nat && String.eqb (substring (n - k) k s) suffix.

(** A name matched by the pattern ['*.pkl']; [glob] leaves out names that
    start with a dot. *)
Definition is_pkl_file (f : file) : bool :=
  match path f with
  | StateFile _ => true
  | OtherFile name => endswith ".pkl" name && negb (String.prefix "." name)
  end.

(** [glob.glob(os.path.join(history_dir, '*.pkl'))] *)
Definition glob_pkl_files (dir : list file) : list file :=
  List.filter is_pkl_file dir.

(** [load_state(filename)]: the pickled spreadsheet, with a fresh
    evaluator. *)
Definition load_state (filename : file_name) (dir : list file)
  : load_error + Spreadsheet :=
  match List.find (fun f => bool_decide (path f = filename)) dir with
  | None => inl FileNotFoundError
  | Some f =>
      match pickled f with
      | None => inl UnpicklingError
      | Some spreadsheet => inr (with_names (fun _ => ∅) spreadsheet)
      end
  end.

(** [undo()]: the path is popped from [states] before the file is loaded,
    and stays popped when loading fails. *)
Definition undo (h : SpreadsheetHistory)
  : SpreadsheetHistory * (undo_error + Spreadsheet) :=
  match rev (states h) with
  | [] => (h, inl NoPreviousStatesAvailable)
  | last_state_file :: earlier =>
      let h1 := mkHistory (history_dir h) (max_history h) (rev earlier)
                          (clock h) (next_temp h) in
      match load_state last_state_file (history_dir h1) with
      | inl e => (h1, inl (FailedToLoadPreviousState e))
      | inr spreadsheet =>
          (with_dir (os_remove last_state_file (history_dir h1)) h1, inr spreadsheet)
      end
  end.

(** [can_undo()] *)
Definition can_undo (h : SpreadsheetHistory) : bool :=
  (0 <? length (states h))%nat && (1 <? length (glob_pkl_files (history_dir h)))%nat.

(** [max(files, key=os.path.getmtime)]: the first file with the greatest
    modification time. *)
Fixpoint latest_of (best : file) (files : list file) : file :=
  match files with
  | [] => best
  | f :: files' => latest_of (if mtime best <? mtime f then f else best) files'
  end.

(** [recover_last_saved_state()]; [inr None] is the returned [None]. *)
Definition recover_last_saved_state (h : SpreadsheetHistory)
  : load_error + option Spreadsheet :=
  match glob_pkl_files (history_dir h) with
  | [] => inr None
  | f :: files =>
      match load_state (path (latest_of f files)) (history_dir h) with
      | inl e => inl e
      | inr spreadsheet => inr (Some spreadsheet)
      end
  end.

End History.

(** [enter_data(cells_range, value)] *)
Definition enter_data (R : Runtime) (fuel : nat) (cells_range : string * string)
  (value_ : string) : M unit :=
  (start <- lift (parse_cell_address (fst cells_range)) ;;
   end_ <- lift (parse_cell_address (snd cells_range)) ;;
   let start_col_index := column_letter_to_index (snd start) in
   let end_col_index := column_letter_to_index (snd end_) in
   valid <- lift (is_valid_range (fst cells_range) (snd cells_range)) ;;
   if negb valid
   then raise (ValueError (InvalidCellRange (fst cells_range) (snd cells_range)))
   else
     for_each (Py.range (fst start) (fst end_ + 1)) (fun row =>
       for_each (Py.range start_col_index (end_col_index + 1)) (fun col_index =>
         let col_label := index_to_column_letter col_index in
         let cell_address := col_label ++ Py.str_of_int row in
         set_cell_value R fuel cell_address value_ None)))%engine.

(** ** Vocabulary of the statements *)

Definition is_upper_letter (c : ascii) : bool :=
  (65 <=? Py.ord c) && (Py.ord c <=? 90).

Fixpoint string_forall (p : ascii -> bool) (s : string) : bool :=
  match s with
  | EmptyString => true
  | String c r => p c && string_forall p r
  end.

Definition digit_step (acc : Z) (c : ascii) : Z := acc * 10 + (Py.ord c - 48).

Definition label_step (column_index : Z) (char : ascii) : Z :=
  column_index * ALPHABET_LENGTH + (Py.ord (Py.upper_char char) - Py.ord "A" + 1).

(** [b] is one of the dependencies stored for a cell. *)
Definition dep_mem (b : string) (d : dep_collection) : Prop :=
  match d with
  | DepList l => b ∈ l
  | DepSet s => b ∈ s
  end.

(** [b ∈ _dependencies[a]] *)
Definition depends_on (deps : gmap string dep_collection) (a b : string) : Prop :=
  exists d, deps !! a = Some d /\ dep_mem b d.


(** [a ∈ _reverse_dependencies[b]] *)
Definition reverse_mem (rdeps : gmap string (gset string)) (a b : string) : Prop :=
  exists st, rdeps !! b = Some st /\ a ∈ st.

(** Every dependency edge has its reverse edge. *)
Definition forward_recorded (s : Spreadsheet) : Prop :=
  forall a b, depends_on (_dependencies s) a b -> reverse_mem (_reverse_dependencies s) a b.

(** The two maps are exact inverses. *)
Definition exact_inverses (s : Spreadsheet) : Prop :=
  forall a b, depends_on (_dependencies s) a b <-> reverse_mem (_reverse_dependencies s) a b.

Definition depends_onb (deps : gmap string dep_collection) (a b : string) : bool :=
  match deps !! a with
  | Some (DepList l) => bool_decide (b ∈ l)
  | Some (DepSet s) => bool_decide (b ∈ s)
  | None => false
  end.

Definition reverse_memb (rdeps : gmap string (gset string)) (a b : string) : bool :=
  match rdeps !! b with
  | Some st => bool_decide (a ∈ st)
  | None => false
  end.

(** The public operations, and runs of them.  A run stops at the first
    operation that raises; its result is [inr tt] exactly when every
    operation was accepted. *)
Inductive operation :=
| CreateSheet (rows columns : Z)
| SetCellValue (cell value_ : string)
| ExecuteFunction (cell function_name : string) (cell_range : list string)
| DeleteCell (cell : string)
| ClearSheet.

Definition run_operation (R : Runtime) (fuel : nat) (op : operation) : M unit :=
  match op with
  | CreateSheet rows columns => create_sheet rows columns
  | SetCellValue cell value_ => set_cell_value R fuel cell value_ None
  | ExecuteFunction cell function_name cell_range =>
      execute_function R fuel cell function_name cell_range
  | DeleteCell cell => delete_cell R fuel cell
  | ClearSheet => clear_sheet
  end.

Definition run_operations (R : Runtime) (fuel : nat) (ops : list operation) : M unit :=
  for_each ops (run_operation R fuel).


(** The column number that [expand_sheet_to_include_cell] computes from a
    label. *)
Definition column_number (column_label : string) : Z :=
  fold_left (fun acc char => acc * ALPHABET_LENGTH + (Py.ord char - Py.ord "A" + 1))
            (list_ascii_of_string column_label) 0.

(** The address is inside the current frame, whose index is in order: the
    expansion step of a write has nothing to do. *)
Definition within_sheet (s : Spreadsheet) (cell : string) : Prop :=
  exists row_number column_label,
    parse_cell_address cell = inr (row_number, column_label)
    /\ column_number column_label <= Z.of_nat (length (df_columns (_data s)))
    /\ row_number <= Z.of_nat (length (df_rows (_data s)))
    /\ column_number column_label <= 500 /\ row_number <= 500
    /\ df_sort_index (_data s) = _data s.

(** An invariant of the engine state kept by a computation, whether it
    returns or raises. *)
Definition inv (I : Spreadsheet -> Prop) {A} (m : M A) : Prop :=
  forall s, I s -> I (fst (m s)).

(** A computation that leaves the state as it found it. *)
Definition pure_state {A} (m : M A) : Prop :=
  forall s, fst (m s) = s.

(** The cell has neither a formula nor a function entry. *)
Definition holds_nothing (a : string) (s : Spreadsheet) : Prop :=
  _formulas s !! a = None /\ Dict.mem a (_functions s) = false.

(** Nothing is recorded as depending on the cell, and no function range
    contains it: a change of the cell has nothing to cascade to. *)
Definition no_dependents (s : Spreadsheet) (a : string) : Prop :=
  _reverse_dependencies s !! a = None
  /\ Forall (fun entry : string * function_info =>
               cell_in_function_range a (snd (snd entry)) = inr false)
            (_functions s).

(** Every row of the frame has one value for each column. *)
Definition wf_frame (df : DataFrame) : Prop :=
  Forall (fun row : Z * list value => length (snd row) = length (df_columns df)) (df_rows df).

(** What [calculate_formula] does with each outcome of the evaluator, for a
    target at [(row, col)]: the references are resolved into the table of
    names, the formula is evaluated, and the value or the error sentinel is
    written to the target; only the two sentinels of the [except Exception]
    branch come with a raised [FormulaEvaluationFailed]. *)
Definition formula_contract (R : Runtime) (s : Spreadsheet) (target formula : string)
  (row : Z) (col : string) : Prop :=
  exists names,
    let s1 := with_names (fun _ => names) s in
    let stored v := with_data (fun df => df_at_set df row col v) s1 in
    resolve_cell_references formula s = (s1, inr tt)
    /\ match simple_eval R formula names with
       | EvalOk v =>
           calculate_formula R target formula s = (stored (integral_float_to_int v), inr tt)
       | EvalZeroDivision =>
           calculate_formula R target formula s = (stored DIV0_ERROR, inr tt)
       | EvalRaise msg =>
           calculate_formula R target formula s
           = (stored (if Py.contains "unsupported operand type(s)" msg
                         || Py.contains "can't multiply sequence by non-int" msg
                      then VALUE_ERROR else GENERAL_ERROR),
              inl (FormulaEvaluationFailed formula msg))
       end
    /\ (wf_frame (_data s) -> forall v, get_cell_value target (stored v) = (stored v, inr v))
    /\ (forall ref r c,
          parse_cell_address ref = inr (r, c) -> df_at_get (_data s) r c = None ->
          get_cell_value ref s = (s, inr REF_ERROR)).

(** The state file written by the [k]-th save (counting from 0). *)
Definition saved_file (k : nat) (sp : Spreadsheet) : History.file :=
  History.mkFile (History.StateFile k) (2 * Z.of_nat k + 1) (Some sp).

(** The files of [l] are the state files numbered [a], [a + 1], ... in the
    order and with the modification times of their creation. *)
Definition created_from (a : nat) (l : list History.file) : Prop :=
  forall i f, l !! i = Some f ->
    History.path f = History.StateFile (a + i)
    /\ History.mtime f = 2 * Z.of_nat (a + i) + 1.

(** The history manager after the sheets of [saved] have been saved, one
    after the other, into an empty directory with limit [m]. *)
Definition history_after (m : nat) (saved : list Spreadsheet) : History.SpreadsheetHistory :=
  let n := length saved in
  History.mkHistory
    (drop (n - Nat.min n m) (imap saved_file saved))
    (Z.of_nat m)
    (map History.StateFile (seq 0 n))
    (2 * Z.of_nat n)
    n.

(** What [n] consecutive saves into an empty directory with limit [m] leave
    behind: all saves succeed; the directory holds [min n m] state files,
    namely the most recently created ones, oldest first; and once the limit
    has been reached, a further [enforce_max_history_limit] evicts one more
    file and leaves [m - 1]. *)
Definition history_bounded (m : nat) (sheets : list Spreadsheet) : Prop :=
  let n := length sheets in
  let r := History.save_all sheets (History.new_history (Z.of_nat m)) in
  snd r = inr tt
  /\ History.state_file_count (fst r) = Z.of_nat (Nat.min n m)
  /\ map History.path (History.history_dir (fst r))
     = map History.StateFile (seq (n - Nat.min n m) (Nat.min n m))
  /\ ((m <= n)%nat ->
      History.state_file_count (fst r) = Z.of_nat m
      /\ let e := History.enforce_max_history_limit (fst r) in
         snd e = inr tt
         /\ History.state_file_count (fst e) = Z.of_nat m - 1
         /\ map History.path (History.history_dir (fst e))
            = map History.StateFile (seq (S (n - m)) (m - 1))).

(** Every dependency of [x] is in [V] and none is the target. *)
Definition closed_in (deps : gmap string dep_collection) (target : string) (V : gset string) (x : string) : Prop :=
  x <> target /\ forall y, depends_on deps x y -> y <> target /\ y ∈ V.

(** What a negative answer of the search [rec] guarantees. *)
Definition search_spec (deps : gmap string dep_collection) (target : string)
  (rec : string -> gset string -> option (bool * gset string)) : Prop :=
  forall dep v V1, rec dep v = Some (false, V1) ->
    {[dep]} ∪ v ⊆ V1 /\ forall x, x ∈ V1 -> x ∉ v -> closed_in deps target V1 x.

(** The visited set only grows. *)
Definition search_mono (rec : string -> gset string -> option (bool * gset string)) : Prop :=
  forall dep v b V1, rec dep v = Some (b, V1) -> v ⊆ V1.

(** The reverse edges that [update_dependencies] adds for [cell]. *)
Definition add_reverse_dependencies (cell : string) (refs : list string)
  (rdeps : gmap string (gset string)) : gmap string (gset string) :=
  foldl (fun rd dep => dict_add_to_set dep cell rd) rdeps refs.


(** What the scanner of [findall_refs] has accumulated so far. *)
Definition scan_ok (m : scan_mode) : Prop :=
  match m with
  | Idle => True
  | InLetters acc => string_forall Py.is_alpha acc = true /\ acc <> EmptyString
  | InDigits acc =>
      exists l d, acc = l ++ d
                  /\ string_forall Py.is_alpha l = true /\ l <> EmptyString
                  /\ string_forall Py.is_digit d = true /\ d <> EmptyString
  end.

(** The cell an operation writes to. *)
Definition operation_target (op : operation) : option string :=
  match op with
  | SetCellValue cell _ => Some cell
  | ExecuteFunction cell _ _ => Some cell
  | DeleteCell cell => Some cell
  | CreateSheet _ _ | ClearSheet => None
  end.

(** The formula of a cell is on record: in [_formulas], as the reference
    list in [_dependencies], as a reverse edge from each reference, and with
    no function entry for the cell. *)
Definition formula_recorded (cell formula : string) (s : Spreadsheet) : Prop :=
  _formulas s !! cell = Some formula
  /\ _dependencies s !! cell = Some (DepList (findall_refs formula))
  /\ (forall ref, ref ∈ findall_refs formula ->
        reverse_mem (_reverse_dependencies s) cell ref)
  /\ Dict.mem cell (_functions s) = false.

(** What is on record for a cell that is not a function cell. *)
Definition record_of (a : string) (formula : option string) (deps : option dep_collection)
  (s : Spreadsheet) : Prop :=
  _formulas s !! a = formula
  /\ _dependencies s !! a = deps
  /\ Dict.mem a (_functions s) = false.

(** The function cell [cell] has the edge to [dep_cell] in both maps. *)
Definition tracked (cell dep_cell : string) (s : Spreadsheet) : Prop :=
  depends_on (_dependencies s) cell dep_cell
  /\ reverse_mem (_reverse_dependencies s) cell dep_cell.

(** The cell's entry of [_dependencies] is a list, as a formula leaves it. *)
Definition listed_dependencies (cell : string) (s : Spreadsheet) : Prop :=
  exists l, _dependencies s !! cell = Some (DepList l).

(** The history manager after the sheets of [saved] have been saved with
    limit [m] and the saves numbered [b], [b + 1], ... have been undone:
    the directory holds the state files numbered from [a] up to [b - 1],
    and [states] still names every save below [b]. *)
Definition history_window (m : nat) (saved : list Spreadsheet) (a b : nat)
  : History.SpreadsheetHistory :=
  History.mkHistory
    (drop a (imap saved_file (take b saved)))
    (Z.of_nat m)
    (map History.StateFile (seq 0 b))
    (2 * Z.of_nat (length saved))
    (length saved).

(** [undo()] called [k] times, with the outcome of each call. *)
Fixpoint undo_times (k : nat) (h : History.SpreadsheetHistory)
  : list (History.undo_error + Spreadsheet) * History.SpreadsheetHistory :=
  match k with
  | O => ([], h)
  | S k' =>
      let '(h1, r) := History.undo h in
      let '(rs, h2) := undo_times k' h1 in
      (r :: rs, h2)
  end.

(** A spreadsheet as [load_state] returns it: with a new evaluator. *)
Definition reloaded (spreadsheet : Spreadsheet) : Spreadsheet :=
  with_names (fun _ => ∅) spreadsheet.

(** The error that the address of a write meets in
    [expand_sheet_to_include_cell], if any: the address does not parse, or
    it lies beyond column 500 or row 500. *)
Definition address_error (cell : string) : option exn :=
  match parse_cell_address cell with
  | inl e => Some e
  | inr (row_number, column_label) =>
      if (500 <? column_number column_label) || (500 <? row_number)
      then Some (ValueError ExceedingMaximumSheetSize)
      else None
  end.


(** What [get_cell_value] returns for an address. *)
Definition cell_value (cell : string) (s : Spreadsheet) : value :=
  match snd (get_cell_value cell s) with
  | inr v => v
  | inl _ => REF_ERROR
  end.

(** The maps that direct a cascade are in [s'] what they are in [s]. *)
Definition same_records (s s' : Spreadsheet) : Prop :=
  _formulas s' = _formulas s
  /\ _functions s' = _functions s
  /\ _reverse_dependencies s' = _reverse_dependencies s.

(** * Properties *)

(** ** Characters *)

Lemma ord_chr (z : Z) : 0 <= z < 256 -> Py.ord (Py.chr z) = z.
Proof.
  intros Hz. unfold Py.ord, Py.chr.
  rewrite nat_ascii_embedding by lia. lia.
Qed.

Lemma ord_range (c : ascii) : 0 <= Py.ord c < 256.
Proof.
  unfold Py.ord. pose proof (nat_ascii_bounded c). lia.
Qed.

Lemma digit_not_alpha (c : ascii) : Py.is_digit c = true -> Py.is_alpha c = false.
Proof. unfold Py.is_digit, Py.is_alpha. lia. Qed.

Lemma upper_letter_alpha (c : ascii) : is_upper_letter c = true -> Py.is_alpha c = true.
Proof. unfold is_upper_letter, Py.is_alpha. lia. Qed.

Lemma upper_char_upper_letter (c : ascii) :
  is_upper_letter c = true -> Py.upper_char c = c.
Proof.
  unfold is_upper_letter, Py.upper_char. intros H.
  destruct ((97 <=? Py.ord c) && (Py.ord c <=? 122)) eqn:E; [lia | reflexivity].
Qed.

Lemma upper_uppercase (s : string) :
  string_forall is_upper_letter s = true -> Py.upper s = s.
Proof.
  induction s as [|c r IH]; simpl; [reflexivity|].
  intros [Hc Hr]%andb_true_iff.
  rewrite upper_char_upper_letter, IH by assumption. reflexivity.
Qed.

Lemma string_forall_impl (p q : ascii -> bool) (s : string) :
  (forall c, p c = true -> q c = true) ->
  string_forall p s = true -> string_forall q s = true.
Proof.
  intros Hpq. induction s as [|c r IH]; simpl; [reflexivity|].
  intros [Hc Hr]%andb_true_iff. rewrite (Hpq _ Hc), IH by assumption. reflexivity.
Qed.

Lemma append_nil (b : string) : EmptyString ++ b = b.
Proof. reflexivity. Qed.

Lemma append_cons (c : ascii) (r b : string) : String c r ++ b = String c (r ++ b).
Proof. reflexivity. Qed.

Lemma string_app_empty_r (s : string) : s ++ EmptyString = s.
Proof. induction s as [|c r IH]; rewrite ?append_nil, ?append_cons; congruence. Qed.

Lemma string_app_assoc (a b c : string) : (a ++ b) ++ c = a ++ (b ++ c).
Proof. induction a as [|x r IH]; rewrite ?append_nil, ?append_cons; congruence. Qed.

Lemma list_ascii_app (a b : string) :
  list_ascii_of_string (a ++ b) = (list_ascii_of_string a ++ list_ascii_of_string b)%list.
Proof.
  induction a as [|x r IH]; rewrite ?append_nil, ?append_cons; simpl; congruence.
Qed.

Lemma span_all (p : ascii -> bool) (a b : string) :
  string_forall p a = true ->
  match b with EmptyString => True | String c _ => p c = false end ->
  Py.span p (a ++ b) = (a, b).
Proof.
  intros Ha Hb. induction a as [|c r IH]; rewrite ?append_nil, ?append_cons; simpl in *.
  - destruct b as [|c r]; simpl; [reflexivity|]. rewrite Hb. reflexivity.
  - apply andb_true_iff in Ha as [Hc Hr]. rewrite Hc, (IH Hr). reflexivity.
Qed.

Lemma eqb_empty_false (s : string) : s <> EmptyString -> String.eqb s EmptyString = false.
Proof. destruct s; [congruence | reflexivity]. Qed.

(** ** Decimal printing and reading *)

Lemma digits_loop_app (fuel : nat) (n : Z) (acc : string) :
  Py.digits_loop fuel n acc = Py.digits_loop fuel n EmptyString ++ acc.
Proof.
  revert n acc. induction fuel as [|f IH]; intros n acc; simpl; [reflexivity|].
  destruct (n <? 10); [reflexivity|].
  rewrite IH. rewrite (IH _ (String _ EmptyString)).
  rewrite string_app_assoc. reflexivity.
Qed.

Lemma digits_loop_int (fuel : nat) (n : Z) :
  0 <= n < Z.of_nat fuel ->
  Py.int_of_digits (Py.digits_loop fuel n EmptyString) = n.
Proof.
  unfold Py.int_of_digits. fold digit_step.
  revert n. induction fuel as [|f IH]; intros n Hn; [lia|].
  simpl. destruct (n <? 10) eqn:E.
  - simpl. unfold digit_step. rewrite ord_chr by (pose proof (Z.mod_pos_bound n 10); lia).
    apply Z.ltb_lt in E. rewrite Z.mod_small by lia. lia.
  - apply Z.ltb_ge in E. rewrite digits_loop_app.
    rewrite list_ascii_app, fold_left_app.
    rewrite IH by (split; [apply Z.div_pos; lia | ];
                   assert (n / 10 < n) by (apply Z.div_lt; lia); lia).
    simpl. unfold digit_step at 1.
    rewrite ord_chr by (pose proof (Z.mod_pos_bound n 10); lia).
    pose proof (Z.div_mod n 10). lia.
Qed.

Lemma digits_loop_digits (fuel : nat) (n : Z) (acc : string) :
  0 <= n -> string_forall Py.is_digit acc = true ->
  string_forall Py.is_digit (Py.digits_loop fuel n acc) = true.
Proof.
  revert n acc. induction fuel as [|f IH]; intros n acc Hn Hacc; simpl; [assumption|].
  assert (Hd : Py.is_digit (Py.chr (48 + n mod 10)) = true).
  { unfold Py.is_digit. pose proof (Z.mod_pos_bound n 10).
    rewrite ord_chr by lia. lia. }
  destruct (n <? 10).
  - simpl. rewrite Hd, Hacc. reflexivity.
  - apply IH; [apply Z.div_pos; lia|]. simpl. rewrite Hd, Hacc. reflexivity.
Qed.

Lemma digits_loop_nonempty (fuel : nat) (n : Z) (acc : string) :
  acc <> EmptyString -> Py.digits_loop fuel n acc <> EmptyString.
Proof.
  revert n acc. induction fuel as [|f IH]; intros n acc Hacc; simpl; [assumption|].
  destruct (n <? 10); [congruence|]. apply IH. congruence.
Qed.

Lemma str_of_int_spec (n : Z) :
  0 <= n ->
  Py.int_of_digits (Py.str_of_int n) = n
  /\ string_forall Py.is_digit (Py.str_of_int n) = true
  /\ Py.str_of_int n <> EmptyString.
Proof.
  intros Hn. unfold Py.str_of_int.
  destruct (n <? 0) eqn:E; [lia|]. split; [|split].
  - apply digits_loop_int. lia.
  - apply digits_loop_digits; [assumption | reflexivity].
  - simpl. destruct (n <? 10); [congruence|]. apply digits_loop_nonempty. congruence.
Qed.

(** ** Column labels *)

Lemma label_char (r : Z) :
  0 <= r < 26 ->
  is_upper_letter (Py.chr (ASCII_A + r)) = true
  /\ Py.ord (Py.upper_char (Py.chr (ASCII_A + r))) = 65 + r.
Proof.
  intros Hr. unfold ASCII_A.
  assert (H : is_upper_letter (Py.chr (65 + r)) = true).
  { unfold is_upper_letter. rewrite ord_chr by lia. lia. }
  split; [assumption|].
  rewrite upper_char_upper_letter by assumption. apply ord_chr. lia.
Qed.

Lemma column_label_loop_value (fuel : nat) (col : Z) (acc : string) :
  -1 <= col < Z.of_nat fuel ->
  fold_left label_step (list_ascii_of_string (column_label_loop fuel col acc)) 0
  = fold_left label_step (list_ascii_of_string acc) (col + 1).
Proof.
  revert col acc. induction fuel as [|f IH]; intros col acc Hcol; simpl.
  - replace (col + 1) with 0 by lia. reflexivity.
  - destruct (0 <=? col) eqn:E.
    + apply Z.leb_le in E. unfold ALPHABET_LENGTH in *.
      pose proof (Z.mod_pos_bound col 26 ltac:(lia)) as Hm.
      pose proof (Z.div_mod col 26 ltac:(lia)) as Hd.
      assert (0 <= col / 26) by (apply Z.div_pos; lia).
      rewrite IH by lia. simpl. f_equal. unfold label_step at 1.
      destruct (label_char (col mod 26) Hm) as [_ ->].
      unfold ALPHABET_LENGTH. change (Py.ord "A") with 65. lia.
    + apply Z.leb_gt in E. replace (col + 1) with 0 by lia. reflexivity.
Qed.

Lemma column_label_loop_upper (fuel : nat) (col : Z) (acc : string) :
  string_forall is_upper_letter acc = true ->
  string_forall is_upper_letter (column_label_loop fuel col acc) = true.
Proof.
  revert col acc. induction fuel as [|f IH]; intros col acc Hacc; simpl; [assumption|].
  destruct (0 <=? col); [|assumption].
  apply IH. simpl. rewrite Hacc.
  destruct (label_char (col mod ALPHABET_LENGTH)) as [-> _];
    [apply Z.mod_pos_bound; reflexivity | reflexivity].
Qed.

Lemma column_label_loop_nonempty (fuel : nat) (col : Z) (acc : string) :
  acc <> EmptyString -> column_label_loop fuel col acc <> EmptyString.
Proof.
  revert col acc. induction fuel as [|f IH]; intros col acc Hacc; simpl; [assumption|].
  destruct (0 <=? col); [|assumption]. apply IH. congruence.
Qed.

Lemma index_to_column_letter_spec (col : Z) :
  0 <= col ->
  column_letter_to_index (index_to_column_letter col) = col
  /\ string_forall is_upper_letter (index_to_column_letter col) = true
  /\ index_to_column_letter col <> EmptyString.
Proof.
  intros Hcol. unfold index_to_column_letter, column_letter_to_index. split; [|split].
  - fold label_step. rewrite column_label_loop_value by lia. simpl. lia.
  - apply column_label_loop_upper. reflexivity.
  - simpl. destruct (0 <=? col) eqn:E; [|lia].
    apply column_label_loop_nonempty. congruence.
Qed.

Lemma match_cell_address_label_digits (label digits : string) :
  string_forall Py.is_alpha label = true -> label <> EmptyString ->
  string_forall Py.is_digit digits = true -> digits <> EmptyString ->
  match_cell_address (label ++ digits) = Some (label, digits).
Proof.
  intros Hl Hln Hd Hdn. unfold match_cell_address.
  rewrite span_all; [|assumption|].
  - rewrite <- (string_app_empty_r digits) at 1.
    rewrite span_all by (assumption || exact I).
    rewrite !eqb_empty_false by assumption. reflexivity.
  - destruct digits as [|c r]; [congruence|]. simpl in Hd.
    apply andb_true_iff in Hd as [Hc _]. apply digit_not_alpha, Hc.
Qed.

(** ** Reasoning in the monad *)

Section InvRules.
Context (I : Spreadsheet -> Prop).

Lemma inv_bind_eq {A B} (m : M A) (k : A -> M B) (s : Spreadsheet) :
  I (fst (m s)) ->
  (forall a s', m s = (s', inr a) -> I s' -> I (fst (k a s'))) ->
  I (fst (bind m k s)).
Proof.
  unfold bind. destruct (m s) as [s' [e|a]]; simpl; auto.
Qed.

Lemma inv_bind {A B} (m : M A) (k : A -> M B) :
  inv I m -> (forall a, inv I (k a)) -> inv I (bind m k).
Proof.
  intros Hm Hk s Hs. apply inv_bind_eq; [apply Hm, Hs|].
  intros a s' _ Hs'. apply Hk, Hs'.
Qed.

Lemma inv_ret {A} (a : A) : inv I (ret a).
Proof. intros s Hs. exact Hs. Qed.

Lemma inv_raise {A} (e : exn) : inv I (@raise A e).
Proof. intros s Hs. exact Hs. Qed.

Lemma inv_lift {A} (r : result A) : inv I (lift r).
Proof. intros s Hs. exact Hs. Qed.

Lemma inv_get : inv I get.
Proof. intros s Hs. exact Hs. Qed.

Lemma inv_modify (f : Spreadsheet -> Spreadsheet) :
  (forall s, I s -> I (f s)) -> inv I (modify f).
Proof. intros Hf s Hs. apply Hf, Hs. Qed.

Lemma inv_when (b : bool) (m : M unit) : inv I m -> inv I (when b m).
Proof. destruct b; [auto | intros _; apply inv_ret]. Qed.

Lemma inv_for_each {A} (l : list A) (body : A -> M unit) :
  (forall x, x ∈ l -> inv I (body x)) -> inv I (for_each l body).
Proof.
  induction l as [|x l IH]; intros Hb; simpl; [apply inv_ret|].
  apply inv_bind; [apply Hb; left|].
  intros _. apply IH. intros y Hy. apply Hb. right. exact Hy.
Qed.

Lemma inv_get_bind {A} (k : Spreadsheet -> M A) :
  (forall s0, I s0 -> I (fst (k s0 s0))) -> inv I (bind get k).
Proof. intros Hk s Hs. unfold bind, get. simpl. apply Hk, Hs. Qed.

Lemma inv_iterate_reverse_dependencies (cell : string) (used : nat) (l : list string)
  (body : string -> M unit) :
  (forall x, inv I (body x)) -> inv I (iterate_reverse_dependencies cell used l body).
Proof.
  intros Hb. induction l as [|x l IH]; simpl.
  - apply inv_get_bind. intros s0 Hs0.
    destruct (negb _); exact Hs0.
  - apply inv_get_bind. intros s0 Hs0.
    destruct (negb _); [exact Hs0|].
    apply inv_bind; [apply Hb | intros _; apply IH | exact Hs0].
Qed.
End InvRules.

Lemma bind_inr {A B} (m : M A) (k : A -> M B) (s s' : Spreadsheet) (a : A) :
  m s = (s', inr a) -> bind m k s = k a s'.
Proof. intros H. unfold bind. rewrite H. reflexivity. Qed.

Lemma bind_modify {B} (f : Spreadsheet -> Spreadsheet) (k : unit -> M B) (s : Spreadsheet) :
  bind (modify f) k s = k tt (f s).
Proof. reflexivity. Qed.

Lemma bind_get {B} (k : Spreadsheet -> M B) (s : Spreadsheet) : bind get k s = k s s.
Proof. reflexivity. Qed.

Lemma bind_lift_inr {A B} (a : A) (k : A -> M B) (s : Spreadsheet) :
  bind (lift (inr a)) k s = k a s.
Proof. reflexivity. Qed.

Lemma bind_lift_inl {A B} (e : exn) (k : A -> M B) (s : Spreadsheet) :
  bind (lift (inl e)) k s = (s, inl e).
Proof. reflexivity. Qed.

Lemma bind_inl {A B} (m : M A) (k : A -> M B) (s s' : Spreadsheet) (e : exn) :
  m s = (s', inl e) -> bind m k s = (s', inl e).
Proof. intros H. unfold bind. rewrite H. reflexivity. Qed.

(** ** Invariants of the engine

    One induction on the recursion budget serves every invariant [I] that
    is closed under the elementary mutations: [okf c] says a function entry
    and function dependencies may be recorded for [c], [okw c] that a checked
    formula may be committed for [c]. *)
Section EngineInvariant.
Context (R : Runtime) (I : Spreadsheet -> Prop) (okf okw : string -> Prop).

Hypothesis I_data : forall f s, I s -> I (with_data f s).
Hypothesis I_names : forall f s, I s -> I (with_names f s).
Hypothesis I_formula_delete : forall c s, I s -> I (with_formulas (delete c) s).
Hypothesis I_function_pop : forall c s, I s -> I (with_functions (Dict.pop c) s).
Hypothesis I_function_keys :
  forall c s, I s -> Dict.mem c (_functions s) = true -> okf c /\ okw c.
Hypothesis I_function_set :
  forall c fi s, okf c -> I s -> I (with_functions (Dict.set c fi) s).
Hypothesis I_track :
  forall c d, okf c -> inv I (track_one_dependency c d).
Hypothesis I_commit :
  forall fuel c formula s, okw c -> I s ->
    check_circular_dependencies R fuel c (findall_refs formula) s = (s, inr tt) ->
    I (fst (update_dependencies c formula (with_formulas <[c := formula]> s))).

Lemma inv_set_cell_value_direct (c : string) (v : value) :
  inv I (set_cell_value_direct c v).
Proof.
  unfold set_cell_value_direct. apply inv_bind; [apply inv_lift|].
  intros rc. apply inv_modify. intros; apply I_data; assumption.
Qed.

Lemma inv_get_cell_value (c : string) : inv I (get_cell_value c).
Proof.
  unfold get_cell_value. apply inv_bind; [apply inv_lift|]. intros rc.
  apply inv_bind; [apply inv_get|]. intros s. apply inv_ret.
Qed.

Lemma inv_resolve_cell_references (formula : string) :
  inv I (resolve_cell_references formula).
Proof.
  unfold resolve_cell_references. apply inv_for_each. intros ref _.
  apply inv_bind; [apply inv_get_cell_value|]. intros v.
  apply inv_modify. intros; apply I_names; assumption.
Qed.

Lemma inv_calculate_formula (c formula : string) :
  inv I (calculate_formula R c formula).
Proof.
  unfold calculate_formula.
  apply inv_bind; [apply inv_resolve_cell_references|]. intros _.
  apply inv_bind; [apply inv_get|]. intros s.
  destruct (simple_eval R formula (_evaluator_names s));
    try apply inv_set_cell_value_direct.
  apply inv_bind; [apply inv_set_cell_value_direct|]. intros _. apply inv_raise.
Qed.

Lemma inv_expand_sheet_to_include_cell (c : string) :
  inv I (expand_sheet_to_include_cell c).
Proof.
  unfold expand_sheet_to_include_cell.
  apply inv_bind; [apply inv_lift|]. intros [row_number column_label].
  destruct (_ || _); [apply inv_raise|].
  apply inv_bind; [apply inv_get|]. intros s.
  apply inv_bind.
  - apply inv_when. apply inv_bind.
    + unfold expand_columns. apply inv_bind; [apply inv_get|]. intros s1.
      apply inv_when, inv_modify. intros; apply I_data; assumption.
    + intros _. unfold expand_rows. apply inv_bind; [apply inv_get|]. intros s1.
      apply inv_when, inv_modify. intros; apply I_data; assumption.
  - intros _. apply inv_modify. intros; apply I_data; assumption.
Qed.

Lemma inv_run_reduction (red : reduction) (rng : string * string) :
  inv I (run_reduction R red rng).
Proof.
  unfold run_reduction. apply inv_bind; [apply inv_lift|]. intros sl.
  apply inv_bind; [apply inv_get|]. intros s. apply inv_ret.
Qed.

Lemma inv_track_function_dependencies (c : string) (rng : string * string) :
  okf c -> inv I (track_function_dependencies c rng).
Proof.
  intros Hc. unfold track_function_dependencies. destruct rng as [a b].
  apply inv_bind; [apply inv_lift|]. intros st.
  apply inv_bind; [apply inv_lift|]. intros en.
  apply inv_for_each. intros row _. apply inv_for_each. intros col _.
  apply I_track, Hc.
Qed.

Lemma check_circular_dependencies_state (fuel : nat) (c : string) (refs : list string)
  (s : Spreadsheet) :
  fst (check_circular_dependencies R fuel c refs s) = s.
Proof.
  unfold check_circular_dependencies.
  induction refs as [|r refs IH]; simpl; [reflexivity|].
  unfold bind at 1. unfold bind at 1. simpl.
  destruct (has_circular_dependency R fuel (_dependencies s) r c ∅) as [[[|] v]|];
    simpl; try reflexivity.
  exact IH.
Qed.

Section WithRecalc.
Variable fuel : nat.
Variable recalc : string -> M unit.
Hypothesis inv_recalc : forall c, inv I (recalc c).

Lemma inv_delete_cell_with (c : string) : inv I (delete_cell_with recalc c).
Proof.
  unfold delete_cell_with.
  apply inv_bind; [apply inv_set_cell_value_direct|]. intros _.
  apply inv_bind; [apply inv_modify; intros; apply I_formula_delete; assumption|].
  intros _.
  apply inv_bind; [apply inv_modify; intros; apply I_function_pop; assumption|].
  intros _. apply inv_recalc.
Qed.

Lemma inv_set_cell_value_with (c v : string) (info : option function_info) :
  okw c -> (info = None \/ okf c) ->
  inv I (set_cell_value_with R fuel recalc c v info).
Proof.
  intros Hw Hf. unfold set_cell_value_with.
  apply inv_bind; [apply inv_expand_sheet_to_include_cell|]. intros _.
  apply inv_bind; [apply inv_when, inv_delete_cell_with|]. intros _.
  apply inv_bind; [apply inv_get|]. intros s1.
  apply inv_bind; [apply inv_when, inv_delete_cell_with|]. intros _.
  apply inv_bind.
  { destruct info as [fi|]; [|apply inv_ret].
    destruct Hf as [?|Hf]; [discriminate|].
    apply inv_modify. intros; apply I_function_set; assumption. }
  intros _. apply inv_bind; [|intros _; apply inv_recalc].
  destruct (Py.startswith "=" v).
  - set (formula := substring 1 (String.length v - 1) v).
    intros s Hs. apply inv_bind_eq.
    + rewrite check_circular_dependencies_state. exact Hs.
    + intros [] s' Hck _.
      assert (s' = s) as ->.
      { rewrite <- (check_circular_dependencies_state fuel c (findall_refs formula) s).
        rewrite Hck. reflexivity. }
      rewrite bind_modify.
      apply inv_bind_eq; [eapply I_commit; eassumption|].
      intros _ s2 _ Hs2. apply inv_calculate_formula, Hs2.
  - apply inv_set_cell_value_direct.
Qed.

Lemma inv_function_handle_with (c function_name : string) (rng : string * string)
  (result_value : string) :
  okf c -> okw c ->
  inv I (function_handle_with R fuel recalc c function_name rng result_value).
Proof.
  intros Hf Hw. unfold function_handle_with.
  apply inv_bind; [apply inv_set_cell_value_with; auto|].
  intros _. apply inv_track_function_dependencies, Hf.
Qed.

Lemma inv_execute_function_with (c function_name : string) (rng : list string) :
  okf c -> okw c ->
  inv I (execute_function_with R fuel recalc c function_name rng).
Proof.
  intros Hf Hw. unfold execute_function_with.
  destruct (match_cell_address c); [|apply inv_raise].
  destruct rng as [|a [|b [|? ?]]]; try apply inv_raise.
  destruct (_ || _); [apply inv_raise|].
  apply inv_bind; [apply inv_lift|]. intros valid.
  destruct (negb valid); [apply inv_raise|].
  apply inv_bind; [apply inv_lift|]. intros inside.
  destruct inside; [apply inv_raise|].
  apply inv_bind; [|intros r; apply inv_function_handle_with; assumption].
  unfold function_sum, function_average, function_max, function_min,
    function_count, function_median, function_product.
  repeat (destruct (String.eqb function_name _); [apply inv_run_reduction|]).
  apply inv_raise.
Qed.
End WithRecalc.

Lemma inv_recalculate_dependents (fuel : nat) (c : string) :
  inv I (recalculate_dependents R fuel c).
Proof.
  revert c. induction fuel as [|f IH]; intros c; simpl; [apply inv_raise|].
  apply inv_get_bind. intros s0 Hs0.
  apply inv_bind_eq.
  - destruct (_reverse_dependencies s0 !! c) as [dependents|]; [|exact Hs0].
    apply inv_iterate_reverse_dependencies; [|exact Hs0].
    intros x. apply inv_get_bind. intros s1 Hs1.
    destruct (_formulas s1 !! x) as [formula|]; [|exact Hs1].
    apply inv_bind; [apply inv_calculate_formula | intros _; apply IH | exact Hs1].
  - intros _ s1 _ Hs1. rewrite bind_get.
    apply inv_for_each; [|exact Hs1].
    intros [func_cell [func_name cell_range_tuple]] Hin.
    assert (okf func_cell /\ okw func_cell) as [Hf Hw].
    { apply (I_function_keys func_cell s1 Hs1).
      unfold Dict.mem. apply existsb_exists. exists (func_cell, (func_name, cell_range_tuple)).
      split; [apply list_elem_of_In, Hin | apply String.eqb_refl]. }
    apply inv_bind; [apply inv_lift|]. intros inside.
    apply inv_when. apply inv_bind; [|intros _; apply IH].
    apply inv_when. apply inv_execute_function_with; assumption.
Qed.

Lemma inv_delete_cell (fuel : nat) (c : string) : inv I (delete_cell R fuel c).
Proof. apply inv_delete_cell_with, inv_recalculate_dependents. Qed.

Lemma inv_set_cell_value (fuel : nat) (c v : string) (info : option function_info) :
  okw c -> (info = None \/ okf c) -> inv I (set_cell_value R fuel c v info).
Proof. intros. apply inv_set_cell_value_with; auto using inv_recalculate_dependents. Qed.

Lemma inv_execute_function (fuel : nat) (c function_name : string) (rng : list string) :
  okf c -> okw c -> inv I (execute_function R fuel c function_name rng).
Proof. intros. apply inv_execute_function_with; auto using inv_recalculate_dependents. Qed.

End EngineInvariant.

(** ** The cycle check is a depth-first search *)

Section CycleCheck.
Context (R : Runtime).
Implicit Types (deps : gmap string dep_collection) (visited : gset string).

Lemma dep_iter_mem (d : dep_collection) (y : string) :
  y ∈ dep_iter R d <-> dep_mem y d.
Proof.
  destruct d as [l|st]; simpl; [reflexivity|].
  rewrite (set_order_perm R st). apply elem_of_elements.
Qed.

Lemma closed_in_mono deps target (V V' : gset string) (x : string) :
  V ⊆ V' -> closed_in deps target V x -> closed_in deps target V' x.
Proof.
  intros HV [Hx Hy]. split; [exact Hx|].
  intros y Hxy. destruct (Hy y Hxy). split; [assumption | set_solver].
Qed.

Lemma loop_false deps target rec (l : list string) visited V' :
  search_spec deps target rec ->
  has_circular_dependency_loop rec target l visited = Some (false, V') ->
  visited ⊆ V'
  /\ (forall y, y ∈ l -> y <> target /\ y ∈ V')
  /\ (forall x, x ∈ V' -> x ∉ visited -> closed_in deps target V' x).
Proof.
  intros Hrec. revert visited. induction l as [|dep l IH]; intros visited; simpl.
  - intros [= <-]. split; [done|]. split; [intros y Hy; inversion Hy | intros x ? ?; done].
  - destruct (String.eqb_spec dep target) as [->|Hne]; [discriminate|].
    destruct (decide (dep ∈ visited)) as [Hin|Hnin].
    + intros H. destruct (IH _ H) as (Hsub & Hl & Hcl).
      split; [exact Hsub|]. split; [|exact Hcl].
      intros y [->|Hy]%elem_of_cons; [split; [exact Hne | set_solver] | auto].
    + destruct (rec dep visited) as [[[|] V1]|] eqn:Hr; try discriminate.
      intros H. destruct (IH _ H) as (Hsub & Hl & Hcl).
      destruct (Hrec _ _ _ Hr) as (Hsub1 & Hcl1).
      split; [set_solver|]. split.
      * intros y [->|Hy]%elem_of_cons; [split; [exact Hne | set_solver] | auto].
      * intros x Hx Hxv. destruct (decide (x ∈ V1)) as [Hx1|Hx1].
        -- apply (closed_in_mono _ _ V1); [exact Hsub | apply Hcl1; assumption].
        -- apply Hcl; assumption.
Qed.

Lemma has_circular_dependency_false_spec (fuel : nat) deps target :
  search_spec deps target
    (fun dep v => has_circular_dependency R fuel deps dep target v).
Proof.
  induction fuel as [|f IH]; intros cell visited V'; simpl; [discriminate|].
  destruct (String.eqb_spec cell target) as [->|Hne]; [discriminate|].
  destruct (deps !! cell) as [d|] eqn:Hd.
  - intros H. destruct (loop_false _ _ _ _ _ _ IH H) as (Hsub & Hl & Hcl).
    split; [exact Hsub|]. intros x Hx Hxv.
    destruct (decide (x = cell)) as [->|Hxc].
    + split; [exact Hne|]. intros y (d' & Hd' & Hy).
      rewrite Hd in Hd'. injection Hd' as <-.
      apply Hl, dep_iter_mem, Hy.
    + apply Hcl; [exact Hx | set_solver].
  - intros [= <-]. split; [done|]. intros x Hx Hxv.
    assert (x = cell) as -> by set_solver.
    split; [exact Hne|]. intros y (d' & Hd' & _). congruence.
Qed.

(** A negative answer is right: the target cannot be reached. *)
Lemma has_circular_dependency_false (fuel : nat) deps (cell target : string)
  (V : gset string) :
  has_circular_dependency R fuel deps cell target ∅ = Some (false, V) ->
  ~ rtc (depends_on deps) cell target.
Proof.
  intros H Hreach.
  destruct (has_circular_dependency_false_spec fuel deps target _ _ _ H) as (Hsub & Hcl).
  assert (Hall : forall x z, rtc (depends_on deps) x z -> x ∈ V -> z ∈ V).
  { intros x z Hz. induction Hz as [x|x y z Hxy _ IH]; [auto|].
    intros Hx. apply IH.
    destruct (Hcl x) as [_ Hdeps]; [exact Hx | set_solver |].
    apply Hdeps, Hxy. }
  assert (Ht : target ∈ V) by (apply (Hall _ _ Hreach); set_solver).
  destruct (Hcl target) as [Hne _]; [exact Ht | set_solver | congruence].
Qed.

Lemma loop_mono target rec (l : list string) visited b V' :
  search_mono rec ->
  has_circular_dependency_loop rec target l visited = Some (b, V') -> visited ⊆ V'.
Proof.
  intros Hrec. revert visited. induction l as [|dep l IH]; intros visited; simpl.
  - intros [= <- <-]. done.
  - destruct (String.eqb dep target); [intros [= <- <-]; done|].
    destruct (decide (dep ∈ visited)); [apply IH|].
    destruct (rec dep visited) as [[[|] V1]|] eqn:Hr; try discriminate.
    + intros [= <- <-]. eapply Hrec, Hr.
    + intros H. apply IH in H. apply Hrec in Hr. set_solver.
Qed.

Lemma has_circular_dependency_mono (fuel : nat) deps target :
  search_mono (fun dep v => has_circular_dependency R fuel deps dep target v).
Proof.
  induction fuel as [|f IH]; intros cell visited b V'; simpl; [discriminate|].
  destruct (String.eqb cell target); [intros [= <- <-]; set_solver|].
  destruct (deps !! cell) as [d|].
  - intros H. apply (loop_mono _ _ _ _ _ _ IH) in H. set_solver.
  - intros [= <- <-]. set_solver.
Qed.

(** A budget above the number of cells with dependencies is enough. *)
Lemma loop_terminates deps target (f : nat) (l : list string) visited :
  (forall cell v, cell ∉ v -> size (dom deps ∖ v) < f ->
                  is_Some (has_circular_dependency R f deps cell target v))%nat ->
  (size (dom deps ∖ visited) < f)%nat ->
  is_Some (has_circular_dependency_loop
             (fun dep v => has_circular_dependency R f deps dep target v)
             target l visited).
Proof.
  intros Hrec. revert visited. induction l as [|dep l IH]; intros visited Hsize; simpl.
  - eauto.
  - destruct (String.eqb dep target); [eauto|].
    destruct (decide (dep ∈ visited)) as [Hin|Hnin]; [apply IH, Hsize|].
    destruct (Hrec dep visited Hnin Hsize) as [[b V1] Hr]. rewrite Hr.
    destruct b; [eauto|]. apply IH.
    apply has_circular_dependency_mono in Hr.
    eapply Nat.le_lt_trans; [|exact Hsize].
    apply subseteq_size. set_solver.
Qed.

Lemma has_circular_dependency_terminates (fuel : nat) deps (cell target : string) visited :
  cell ∉ visited -> (size (dom deps ∖ visited) < fuel)%nat ->
  is_Some (has_circular_dependency R fuel deps cell target visited).
Proof.
  revert cell visited. induction fuel as [|f IH]; intros cell visited Hc Hsize; simpl; [lia|].
  destruct (String.eqb cell target); [eauto|].
  destruct (deps !! cell) as [d|] eqn:Hd; [|eauto].
  apply loop_terminates; [exact IH|].
  assert (Hlt : (size (dom deps ∖ ({[cell]} ∪ visited)) < size (dom deps ∖ visited))%nat).
  { apply subset_size. apply (strict_spec_alt _ _).
    split; [set_solver|].
    assert (cell ∈ dom deps) by (apply elem_of_dom; eauto).
    intros Heq. assert (cell ∈ dom deps ∖ ({[cell]} ∪ visited)) by (rewrite Heq; set_solver).
    set_solver. }
  lia.
Qed.


End CycleCheck.

(** ** Acyclicity is kept by a checked formula *)





(** ** The two dependency maps *)

Lemma depends_onb_spec (deps : gmap string dep_collection) (a b : string) :
  depends_onb deps a b = true <-> depends_on deps a b.
Proof.
  unfold depends_onb, depends_on. split.
  - destruct (deps !! a) as [[l|st]|]; [| |discriminate];
      intros H%bool_decide_eq_true; eauto.
  - intros (d & -> & Hd). destruct d; apply bool_decide_eq_true, Hd.
Qed.

Lemma reverse_memb_spec (rdeps : gmap string (gset string)) (a b : string) :
  reverse_memb rdeps a b = true <-> reverse_mem rdeps a b.
Proof.
  unfold reverse_memb, reverse_mem. split.
  - destruct (rdeps !! b) as [st|]; [|discriminate].
    intros H%bool_decide_eq_true; eauto.
  - intros (st & -> & Hst). apply bool_decide_eq_true, Hst.
Qed.

Lemma reverse_mem_add (rdeps : gmap string (gset string)) (k x a b : string) :
  reverse_mem (dict_add_to_set k x rdeps) a b
  <-> reverse_mem rdeps a b \/ (a = x /\ b = k).
Proof.
  unfold reverse_mem, dict_add_to_set.
  destruct (decide (b = k)) as [->|Hb].
  - destruct (rdeps !! k) as [st|] eqn:Hk.
    + rewrite lookup_insert_eq. split.
      * intros (st' & [= <-] & Ha). apply elem_of_union in Ha as [Ha|Ha].
        -- right. split; [set_solver | reflexivity].
        -- left. eauto.
      * intros [(st' & [= <-] & Ha)|[-> _]]; eexists; (split; [reflexivity | set_solver]).
    + rewrite lookup_insert_eq. split.
      * intros (st' & [= <-] & Ha). right. split; [set_solver | reflexivity].
      * intros [(st' & [=] & _)|[-> _]]. eexists; (split; [reflexivity | set_solver]).
  - destruct (rdeps !! k) as [st|] eqn:Hk; rewrite lookup_insert_ne by congruence;
      (split; [intros H; left; exact H | intros [H|[_ ?]]; [exact H | congruence]]).
Qed.

Lemma for_each_modify {A} (l : list A) (g : A -> Spreadsheet -> Spreadsheet)
  (s : Spreadsheet) :
  for_each l (fun x => modify (g x)) s = (foldl (fun s x => g x s) s l, inr tt).
Proof.
  revert s. induction l as [|x l IH]; intros s; simpl; [reflexivity|].
  rewrite bind_modify. apply IH.
Qed.

Lemma update_dependencies_state (cell formula : string) (s : Spreadsheet) :
  update_dependencies cell formula s
  = (with_reverse_dependencies (add_reverse_dependencies cell (findall_refs formula))
       (with_dependencies <[cell := DepList (findall_refs formula)]> s), inr tt).
Proof.
  unfold update_dependencies. rewrite bind_modify, for_each_modify. f_equal.
  generalize (with_dependencies <[cell:=DepList (findall_refs formula)]> s).
  unfold add_reverse_dependencies.
  induction (findall_refs formula) as [|r l IH]; intros s0; simpl.
  - destruct s0; reflexivity.
  - rewrite IH. destruct s0; reflexivity.
Qed.

Lemma reverse_mem_add_all (cell : string) (refs : list string)
  (rdeps : gmap string (gset string)) (a b : string) :
  reverse_mem (add_reverse_dependencies cell refs rdeps) a b
  <-> reverse_mem rdeps a b \/ (a = cell /\ b ∈ refs).
Proof.
  unfold add_reverse_dependencies. revert rdeps.
  induction refs as [|r refs IH]; intros rdeps; simpl.
  - split; [auto | intros [H|[_ H]]; [exact H | inversion H]].
  - rewrite IH, reverse_mem_add, elem_of_cons. naive_solver.
Qed.

(** ** C1: acyclicity of [_dependencies] *)

Section Acyclic.
Context (R : Runtime).


End Acyclic.




(** ** C3: the reverse map records every dependency *)

Section Inverse.
Context (R : Runtime).

Lemma forward_recorded_track (c d : string) :
  inv forward_recorded (track_one_dependency c d).
Proof.
  intros s Hs. unfold track_one_dependency. rewrite bind_modify, bind_get.
  set (s1 := with_reverse_dependencies (dict_add_to_set d c) s).
  assert (H1 : forward_recorded s1).
  { intros a b Hab. apply reverse_mem_add. left. apply Hs, Hab. }
  assert (Hnew : forall st, (forall b, b ∈ st -> depends_on (_dependencies s) c b) ->
            forward_recorded (with_dependencies <[c := DepSet ({[d]} ∪ st)]> s1)).
  { intros st Hst a b (d' & Hd' & Hb). simpl in *.
    apply reverse_mem_add.
    destruct (decide (a = c)) as [->|Ha].
    - rewrite lookup_insert_eq in Hd'. injection Hd' as <-. simpl in Hb.
      apply elem_of_union in Hb as [Hb|Hb]; [right; set_solver|].
      left. apply Hs, Hst, Hb.
    - rewrite lookup_insert_ne in Hd' by congruence. left. apply Hs. exists d'. auto. }
  destruct (_dependencies s1 !! c) as [[l|st]|] eqn:Hc; simpl.
  - exact H1.
  - apply Hnew. intros b Hb. exists (DepSet st). split; [exact Hc | exact Hb].
  - replace (DepSet {[d]}) with (DepSet ({[d]} ∪ ∅)) by (f_equal; set_solver).
    apply Hnew. intros b Hb. set_solver.
Qed.

Lemma forward_recorded_commit (c formula : string) (s : Spreadsheet) :
  forward_recorded s ->
  forward_recorded (fst (update_dependencies c formula (with_formulas <[c := formula]> s))).
Proof.
  intros Hs. rewrite update_dependencies_state. simpl.
  intros a b (d' & Hd' & Hb). simpl in *. apply reverse_mem_add_all.
  destruct (decide (a = c)) as [->|Ha].
  - rewrite lookup_insert_eq in Hd'. injection Hd' as <-. right. auto.
  - rewrite lookup_insert_ne in Hd' by congruence. left. apply Hs. exists d'. auto.
Qed.

Lemma forward_recorded_run_operation (fuel : nat) (op : operation) :
  inv forward_recorded (run_operation R fuel op).
Proof.
  assert (Hgen : forall c v fn rng,
             inv forward_recorded (set_cell_value R fuel c v None)
             /\ inv forward_recorded (delete_cell R fuel c)
             /\ inv forward_recorded (execute_function R fuel c fn rng)).
  { intros c v fn rng.
    split; [|split];
      [eapply (inv_set_cell_value R _ (fun _ => True) (fun _ => True))
      |eapply (inv_delete_cell R _ (fun _ => True) (fun _ => True))
      |eapply (inv_execute_function R _ (fun _ => True) (fun _ => True))];
      try (intros; exact I); try (left; reflexivity); try (intros; split; exact I);
      try (intros ? ? Hs; exact Hs); try (intros ? ? ? ? Hs; exact Hs);
      try (intros ? ? _; apply forward_recorded_track);
      try (intros ? ? ? ? _ Hs _; apply forward_recorded_commit, Hs). }
  destruct op as [rows columns|c v|c fn rng|c|]; simpl.
  - apply inv_modify. intros s Hs. exact Hs.
  - apply (Hgen c v EmptyString []).
  - apply (Hgen c EmptyString fn rng).
  - apply (Hgen c EmptyString EmptyString []).
  - intros s _ a b (d & Hd & _). simpl in Hd. rewrite lookup_empty in Hd. discriminate.
Qed.
End Inverse.

(** C3, as stated, fails in the direction from [_reverse_dependencies] to
    [_dependencies]: replacing the formula of [A1] leaves [A1] in the
    reverse-dependency set of the referent it no longer has. *)
Lemma replaced_formula_stays_in_reverse_dependencies :
  let ops := [SetCellValue "A1" "=B1"; SetCellValue "A1" "=C1"] in
  let r := run_operations Example.runtime 10 ops new_spreadsheet in
  snd r = inr tt
  /\ reverse_mem (_reverse_dependencies (fst r)) "A1" "B1"
  /\ ~ depends_on (_dependencies (fst r)) "A1" "B1"
  /\ ~ exact_inverses (fst r).
Proof.
  assert (Hr : reverse_mem (_reverse_dependencies
                 (fst (run_operations Example.runtime 10
                         [SetCellValue "A1" "=B1"; SetCellValue "A1" "=C1"]
                         new_spreadsheet))) "A1" "B1").
  { apply reverse_memb_spec. vm_compute. reflexivity. }
  assert (Hd : ~ depends_on (_dependencies
                 (fst (run_operations Example.runtime 10
                         [SetCellValue "A1" "=B1"; SetCellValue "A1" "=C1"]
                         new_spreadsheet))) "A1" "B1").
  { intros H%depends_onb_spec. vm_compute in H. discriminate. }
  split; [vm_compute; reflexivity|]. split; [exact Hr|]. split; [exact Hd|].
  intros Hex. apply Hd, Hex, Hr.
Qed.

(** C3 (amended): every public operation ([create_sheet], [set_cell_value],
    [execute_function], [delete_cell], [clear_sheet]), whether it returns or
    raises, keeps one direction of the correspondence: for every cell [a] and
    every [b] in [_dependencies[a]], [a] is in [_reverse_dependencies[b]].
    Entries of [_reverse_dependencies] are only ever added (or all dropped by
    [clear_sheet]), so the converse direction is not kept. *)
Theorem reverse_dependencies_record_every_dependency
  (R : Runtime) (fuel : nat) (op : operation) (s : Spreadsheet) :
  forward_recorded s -> forward_recorded (fst (run_operation R fuel op s)).
Proof. apply forward_recorded_run_operation. Qed.

Lemma forward_recorded_new : forward_recorded new_spreadsheet.
Proof. intros a b (d & Hd & _). simpl in Hd. rewrite lookup_empty in Hd. discriminate. Qed.

Lemma reverse_dependencies_record_every_dependency_witness :
  forward_recorded new_spreadsheet
  /\ forward_recorded
       (fst (run_operation Example.runtime 10 (SetCellValue "A1" "=B1+C1") new_spreadsheet)).
Proof.
  split; [exact forward_recorded_new|].
  apply (reverse_dependencies_record_every_dependency Example.runtime 10).
  exact forward_recorded_new.
Defined.

(** ** C9: from indices to an address and back *)




(** ** C8: range validity *)

(** C8: [is_valid_range] compares the two column labels as text.  The range
    from [Z1] to [AA1] has start row 1 <= end row 1 and start column
    position 25 <= end column position 26, yet it is reported invalid and an
    aggregate over it is refused with [InvalidCellRange]; the range from
    [AA1] to [B1], whose columns are in the wrong order, is reported valid. *)
Theorem is_valid_range_compares_labels_as_text :
  parse_cell_address "Z1" = inr (1, "Z")
  /\ parse_cell_address "AA1" = inr (1, "AA")
  /\ column_letter_to_index "Z" = 25
  /\ column_letter_to_index "AA" = 26
  /\ is_valid_range "Z1" "AA1" = inr false
  /\ is_valid_range "AA1" "B1" = inr true
  /\ forall (R : Runtime) (fuel : nat) (s : Spreadsheet),
       execute_function R fuel "A5" "Sum" ["Z1"; "AA1"] s
       = (s, inl (ValueError (InvalidCellRange "Z1" "AA1"))).
Proof. repeat split; reflexivity. Qed.

(** The other two parts of C8 on the example run time: [Sum] over the
    inverted range [(A2, A1)] is refused, and [Sum] over [(A1, A3)] holding
    10, 20, 30 puts 60 into the target cell. *)
Example sum_over_range :
  let s := fst (run_operations Example.runtime 10
                  [CreateSheet 3 2; SetCellValue "A1" "10"; SetCellValue "A2" "20";
                   SetCellValue "A3" "30"] new_spreadsheet) in
  snd (execute_function Example.runtime 10 "B1" "Sum" ["A2"; "A1"] s)
  = inl (ValueError (InvalidCellRange "A2" "A1"))
  /\ (let r := execute_function Example.runtime 10 "B1" "Sum" ["A1"; "A3"] s in
      snd r = inr tt /\ snd (get_cell_value "B1" (fst r)) = inr (VInt 60)).
Proof. vm_compute. repeat split; reflexivity. Qed.

(** ** C10: a function cell inside its own range *)

Lemma parse_cell_address_inr (cell : string) (rc : Z * string) :
  parse_cell_address cell = inr rc -> is_Some (match_cell_address cell).
Proof.
  unfold parse_cell_address. destruct (match_cell_address cell); [eauto | discriminate].
Qed.

(** C10: whenever the target cell lies inside the range (rows and columns
    both within the rectangle), [execute_function] raises a [ValueError]
    (for the range or for the target) before any aggregate is computed, and
    the grid, the function store and the dependency maps are exactly as
    before the call. *)
Theorem execute_function_rejects_target_in_range
  (R : Runtime) (fuel : nat) (s : Spreadsheet)
  (cell function_name start_cell end_cell : string) :
  cell_in_function_range cell (start_cell, end_cell) = inr true ->
  exists e,
    execute_function R fuel cell function_name [start_cell; end_cell] s
    = (s, inl (ValueError e))
    /\ (e = InvalidCellRange start_cell end_cell \/ e = TargetInFunctionRange cell).
Proof.
  intros Hin. unfold execute_function, execute_function_with.
  assert (Hparse : exists a b c, parse_cell_address start_cell = inr a
                                 /\ parse_cell_address end_cell = inr b
                                 /\ parse_cell_address cell = inr c).
  { unfold cell_in_function_range in Hin.
    destruct (parse_cell_address start_cell) as [|[? ?]]; [discriminate|].
    destruct (parse_cell_address end_cell) as [|[? ?]]; [discriminate|].
    destruct (parse_cell_address cell) as [|[? ?]]; [discriminate|].
    do 3 eexists. repeat split; reflexivity. }
  destruct Hparse as (a & b & c & Ha & Hb & Hc).
  destruct (parse_cell_address_inr _ _ Hc) as [m ->].
  assert (Hs : String.eqb start_cell EmptyString = false).
  { destruct start_cell; [discriminate Ha | reflexivity]. }
  assert (He : String.eqb end_cell EmptyString = false).
  { destruct end_cell; [discriminate Hb | reflexivity]. }
  rewrite Hs, He. cbn [orb].
  unfold is_valid_range. rewrite Ha, Hb. destruct a as [ra ca], b as [rb cb].
  rewrite bind_lift_inr.
  destruct ((ra <=? rb) && String.leb ca cb); cbn [negb].
  - rewrite Hin, bind_lift_inr. eexists. split; [reflexivity | right; reflexivity].
  - eexists. split; [reflexivity | left; reflexivity].
Qed.

Lemma execute_function_rejects_target_in_range_witness :
  cell_in_function_range "A2" ("A1", "A3") = inr true
  /\ exists e,
       execute_function Example.runtime 10 "A2" "Sum" ["A1"; "A3"] new_spreadsheet
       = (new_spreadsheet, inl (ValueError e))
       /\ (e = InvalidCellRange "A1" "A3" \/ e = TargetInFunctionRange "A2").
Proof.
  split; [reflexivity|].
  apply (execute_function_rejects_target_in_range Example.runtime 10 new_spreadsheet
           "A2" "Sum" "A1" "A3").
  reflexivity.
Defined.

(** Conversely, a function write that is accepted had its target outside
    the range: a function cell recorded by [execute_function] is never a
    member of its own range. *)
Lemma accepted_function_target_outside_range
  (R : Runtime) (fuel : nat) (s : Spreadsheet)
  (cell function_name start_cell end_cell : string) :
  snd (execute_function R fuel cell function_name [start_cell; end_cell] s) = inr tt ->
  cell_in_function_range cell (start_cell, end_cell) = inr false.
Proof.
  unfold execute_function, execute_function_with.
  destruct (match_cell_address cell); [|discriminate].
  destruct (_ || _); [discriminate|].
  destruct (is_valid_range start_cell end_cell) as [e|[|]];
    [rewrite bind_lift_inl; discriminate | | rewrite bind_lift_inr; discriminate].
  rewrite bind_lift_inr. cbn [negb].
  destruct (cell_in_function_range cell (start_cell, end_cell)) as [e|[|]];
    [rewrite bind_lift_inl; discriminate | rewrite bind_lift_inr; discriminate | reflexivity].
Qed.

(** ** Reading back what was written to the frame *)

Lemma list_find_alter_fst {A B} (P : A -> Prop) `{forall x, Decision (P x)}
  (g : A * B -> A * B) (i : nat) (l : list (A * B)) :
  (forall x, fst (g x) = fst x) ->
  fst <$> list_find (fun x => P (fst x)) (alter g i l)
  = fst <$> list_find (fun x => P (fst x)) l.
Proof.
  intros Hg. revert i. induction l as [|x l IH]; intros i; [reflexivity|].
  destruct i as [|i]; simpl.
  - rewrite Hg. destruct (decide (P (fst x))); reflexivity.
  - destruct (decide (P (fst x))); [reflexivity|].
    specialize (IH i). change (list_alter g i l) with (alter g i l).
    destruct (list_find _ (alter g i l)) as [[? ?]|], (list_find _ l) as [[? ?]|];
      simpl in *; congruence.
Qed.

Lemma column_position_Some (df : DataFrame) (c : string) (j : nat) :
  column_position df c = Some j -> df_columns df !! j = Some c.
Proof.
  unfold column_position. destruct (list_find _ _) as [[j' x]|] eqn:E; [|discriminate].
  intros [= <-]. apply list_find_Some in E as (Hj & -> & _). exact Hj.
Qed.

Lemma row_position_Some (df : DataFrame) (r : Z) (i : nat) :
  row_position df r = Some i -> exists row, df_rows df !! i = Some row /\ fst row = r.
Proof.
  unfold row_position. destruct (list_find _ _) as [[i' x]|] eqn:E; [|discriminate].
  intros [= <-]. apply list_find_Some in E as (Hi & Hx & _). eauto.
Qed.

Lemma df_at_get_set (df : DataFrame) (r : Z) (c : string) (v : value) :
  wf_frame df -> df_at_get (df_at_set df r c v) r c = Some v.
Proof.
  intros Hwf. unfold df_at_set.
  set (df1 := match column_position df c with
              | Some _ => df
              | None => df_add_column df c VNaN
              end).
  assert (H1 : wf_frame df1 /\ is_Some (column_position df1 c)).
  { unfold df1. destruct (column_position df c) as [j|] eqn:Hc; [eauto|]. split.
    - unfold wf_frame, df_add_column. simpl. apply Forall_map.
      eapply Forall_impl; [exact Hwf|]. intros row Hrow. simpl.
      rewrite !length_app, Hrow. reflexivity.
    - unfold column_position, df_add_column. simpl.
      destruct (list_find_elem_of (fun x => x = c) (df_columns df ++ [c]) c)
        as [[j x] ->]; [set_solver | reflexivity | eauto]. }
  destruct H1 as [Hwf1 [j Hj]].
  set (df2 := match row_position df1 r with
              | Some _ => df1
              | None => df_add_row df1 r VNaN
              end).
  assert (H2 : wf_frame df2 /\ column_position df2 c = Some j
               /\ is_Some (row_position df2 r)).
  { unfold df2. destruct (row_position df1 r) as [i|] eqn:Hr; [eauto|]. split; [|split].
    - unfold wf_frame, df_add_row. simpl. apply Forall_app. split; [exact Hwf1|].
      constructor; [|constructor]. simpl. apply length_replicate.
    - exact Hj.
    - unfold row_position, df_add_row. simpl.
      destruct (list_find_elem_of (fun x : Z * list value => fst x = r)
                  (df_rows df1 ++ [(r, replicate (length (df_columns df1)) VNaN)])
                  (r, replicate (length (df_columns df1)) VNaN))
        as [[i x] ->]; [set_solver | reflexivity | eauto]. }
  destruct H2 as (Hwf2 & Hj2 & [i Hi]).
  rewrite Hi, Hj2. unfold df_at_get.
  assert (Hrow : row_position
                   (mkDataFrame (df_columns df2)
                      (alter (fun row => (fst row, <[j:=v]> (snd row))) i (df_rows df2))) r
                 = Some i).
  { unfold row_position in *. cbn [df_rows].
    exact (eq_trans
             (list_find_alter_fst (fun x => x = r)
                (fun row : Z * list value => (fst row, <[j:=v]> (snd row)))
                i (df_rows df2) (fun _ => eq_refl)) Hi). }
  rewrite Hrow. unfold column_position in *. simpl. rewrite Hj2.
  destruct (row_position_Some df2 r i Hi) as (row & Hlook & _).
  rewrite list_lookup_alter_eq, Hlook. simpl.
  rewrite list_lookup_insert_eq; [reflexivity|].
  apply column_position_Some in Hj2. apply lookup_lt_Some in Hj2.
  unfold wf_frame in Hwf2. rewrite Forall_forall in Hwf2.
  rewrite (Hwf2 row); [exact Hj2|].
  apply list_elem_of_lookup. eauto.
Qed.

(** ** Every reference found in a formula is a cell address *)

Lemma string_forall_app (p : ascii -> bool) (a b : string) :
  string_forall p (a ++ b) = string_forall p a && string_forall p b.
Proof.
  induction a as [|c r IH]; rewrite ?append_nil, ?append_cons; simpl; [reflexivity|].
  rewrite IH, andb_assoc. reflexivity.
Qed.

Lemma app_nonempty (a b : string) : b <> EmptyString -> a ++ b <> EmptyString.
Proof.
  destruct a; rewrite ?append_nil, ?append_cons; [auto | discriminate].
Qed.

Lemma findall_refs_go_parse (m : scan_mode) (s : string) (ref : string) :
  scan_ok m -> ref ∈ findall_refs_go m s -> is_Some (match_cell_address ref).
Proof.
  revert m. induction s as [|c r IH]; intros m Hm Href.
  - destruct m as [|acc|acc]; simpl in Href; try (inversion Href; fail).
    apply list_elem_of_singleton in Href as ->.
    destruct Hm as (l & d & -> & Hl & Hln & Hd & Hdn).
    rewrite match_cell_address_label_digits by assumption. eauto.
  - assert (Hone : forall x : ascii, String x EmptyString <> EmptyString) by discriminate.
    destruct m as [|acc|acc]; simpl in Href.
    + destruct (Py.is_alpha c) eqn:Ec.
      * apply (IH (InLetters (String c EmptyString))); [|exact Href].
        simpl. rewrite Ec. auto.
      * apply (IH Idle); [exact I | exact Href].
    + destruct Hm as [Hacc Hne]. destruct (Py.is_alpha c) eqn:Ec.
      * apply (IH (InLetters (snoc_char acc c))); [|exact Href]. simpl. unfold snoc_char.
        rewrite string_forall_app, Hacc. simpl. rewrite Ec.
        split; [reflexivity | apply app_nonempty, Hone].
      * destruct (Py.is_digit c) eqn:Ed.
        -- apply (IH (InDigits (snoc_char acc c))); [|exact Href]. simpl.
           exists acc, (String c EmptyString). simpl. rewrite Ed. auto.
        -- apply (IH Idle); [exact I | exact Href].
    + destruct Hm as (l & d & -> & Hl & Hln & Hd & Hdn).
      destruct (Py.is_digit c) eqn:Ed.
      * apply (IH (InDigits (snoc_char (l ++ d) c))); [|exact Href]. simpl.
        exists l, (d ++ String c EmptyString). unfold snoc_char.
        rewrite string_app_assoc, string_forall_app, Hd. simpl. rewrite Ed.
        repeat split; auto. apply app_nonempty, Hone.
      * assert (Hhere : is_Some (match_cell_address (l ++ d)))
          by (rewrite match_cell_address_label_digits by assumption; eauto).
        destruct (Py.is_alpha c) eqn:Ec;
          apply elem_of_cons in Href as [->|Href]; try exact Hhere.
        -- apply (IH (InLetters (String c EmptyString))); [|exact Href].
           simpl. rewrite Ec. auto.
        -- apply (IH Idle); [exact I | exact Href].
Qed.

Lemma findall_refs_parse (formula ref : string) :
  ref ∈ findall_refs formula -> exists rc, parse_cell_address ref = inr rc.
Proof.
  intros H. destruct (findall_refs_go_parse Idle formula ref I H) as [[l d] Hm].
  unfold parse_cell_address. rewrite Hm. eauto.
Qed.

(** [resolve_cell_references] cannot raise, and it only fills the
    evaluator's table of names. *)
Lemma resolve_cell_references_state (formula : string) (s : Spreadsheet) :
  exists names,
    resolve_cell_references formula s = (with_names (fun _ => names) s, inr tt).
Proof.
  unfold resolve_cell_references.
  assert (H : forall refs, (forall ref, ref ∈ refs -> exists rc, parse_cell_address ref = inr rc) ->
            forall s0 : Spreadsheet, exists names,
              for_each refs (fun ref =>
                v <- get_cell_value ref ;;
                modify (with_names <[ref := or_zero v]>))%engine s0
              = (with_names (fun _ => names) s0, inr tt)).
  { induction refs as [|ref refs IH]; intros Hrefs s0; simpl.
    - exists (_evaluator_names s0). destruct s0; reflexivity.
    - destruct (Hrefs ref) as [rc Hrc]; [left|].
      unfold get_cell_value. rewrite Hrc.
      destruct (IH (fun x Hx => Hrefs x (list_elem_of_further _ _ _ Hx))
                  (with_names <[ref := or_zero
                     match df_at_get (_data s0) (fst rc) (snd rc) with
                     | Some v => v
                     | None => REF_ERROR
                     end]> s0)) as [names Hnames].
      exists names. etransitivity; [|exact Hnames]. reflexivity. }
  apply H. intros ref. apply findall_refs_parse.
Qed.

(** ** Writes that leave the sheet as it is *)

Lemma with_data_id (s : Spreadsheet) (f : DataFrame -> DataFrame) :
  f (_data s) = _data s -> with_data f s = s.
Proof. intros H. destruct s. unfold with_data. simpl in *. rewrite H. reflexivity. Qed.

Lemma expand_sheet_within (s : Spreadsheet) (cell : string) :
  within_sheet s cell -> expand_sheet_to_include_cell cell s = (s, inr tt).
Proof.
  intros (row & label & Hp & Hc & Hr & Hc5 & Hr5 & Hsort).
  unfold expand_sheet_to_include_cell. rewrite Hp, bind_lift_inr.
  fold (column_number label).
  replace ((500 <? column_number label) || (500 <? row)) with false by lia.
  rewrite bind_get.
  replace ((Z.of_nat (length (df_columns (_data s))) <? column_number label)
           || (Z.of_nat (length (df_rows (_data s))) <? row)) with false by lia.
  unfold when, bind, ret, modify. simpl.
  rewrite with_data_id by exact Hsort. reflexivity.
Qed.

Lemma substring_all (s : string) : substring 0 (String.length s) s = s.
Proof. induction s as [|c r IH]; simpl; [reflexivity | rewrite IH; reflexivity]. Qed.

Lemma formula_of_value (formula : string) :
  let value_ := String "=" formula in
  String.eqb value_ EmptyString = false
  /\ Py.startswith "=" value_ = true
  /\ substring 1 (String.length value_ - 1) value_ = formula.
Proof.
  simpl. split; [reflexivity|]. split.
  - unfold Py.startswith. simpl. destruct formula; reflexivity.
  - rewrite Nat.sub_0_r. apply substring_all.
Qed.

(** ** C2: rejection of a formula that would close a cycle *)




(** ** C5: [delete_cell] and the empty write *)

Lemma dict_mem_pop_same {V} (a : string) (d : list (string * V)) :
  Dict.mem a (Dict.pop a d) = false.
Proof.
  unfold Dict.mem, Dict.pop. induction d as [|[k v] d IH]; simpl; [reflexivity|].
  destruct (String.eqb a k) eqn:E; simpl; [exact IH|]. rewrite E. exact IH.
Qed.

Lemma dict_mem_pop {V} (a c : string) (d : list (string * V)) :
  Dict.mem a d = false -> Dict.mem a (Dict.pop c d) = false.
Proof.
  unfold Dict.mem, Dict.pop. induction d as [|[k v] d IH]; simpl; [reflexivity|].
  intros [Hk Hd]%orb_false_elim.
  destruct (String.eqb c k); simpl; [auto|]. rewrite Hk. auto.
Qed.

Lemma dict_mem_set_ne {V} (a c : string) (v : V) (d : list (string * V)) :
  c <> a -> Dict.mem a (Dict.set c v d) = Dict.mem a d.
Proof.
  intros Hne. unfold Dict.mem. induction d as [|[k w] d IH]; simpl.
  - rewrite orb_false_r. apply String.eqb_neq. congruence.
  - destruct (String.eqb_spec c k) as [->|Hck]; simpl.
    + replace (String.eqb a k) with false by (symmetry; apply String.eqb_neq; congruence).
      reflexivity.
    + rewrite IH. reflexivity.
Qed.

Section EmptyWrite.
Context (R : Runtime).

Lemma holds_nothing_track (a c d : string) :
  inv (holds_nothing a) (track_one_dependency c d).
Proof.
  unfold track_one_dependency.
  apply inv_bind; [apply inv_modify; intros s H; exact H|]. intros _.
  apply inv_bind; [apply inv_get|]. intros s.
  destruct (_dependencies s !! c) as [[l|st]|];
    [apply inv_raise | apply inv_modify; intros s' H; exact H
     | apply inv_modify; intros s' H; exact H].
Qed.

Lemma holds_nothing_recalculate_dependents (a : string) (fuel : nat) (c : string) :
  inv (holds_nothing a) (recalculate_dependents R fuel c).
Proof.
  apply (inv_recalculate_dependents R _ (fun c => c <> a) (fun c => c <> a)).
  - intros f s H. exact H.
  - intros f s H. exact H.
  - intros c' s [Hf Hd]. split; [|exact Hd]. simpl.
    destruct (decide (c' = a)) as [->|Hne];
      [apply lookup_delete_eq | rewrite lookup_delete_ne by exact Hne; exact Hf].
  - intros c' s [Hf Hd]. split; [exact Hf|]. simpl. apply dict_mem_pop, Hd.
  - intros c' s [_ Hd] Hc.
    assert (c' <> a) by (intros ->; congruence). auto.
  - intros c' fi s Hc [Hf Hd]. split; [exact Hf|]. simpl.
    rewrite dict_mem_set_ne by exact Hc. exact Hd.
  - intros c' d _. apply holds_nothing_track.
  - intros fuel' c' formula s Hc [Hf Hd] _. rewrite update_dependencies_state.
    split; [|exact Hd]. simpl. rewrite lookup_insert_ne by exact Hc. exact Hf.
Qed.

Lemma set_cell_value_direct_state (a : string) (row : Z) (col : string) (v : value)
  (s : Spreadsheet) :
  parse_cell_address a = inr (row, col) ->
  set_cell_value_direct a v s
  = (with_data (fun df => df_at_set df row col (integral_float_to_int v)) s, inr tt).
Proof.
  intros Hp. unfold set_cell_value_direct. rewrite Hp, bind_lift_inr. reflexivity.
Qed.

Lemma delete_cell_holds_nothing (fuel : nat) (a : string) (row : Z) (col : string)
  (s : Spreadsheet) :
  parse_cell_address a = inr (row, col) ->
  holds_nothing a (fst (delete_cell R fuel a s)).
Proof.
  intros Hp. unfold delete_cell, delete_cell_with.
  rewrite (bind_inr _ _ _ _ _ (set_cell_value_direct_state a row col VNone s Hp)).
  rewrite !bind_modify. apply holds_nothing_recalculate_dependents.
  split; simpl; [apply lookup_delete_eq | apply dict_mem_pop_same].
Qed.

Lemma recalculate_dependents_no_dependents (fuel : nat) (a : string) (s : Spreadsheet) :
  no_dependents s a -> recalculate_dependents R (S fuel) a s = (s, inr tt).
Proof.
  intros [Hr Hf]. simpl. rewrite bind_get, Hr.
  rewrite (bind_inr (ret tt) _ s s tt eq_refl), bind_get.
  induction Hf as [|[fc [fn rng]] l Hx Hl IH]; simpl; [reflexivity|].
  simpl in Hx. rewrite Hx.
  rewrite (bind_inr _ _ s s tt eq_refl). exact IH.
Qed.
End EmptyWrite.

(** C5, as stated, fails: on a sheet with the single cell [A1], both calls
    are accepted, and [A1] holds [None] after [delete_cell("A1")] but the
    empty string after [set_cell_value("A1", "")]. *)
Lemma empty_write_stores_empty_string :
  let s := fst (create_sheet 1 1 new_spreadsheet) in
  let d := delete_cell Example.runtime 10 "A1" s in
  let w := set_cell_value Example.runtime 10 "A1" EmptyString None s in
  within_sheet s "A1"
  /\ snd d = inr tt /\ snd w = inr tt
  /\ snd (get_cell_value "A1" (fst d)) = inr VNone
  /\ snd (get_cell_value "A1" (fst w)) = inr (VStr EmptyString)
  /\ fst d <> fst w.
Proof.
  split; [exists 1, "A"; repeat split; vm_compute; congruence|].
  split; [vm_compute; reflexivity|]. split; [vm_compute; reflexivity|].
  split; [vm_compute; reflexivity|]. split; [vm_compute; reflexivity|].
  intros H.
  assert (H' : snd (get_cell_value "A1" (fst (delete_cell Example.runtime 10 "A1"
                                                 (fst (create_sheet 1 1 new_spreadsheet)))))
               = inr (VStr EmptyString)) by (rewrite H; vm_compute; reflexivity).
  vm_compute in H'. discriminate.
Qed.

(** C5 (amended): for an address inside the sheet, [set_cell_value(address,
    "")] first does exactly what [delete_cell(address)] does; if that raises,
    both calls end in the same state with the same error; otherwise the empty
    write goes on to store the empty string in the cell (where [delete_cell]
    leaves [None]) and runs [recalculate_dependents] a second time.  In
    particular, when nothing depends on the address, the two calls succeed
    and their final states differ only by that extra store: the same formula
    store, function store, dependency and reverse-dependency maps. *)
Theorem empty_write_is_delete_then_store
  (R : Runtime) (fuel : nat) (s : Spreadsheet) (a : string) (row : Z) (col : string) :
  within_sheet s a ->
  parse_cell_address a = inr (row, col) ->
  py_float R EmptyString = None ->
  set_cell_value R fuel a EmptyString None s
  = match delete_cell R fuel a s with
    | (s1, inl e) => (s1, inl e)
    | (s1, inr _) =>
        (set_cell_value_direct a (VStr EmptyString) ;; recalculate_dependents R fuel a)%engine s1
    end
  /\ (no_dependents s a -> (0 < fuel)%nat ->
      let cleared :=
        with_data (fun df => df_at_set df row col VNone)
          (with_functions (Dict.pop a) (with_formulas (delete a) s)) in
      delete_cell R fuel a s = (cleared, inr tt)
      /\ set_cell_value R fuel a EmptyString None s
         = (with_data (fun df => df_at_set df row col (VStr EmptyString)) cleared, inr tt)).
Proof.
  intros Hin Hp Hfloat.
  assert (Hfirst : set_cell_value R fuel a EmptyString None s
    = match delete_cell R fuel a s with
      | (s1, inl e) => (s1, inl e)
      | (s1, inr _) =>
          (set_cell_value_direct a (VStr EmptyString) ;; recalculate_dependents R fuel a)%engine s1
      end).
  { pose proof (delete_cell_holds_nothing R fuel a row col s Hp) as Hnothing.
    unfold set_cell_value, set_cell_value_with.
    rewrite (bind_inr _ _ _ _ _ (expand_sheet_within s a Hin)).
    unfold when at 1. simpl String.eqb. cbv iota.
    fold (delete_cell R fuel a).
    destruct (delete_cell R fuel a s) as [s1 [e|[]]] eqn:Hdel.
    - erewrite bind_inl; [reflexivity | exact Hdel].
    - rewrite (bind_inr _ _ _ _ _ Hdel). simpl in Hnothing. destruct Hnothing as [Hf Hd].
      rewrite bind_get, Hf, Hd.
      replace (bool_decide (is_Some (@None string)) || false) with false
        by (symmetry; apply orb_false_intro;
            [apply bool_decide_eq_false; intros [? [=]] | reflexivity]).
      unfold when at 1. rewrite (bind_inr (ret tt) _ s1 s1 tt eq_refl).
      rewrite (bind_inr (ret tt) _ s1 s1 tt eq_refl).
      unfold Py.startswith. simpl String.prefix. cbv iota.
      rewrite Hfloat. reflexivity. }
  split; [exact Hfirst|].
  intros [Hr Hf] Hfuel cleared.
  destruct fuel as [|f]; [lia|].
  assert (Hq : forall v, no_dependents (with_data (fun df => df_at_set df row col v) cleared) a).
  { intros v. split; [exact Hr|]. simpl. unfold Dict.pop.
    rewrite Forall_forall in Hf. apply Forall_forall. intros x Hx.
    apply Hf. apply list_elem_of_In. apply list_elem_of_In in Hx.
    apply filter_In in Hx. apply Hx. }
  assert (Hdel : delete_cell R (S f) a s = (cleared, inr tt)).
  { unfold delete_cell, delete_cell_with.
    rewrite (bind_inr _ _ _ _ _ (set_cell_value_direct_state a row col VNone s Hp)).
    rewrite !bind_modify.
    apply (recalculate_dependents_no_dependents R f a cleared).
    split; [exact Hr|]. apply (Hq VNone). }
  split; [exact Hdel|].
  rewrite Hfirst, Hdel.
  rewrite (bind_inr _ _ _ _ _
             (set_cell_value_direct_state a row col (VStr EmptyString) cleared Hp)).
  apply recalculate_dependents_no_dependents, Hq.
Qed.

(** ** C6: what a failed formula evaluation leaves behind *)

(** C6, as stated, fails: a division by zero stores its sentinel and raises
    nothing, both in [calculate_formula] and in the write that called it. *)
Lemma division_by_zero_raises_nothing :
  let s := fst (run_operations Example.runtime 10
                  [CreateSheet 2 2; SetCellValue "A1" "0"] new_spreadsheet) in
  let c := calculate_formula Example.runtime "B1" "10/A1" s in
  let w := set_cell_value Example.runtime 10 "B1" "=10/A1" None s in
  simple_eval Example.runtime "10/A1" (_evaluator_names (fst c)) = EvalZeroDivision
  /\ snd c = inr tt /\ snd (get_cell_value "B1" (fst c)) = inr DIV0_ERROR
  /\ snd w = inr tt /\ snd (get_cell_value "B1" (fst w)) = inr DIV0_ERROR.
Proof. vm_compute. repeat split; reflexivity. Qed.

(** C6 (amended): whenever formula evaluation fails, the corresponding
    sentinel is written into the target cell, and a
    [FormulaEvaluationFailed] signal propagates to the caller for two of the
    four sentinel kinds, the value error and the general error.  A division
    by zero stores its sentinel and returns normally, and a reference outside
    the sheet reads as the reference-error value without any exception. *)
Theorem formula_failure_contract
  (R : Runtime) (s : Spreadsheet) (target formula : string) (row : Z) (col : string) :
  parse_cell_address target = inr (row, col) ->
  formula_contract R s target formula row col.
Proof.
  intros Hp. destruct (resolve_cell_references_state formula s) as [names Hres].
  exists names. cbv zeta. split; [exact Hres|]. split; [|split].
  - unfold calculate_formula. rewrite (bind_inr _ _ _ _ _ Hres), bind_get.
    change (_evaluator_names (with_names (fun _ => names) s)) with names.
    destruct (simple_eval R formula names) as [v| |msg].
    + apply set_cell_value_direct_state, Hp.
    + apply (set_cell_value_direct_state target row col DIV0_ERROR), Hp.
    + erewrite bind_inr; [reflexivity|].
      match goal with
      | |- set_cell_value_direct _ ?v _ = _ =>
          rewrite (set_cell_value_direct_state target row col v _ Hp)
      end.
      destruct (_ || _); reflexivity.
  - intros Hwf v. unfold get_cell_value. rewrite Hp, bind_lift_inr, bind_get.
    cbn [_data with_data with_names fst snd]. rewrite df_at_get_set by exact Hwf.
    reflexivity.
  - intros ref r c Href Hget. unfold get_cell_value.
    rewrite Href, bind_lift_inr, bind_get. cbn [fst snd]. rewrite Hget. reflexivity.
Qed.

Lemma formula_failure_contract_witness :
  let s := fst (run_operations Example.runtime 10
                  [CreateSheet 2 2; SetCellValue "A1" "Hello"] new_spreadsheet) in
  parse_cell_address "B1" = inr (1, "B")
  /\ formula_contract Example.runtime s "B1" "10-A1" 1 "B".
Proof.
  split; [reflexivity|].
  apply (formula_failure_contract Example.runtime). reflexivity.
Defined.

(** The three kinds of failure on the example run time: the first is
    silent, the other two raise. *)
Example failure_kinds :
  let s := fst (run_operations Example.runtime 10
                  [CreateSheet 2 2; SetCellValue "A1" "0"; SetCellValue "A2" "Hello"]
                  new_spreadsheet) in
  let run formula := set_cell_value Example.runtime 10 "B1" formula None s in
  snd (run "=10/A1") = inr tt
  /\ snd (get_cell_value "B1" (fst (run "=10/A1"))) = inr DIV0_ERROR
  /\ snd (run "=10-A2")
     = inl (FormulaEvaluationFailed "10-A2" "unsupported operand type(s)")
  /\ snd (get_cell_value "B1" (fst (run "=10-A2"))) = inr VALUE_ERROR
  /\ snd (run "=A2+1")
     = inl (FormulaEvaluationFailed "A2+1" "can only concatenate str (not int) to str")
  /\ snd (get_cell_value "B1" (fst (run "=A2+1"))) = inr GENERAL_ERROR
  /\ snd (run "=C9") = inr tt
  /\ snd (get_cell_value "B1" (fst (run "=C9"))) = inr REF_ERROR.
Proof. vm_compute. repeat split; reflexivity. Qed.

(** ** C4: deleting a cell that a formula reads *)

(** C4, as stated, fails: after the delete, [A2] holds the number 0, which
    is not the reference-error value. *)
Lemma deleted_referent_reads_as_zero :
  let s := fst (run_operations Example.runtime 10
                  [CreateSheet 3 1; SetCellValue "A1" "10"; SetCellValue "A2" "=A1*2"]
                  new_spreadsheet) in
  let d := delete_cell Example.runtime 10 "A1" s in
  snd d = inr tt
  /\ snd (get_cell_value "A2" (fst d)) = inr (VInt 0)
  /\ VInt 0 <> REF_ERROR.
Proof. split; [|split]; [vm_compute; reflexivity | vm_compute; reflexivity | discriminate]. Qed.

(** C4 (amended): with [A1 = 10] and [A2 = "=A1*2"] (so [A2] shows 20),
    after [delete_cell("A1")] the cell [A1] holds [None], the formula of [A2]
    is kept and recomputed with the empty referent read as 0, so [A2] holds
    0: neither the stale value 20 nor a reference-error value. *)
Theorem delete_cascades_with_zero :
  let s := fst (run_operations Example.runtime 10
                  [CreateSheet 3 1; SetCellValue "A1" "10"; SetCellValue "A2" "=A1*2"]
                  new_spreadsheet) in
  let d := delete_cell Example.runtime 10 "A1" s in
  snd (get_cell_value "A2" s) = inr (VInt 20)
  /\ snd d = inr tt
  /\ snd (get_cell_value "A1" (fst d)) = inr VNone
  /\ _formulas (fst d) !! "A2" = Some "A1*2"
  /\ snd (get_cell_value "A2" (fst d)) = inr (VInt 0).
Proof. vm_compute. repeat split; reflexivity. Qed.

(** A witness of C5: a literal cell that nothing depends on. *)
Lemma empty_write_is_delete_then_store_witness :
  let s := fst (run_operations Example.runtime 10
                  [CreateSheet 2 2; SetCellValue "A1" "5"] new_spreadsheet) in
  let cleared :=
    with_data (fun df => df_at_set df 1 "A" VNone)
      (with_functions (Dict.pop "A1") (with_formulas (delete "A1") s)) in
  within_sheet s "A1"
  /\ parse_cell_address "A1" = inr (1, "A")
  /\ py_float Example.runtime EmptyString = None
  /\ no_dependents s "A1"
  /\ delete_cell Example.runtime 10 "A1" s = (cleared, inr tt)
  /\ set_cell_value Example.runtime 10 "A1" EmptyString None s
     = (with_data (fun df => df_at_set df 1 "A" (VStr EmptyString)) cleared, inr tt).
Proof.
  set (s := fst (run_operations Example.runtime 10
                   [CreateSheet 2 2; SetCellValue "A1" "5"] new_spreadsheet)).
  assert (H1 : within_sheet s "A1").
  { exists 1, "A". repeat split; vm_compute; congruence. }
  assert (H2 : no_dependents s "A1").
  { split; [vm_compute; reflexivity|]. vm_compute. constructor. }
  split; [exact H1|]. split; [reflexivity|]. split; [reflexivity|]. split; [exact H2|].
  apply (proj2 (empty_write_is_delete_then_store Example.runtime 10 s "A1" 1 "A"
                  H1 eq_refl eq_refl) H2).
  lia.
Defined.

(** ** C7: the bounded history *)

Section HistoryFacts.
Import History.

Lemma created_from_tail (a : nat) (f : file) (l : list file) :
  created_from a (f :: l) -> created_from (S a) l.
Proof.
  intros H i g Hg. destruct (H (S i) g Hg) as [Hp Hm].
  replace (S a + i)%nat with (a + S i)%nat by lia. auto.
Qed.

Lemma created_from_head (a : nat) (f : file) (l : list file) :
  created_from a (f :: l) -> path f = StateFile a /\ mtime f = 2 * Z.of_nat a + 1.
Proof.
  intros H. destruct (H 0%nat f eq_refl) as [Hp Hm].
  rewrite Nat.add_0_r in Hp, Hm. auto.
Qed.

Lemma glob_created (a : nat) (l : list file) :
  created_from a l -> glob_state_files l = l.
Proof.
  revert a. induction l as [|f l IH]; intros a H; [reflexivity|].
  unfold glob_state_files in *. simpl. unfold is_state_file at 1.
  destruct (created_from_head _ _ _ H) as [-> _].
  rewrite (IH (S a)) by (eapply created_from_tail, H). reflexivity.
Qed.

Lemma sort_created (a : nat) (l : list file) :
  created_from a l -> sort_by_mtime l = l.
Proof.
  revert a. induction l as [|f l IH]; intros a H; [reflexivity|].
  unfold sort_by_mtime in *. simpl.
  rewrite (IH (S a)) by (eapply created_from_tail, H).
  destruct l as [|g l]; [reflexivity|]. simpl.
  destruct (created_from_head _ _ _ H) as [_ Hf].
  destruct (created_from_head _ _ _ (created_from_tail _ _ _ H)) as [_ Hg].
  replace (mtime f <=? mtime g) with true by lia. reflexivity.
Qed.

Lemma os_remove_created (a : nat) (f : file) (l : list file) :
  created_from a (f :: l) -> os_remove (path f) (f :: l) = l.
Proof.
  intros H. unfold os_remove. simpl.
  rewrite bool_decide_eq_true_2 by reflexivity. simpl.
  destruct (created_from_head _ _ _ H) as [Hf _]. rewrite Hf.
  pose proof (created_from_tail _ _ _ H) as Ht. clear H Hf.
  assert (Hgen : forall b l, (a < b)%nat -> created_from b l ->
            List.filter (fun g => negb (bool_decide (path g = StateFile a))) l = l).
  { clear. intros b l. revert b. induction l as [|g l IH]; intros b Hab H; [reflexivity|].
    simpl. destruct (created_from_head _ _ _ H) as [Hg _]. rewrite Hg.
    rewrite bool_decide_eq_false_2 by (intros [=]; lia). simpl.
    rewrite (IH (S b)); [reflexivity | lia | eapply created_from_tail, H]. }
  apply (Hgen (S a)); [lia | exact Ht].
Qed.

Lemma evict_created (m a : nat) (l : list file) :
  (1 <= m)%nat -> created_from a l ->
  evict_oldest (Z.of_nat m) l l = inr (drop (S (length l) - m) l).
Proof.
  intros Hm. revert a. induction l as [|f l IH]; intros a H.
  - cbn [evict_oldest length]. destruct (Z.of_nat m <=? Z.of_nat 0) eqn:E; [apply Z.leb_le in E; lia|].
    rewrite drop_nil. reflexivity.
  - cbn [evict_oldest].
    destruct (Z.of_nat m <=? Z.of_nat (length (f :: l))) eqn:E.
    + rewrite (os_remove_created a) by exact H.
      rewrite (IH (S a)) by (eapply created_from_tail, H).
      apply Z.leb_le in E. simpl length in *.
      replace (S (S (length l)) - m)%nat with (S (S (length l) - m)) by lia.
      reflexivity.
    + apply Z.leb_gt in E. simpl length in *.
      replace (S (S (length l)) - m)%nat with 0%nat by lia. reflexivity.
Qed.

Lemma created_history_after (m : nat) (saved : list Spreadsheet) :
  created_from (length saved - Nat.min (length saved) m)
               (history_dir (history_after m saved)).
Proof.
  intros i f. simpl. rewrite lookup_drop, list_lookup_imap.
  destruct (saved !! _) as [sp|]; [|discriminate].
  intros [= <-]. simpl. auto.
Qed.

Lemma length_history_after (m : nat) (saved : list Spreadsheet) :
  length (history_dir (history_after m saved)) = Nat.min (length saved) m.
Proof. simpl. rewrite length_drop, length_imap. lia. Qed.

Lemma enforce_history_after (m : nat) (saved : list Spreadsheet) :
  (1 <= m)%nat ->
  enforce_max_history_limit (history_after m saved)
  = (with_dir (drop (S (Nat.min (length saved) m) - m)
                 (history_dir (history_after m saved)))
       (history_after m saved), inr tt).
Proof.
  intros Hm. unfold enforce_max_history_limit.
  pose proof (created_history_after m saved) as Hc.
  rewrite (glob_created _ _ Hc), (sort_created _ _ Hc).
  change (max_history (history_after m saved)) with (Z.of_nat m).
  rewrite (evict_created m _ _ Hm Hc), length_history_after. reflexivity.
Qed.

Lemma save_history_after (m : nat) (saved : list Spreadsheet) (sp : Spreadsheet) :
  (1 <= m)%nat ->
  save_current_state sp (history_after m saved)
  = (history_after m (saved ++ [sp]), inr tt).
Proof.
  intros Hm. unfold save_current_state. rewrite enforce_history_after by exact Hm.
  unfold history_after, with_dir.
  cbn [history_dir max_history states clock next_temp].
  rewrite length_app. simpl length.
  f_equal. f_equal; [ | | lia | lia].
  - rewrite drop_drop, imap_app. cbn [imap]. unfold compose.
    rewrite Nat.add_0_r.
    rewrite drop_app_le by (rewrite length_imap; lia).
    unfold saved_file at 2. f_equal. f_equal. lia.
  - rewrite seq_app, map_app. reflexivity.
Qed.

Lemma save_all_history_after (m : nat) (saved sheets : list Spreadsheet) :
  (1 <= m)%nat ->
  save_all sheets (history_after m saved) = (history_after m (saved ++ sheets), inr tt).
Proof.
  intros Hm. revert saved. induction sheets as [|sp sheets IH]; intros saved; simpl.
  - rewrite app_nil_r. reflexivity.
  - rewrite save_history_after by exact Hm. rewrite IH, <- app_assoc. reflexivity.
Qed.
End HistoryFacts.

Section HistoryBound.
Import History.

Lemma created_from_drop (a k : nat) (l : list file) :
  created_from a l -> created_from (a + k) (drop k l).
Proof.
  intros H i f. rewrite lookup_drop. intros Hf. destruct (H _ _ Hf) as [Hp Hm].
  replace (a + k + i)%nat with (a + (k + i))%nat by lia. auto.
Qed.

Lemma created_from_paths (a : nat) (l : list file) :
  created_from a l -> map path l = map StateFile (seq a (length l)).
Proof.
  revert a. induction l as [|f l IH]; intros a H; [reflexivity|].
  simpl. destruct (created_from_head _ _ _ H) as [-> _].
  rewrite (IH (S a)) by (eapply created_from_tail, H). reflexivity.
Qed.

Lemma count_created (a : nat) (h : SpreadsheetHistory) :
  created_from a (history_dir h) ->
  state_file_count h = Z.of_nat (length (history_dir h)).
Proof. intros H. unfold state_file_count. rewrite (glob_created _ _ H). reflexivity. Qed.
End HistoryBound.

(** C7, as stated, fails: with the default limit of 20, after 25 saves into
    an empty directory the directory holds 20 state files, not 19. *)
Lemma history_holds_max_history_files :
  let r := History.save_all (replicate 25 new_spreadsheet)
             (History.new_history History.DEFAULT_MAX_HISTORY) in
  snd r = inr tt
  /\ History.state_file_count (fst r) = 20
  /\ History.state_file_count (fst r) <> History.DEFAULT_MAX_HISTORY - 1.
Proof.
  split; [vm_compute; reflexivity|].
  assert (H : History.state_file_count
                (fst (History.save_all (replicate 25 new_spreadsheet)
                        (History.new_history History.DEFAULT_MAX_HISTORY))) = 20)
    by (vm_compute; reflexivity).
  split; [exact H|]. rewrite H. discriminate.
Qed.

(** C7 (amended): starting from an empty history directory with limit
    [max_history >= 1] (20 by default), after [n] consecutive
    [save_current_state] calls the directory holds [min(n, max_history)]
    state files, so the count stabilizes at [max_history] from the
    [max_history]-th save on (in particular after [max_history + 5] saves);
    the files kept are the most recent ones, the oldest being evicted first.
    The count [max_history - 1] is what a further call of
    [enforce_max_history_limit] leaves. *)
Theorem bounded_history (m : nat) (sheets : list Spreadsheet) :
  (1 <= m)%nat -> history_bounded m sheets.
Proof.
  intros Hm. unfold history_bounded. cbv zeta.
  change (History.new_history (Z.of_nat m)) with (history_after m []).
  rewrite save_all_history_after by exact Hm. rewrite app_nil_l.
  cbn [fst snd].
  pose proof (created_history_after m sheets) as Hc.
  pose proof (length_history_after m sheets) as Hlen.
  split; [reflexivity|]. split; [|split].
  - rewrite (count_created _ _ Hc), Hlen. reflexivity.
  - rewrite (created_from_paths _ _ Hc), Hlen. reflexivity.
  - intros Hn. split; [rewrite (count_created _ _ Hc), Hlen; f_equal; lia|].
    rewrite enforce_history_after by exact Hm. cbn [fst snd].
    replace (S (Nat.min (length sheets) m) - m)%nat with 1%nat by lia.
    pose proof (created_from_drop _ 1 _ Hc) as Hc1.
    assert (Hlen1 : length (drop 1 (History.history_dir (history_after m sheets)))
                    = (m - 1)%nat) by (rewrite length_drop, Hlen; lia).
    split; [reflexivity|]. split.
    + rewrite (count_created _ (History.with_dir _ _) Hc1).
      cbn [History.with_dir History.history_dir]. rewrite Hlen1. lia.
    + cbn [History.with_dir History.history_dir].
      rewrite (created_from_paths _ _ Hc1), Hlen1. f_equal. f_equal. lia.
Qed.

Lemma bounded_history_witness :
  (1 <= 20)%nat /\ history_bounded 20 (replicate 25 new_spreadsheet).
Proof.
  split; [lia|]. apply (bounded_history 20 (replicate 25 new_spreadsheet)). lia.
Defined.

(** * Further properties of the code *)

(** ** Column labels and addresses *)

Lemma column_label_loop_fuel (f1 f2 : nat) (col : Z) (acc : string) :
  col < Z.of_nat f1 -> (f1 <= f2)%nat ->
  column_label_loop f1 col acc = column_label_loop f2 col acc.
Proof.
  revert f2 col acc. induction f1 as [|f1 IH]; intros f2 col acc Hcol Hle.
  - destruct f2 as [|f2]; [reflexivity|]. simpl.
    replace (0 <=? col) with false by lia. reflexivity.
  - destruct f2 as [|f2]; [lia|]. simpl.
    destruct (0 <=? col) eqn:E; [|reflexivity].
    apply Z.leb_le in E. apply IH; [|lia].
    unfold ALPHABET_LENGTH. assert (col / 26 <= col) by (apply Z.div_le_upper_bound; lia).
    lia.
Qed.

Lemma generate_label_loop_column (fuel : nat) (i : Z) (acc : string) :
  generate_label_loop fuel i acc = column_label_loop fuel (i - 1) acc.
Proof.
  revert i acc. induction fuel as [|f IH]; intros i acc; simpl; [reflexivity|].
  destruct (0 <? i) eqn:E.
  - replace (0 <=? i - 1) with true by lia. apply IH.
  - replace (0 <=? i - 1) with false by lia. reflexivity.
Qed.

Lemma generate_column_labels_lookup (n i : Z) :
  0 <= i < n ->
  generate_column_labels n !! Z.to_nat i = Some (index_to_column_letter i).
Proof.
  intros Hi. unfold generate_column_labels, Py.range.
  rewrite list_lookup_fmap, lookup_seqZ_lt by lia.
  cbn [fmap option_fmap option_map]. f_equal.
  rewrite generate_label_loop_column. unfold index_to_column_letter.
  replace (1 + Z.of_nat (Z.to_nat i) - 1) with i by lia.
  symmetry. apply column_label_loop_fuel; lia.
Qed.

(** X1: the two label generators agree.  The label that
    [generate_column_labels] gives to the [i]-th column (counting from 0) is
    [index_to_column_letter(i)], its [column_letter_to_index] is [i], and
    there are exactly [n] labels. *)
Theorem generate_column_labels_positions (n i : Z) :
  0 <= i < n ->
  length (generate_column_labels n) = Z.to_nat n
  /\ generate_column_labels n !! Z.to_nat i = Some (index_to_column_letter i)
  /\ column_letter_to_index (index_to_column_letter i) = i.
Proof.
  intros Hi. split; [|split].
  - unfold generate_column_labels, Py.range.
    rewrite length_map, length_seqZ. f_equal. lia.
  - apply generate_column_labels_lookup, Hi.
  - apply index_to_column_letter_spec. lia.
Qed.

Lemma generate_column_labels_positions_witness :
  0 <= 27 < 30
  /\ length (generate_column_labels 30) = Z.to_nat 30
  /\ generate_column_labels 30 !! Z.to_nat 27 = Some (index_to_column_letter 27)
  /\ column_letter_to_index (index_to_column_letter 27) = 27.
Proof. split; [lia|]. apply (generate_column_labels_positions 30 27). lia. Defined.

Lemma label_step_nonneg (l : list ascii) (init : Z) :
  0 <= init -> Forall (fun c => Py.is_alpha c = true) l ->
  0 <= fold_left label_step l init.
Proof.
  revert init. induction l as [|c l IH]; intros init Hinit Hl; simpl; [exact Hinit|].
  inversion Hl as [|? ? Hc Hl']; subst. apply IH; [|exact Hl'].
  unfold label_step, ALPHABET_LENGTH. change (Py.ord "A") with 65.
  assert (65 <= Py.ord (Py.upper_char c)).
  { unfold Py.upper_char, Py.is_alpha in *.
    destruct ((97 <=? Py.ord c) && (Py.ord c <=? 122)) eqn:E.
    - rewrite ord_chr by lia. lia.
    - lia. }
  lia.
Qed.

Lemma upper_char_letter (c : ascii) :
  Py.is_alpha c = true ->
  65 <= Py.ord (Py.upper_char c) <= 90
  /\ Py.chr (Py.ord (Py.upper_char c)) = Py.upper_char c.
Proof.
  intros Hc. split.
  - unfold Py.upper_char, Py.is_alpha in *.
    destruct ((97 <=? Py.ord c) && (Py.ord c <=? 122)) eqn:E.
    + rewrite ord_chr by lia. lia.
    + lia.
  - unfold Py.chr, Py.ord. rewrite Nat2Z.id. apply ascii_nat_embedding.
Qed.

Lemma column_label_loop_of_letters (l : list ascii) :
  Forall (fun c => Py.is_alpha c = true) l ->
  forall (fuel : nat) (acc : string),
    fold_left label_step l 0 - 1 < Z.of_nat fuel ->
    column_label_loop fuel (fold_left label_step l 0 - 1) acc
    = string_of_list_ascii (map Py.upper_char l) ++ acc.
Proof.
  induction l as [|c l IH] using rev_ind; intros Hl fuel acc Hfuel.
  - simpl. destruct fuel; reflexivity.
  - apply Forall_app in Hl as [Hl Hc]. inversion Hc as [|? ? Hc' _]; subst.
    rewrite fold_left_app in *. simpl in *.
    pose proof (label_step_nonneg l 0 ltac:(lia) Hl) as Hpos.
    destruct (upper_char_letter c Hc') as [Hrange Hchr].
    destruct fuel as [|f]; [unfold label_step, ALPHABET_LENGTH in *;
                            change (Py.ord "A") with 65 in *; lia|].
    set (q := fold_left label_step l 0) in *.
    assert (Hval : label_step q c - 1 = q * 26 + (Py.ord (Py.upper_char c) - 65)).
    { unfold label_step, ALPHABET_LENGTH. change (Py.ord "A") with 65. lia. }
    simpl. rewrite Hval.
    replace (0 <=? q * 26 + (Py.ord (Py.upper_char c) - 65)) with true by lia.
    unfold ALPHABET_LENGTH, ASCII_A.
    replace ((q * 26 + (Py.ord (Py.upper_char c) - 65)) mod 26)
      with (Py.ord (Py.upper_char c) - 65)
      by (rewrite Z.add_comm, Z.mod_add by lia; symmetry; apply Z.mod_small; lia).
    replace ((q * 26 + (Py.ord (Py.upper_char c) - 65)) / 26) with q
      by (rewrite Z.add_comm, Z.div_add by lia;
          rewrite Z.div_small by lia; reflexivity).
    replace (65 + (Py.ord (Py.upper_char c) - 65)) with (Py.ord (Py.upper_char c)) by lia.
    rewrite Hchr, IH; [|exact Hl|rewrite Hval in Hfuel; lia].
    rewrite map_app. simpl.
    clear. induction (map Py.upper_char l) as [|x xs IHx]; simpl;
      rewrite ?append_nil, ?append_cons; [reflexivity | rewrite IHx; reflexivity].
Qed.

Lemma upper_as_list (s : string) :
  Py.upper s = string_of_list_ascii (map Py.upper_char (list_ascii_of_string s)).
Proof. induction s as [|c r IH]; simpl; congruence. Qed.

Lemma string_forall_Forall (p : ascii -> bool) (s : string) :
  string_forall p s = true -> Forall (fun c => p c = true) (list_ascii_of_string s).
Proof.
  induction s as [|c r IH]; simpl; [constructor|].
  intros [Hc Hr]%andb_true_iff. constructor; auto.
Qed.

(** X2: the column encoding is a bijection, read in the other direction:
    for every non-empty label of letters, [index_to_column_letter] applied
    to its [column_letter_to_index] gives the label back in upper case. *)
Theorem column_letters_of_index_of_letters (label : string) :
  string_forall Py.is_alpha label = true ->
  index_to_column_letter (column_letter_to_index label) = Py.upper label.
Proof.
  intros Hl. unfold index_to_column_letter, column_letter_to_index. fold label_step.
  pose proof (string_forall_Forall _ _ Hl) as HF.
  pose proof (label_step_nonneg _ 0 ltac:(lia) HF) as Hpos.
  rewrite column_label_loop_of_letters by (try exact HF; lia).
  rewrite string_app_empty_r. symmetry. apply upper_as_list.
Qed.

Lemma column_letters_of_index_of_letters_witness :
  string_forall Py.is_alpha "aZq" = true
  /\ index_to_column_letter (column_letter_to_index "aZq") = Py.upper "aZq".
Proof. split; [reflexivity|]. apply column_letters_of_index_of_letters. reflexivity. Defined.

Lemma span_spec (p : ascii -> bool) (s a b : string) :
  Py.span p s = (a, b) -> s = a ++ b /\ string_forall p a = true.
Proof.
  revert a b. induction s as [|c r IH]; intros a b; simpl.
  - intros [= <- <-]. split; reflexivity.
  - destruct (p c) eqn:Ec.
    + destruct (Py.span p r) as [a' b'] eqn:Er. intros [= <- <-].
      destruct (IH _ _ eq_refl) as [-> Ha]. rewrite append_cons. simpl.
      rewrite Ec, Ha. split; reflexivity.
    + intros [= <- <-]. split; reflexivity.
Qed.

Lemma int_of_digits_nonneg (s : string) :
  string_forall Py.is_digit s = true -> 0 <= Py.int_of_digits s.
Proof.
  unfold Py.int_of_digits.
  assert (H : forall init, 0 <= init -> string_forall Py.is_digit s = true ->
                0 <= fold_left (fun acc c => acc * 10 + (Py.ord c - 48))
                       (list_ascii_of_string s) init).
  { induction s as [|c r IH]; intros i Hi; simpl; [auto|].
    intros [Hc Hr]%andb_true_iff. apply IH; [|exact Hr].
    unfold Py.is_digit in Hc. lia. }
  intros Hs. apply H; [lia | exact Hs].
Qed.

Lemma upper_char_is_upper (c : ascii) :
  Py.is_alpha c = true -> is_upper_letter (Py.upper_char c) = true.
Proof. intros Hc. unfold is_upper_letter. destruct (upper_char_letter c Hc). lia. Qed.

Lemma upper_all_upper (s : string) :
  string_forall Py.is_alpha s = true -> string_forall is_upper_letter (Py.upper s) = true.
Proof.
  induction s as [|c r IH]; simpl; [reflexivity|].
  intros [Hc Hr]%andb_true_iff. rewrite upper_char_is_upper, IH by assumption. reflexivity.
Qed.

Lemma upper_nonempty (s : string) : s <> EmptyString -> Py.upper s <> EmptyString.
Proof. destruct s; [congruence | discriminate]. Qed.

Lemma parse_label_row (label : string) (row : Z) :
  string_forall is_upper_letter label = true -> label <> EmptyString -> 0 <= row ->
  parse_cell_address (label ++ Py.str_of_int row) = inr (row, label).
Proof.
  intros Hup Hne Hrow.
  destruct (str_of_int_spec row Hrow) as (Hint & Hdig & Hdne).
  unfold parse_cell_address.
  rewrite match_cell_address_label_digits; try assumption.
  - rewrite Hint, upper_uppercase by assumption. reflexivity.
  - eapply string_forall_impl; [apply upper_letter_alpha | exact Hup].
Qed.

Lemma parse_cell_address_parts (cell : string) (row : Z) (label : string) :
  parse_cell_address cell = inr (row, label) ->
  0 <= row /\ string_forall is_upper_letter label = true /\ label <> EmptyString.
Proof.
  unfold parse_cell_address, match_cell_address.
  destruct (Py.span Py.is_alpha cell) as [letters rest] eqn:E1.
  destruct (Py.span Py.is_digit rest) as [digits tail] eqn:E2.
  destruct (negb (String.eqb letters EmptyString)) eqn:Hl; [|discriminate].
  destruct (negb (String.eqb digits EmptyString)) eqn:Hd; [|discriminate].
  destruct (_ || _); [|discriminate]. simpl. intros [= <- <-].
  destruct (span_spec _ _ _ _ E1) as [_ Hletters].
  destruct (span_spec _ _ _ _ E2) as [_ Hdigits].
  assert (Hne : letters <> EmptyString) by (intros ->; discriminate).
  pose proof (int_of_digits_nonneg digits Hdigits) as Hrow.
  pose proof (upper_all_upper letters Hletters) as Hup.
  pose proof (upper_nonempty letters Hne) as Hune.
  auto.
Qed.

(** X3: what [parse_cell_address] returns is canonical.  Whenever an
    address is accepted, the row is not negative, the label is a non-empty
    string of upper-case letters, and writing the label followed by the row
    number gives an address that parses to the same pair. *)
Theorem parse_cell_address_canonical (cell : string) (row : Z) (label : string) :
  parse_cell_address cell = inr (row, label) ->
  0 <= row
  /\ string_forall is_upper_letter label = true /\ label <> EmptyString
  /\ parse_cell_address (label ++ Py.str_of_int row) = inr (row, label).
Proof.
  intros H. destruct (parse_cell_address_parts cell row label H) as (Hrow & Hup & Hne).
  repeat (split; [assumption|]).
  apply parse_label_row; assumption.
Qed.

Lemma parse_cell_address_canonical_witness :
  parse_cell_address "ab012" = inr (12, "AB")
  /\ 0 <= 12
  /\ string_forall is_upper_letter "AB" = true /\ "AB" <> EmptyString
  /\ parse_cell_address ("AB" ++ Py.str_of_int 12) = inr (12, "AB").
Proof.
  split; [reflexivity|]. apply (parse_cell_address_canonical "ab012"). reflexivity.
Defined.

(** X4: the address that [enter_data] builds for a row number and a column
    index ([index_to_column_letter] followed by the row) is the address
    that [track_function_dependencies] builds for them with
    [convert_indices_to_cell_address(row - 1, col)], and it parses back to
    that row and to the label of that column. *)
Theorem cell_address_builders_agree (row col : Z) :
  0 <= row -> 0 <= col ->
  let cell_address := index_to_column_letter col ++ Py.str_of_int row in
  convert_indices_to_cell_address (row - 1) col = cell_address
  /\ parse_cell_address cell_address = inr (row, index_to_column_letter col)
  /\ column_letter_to_index (index_to_column_letter col) = col.
Proof.
  intros Hrow Hcol. cbv zeta.
  destruct (index_to_column_letter_spec col Hcol) as (Hidx & Hup & Hne).
  split; [|split; [|exact Hidx]].
  - unfold convert_indices_to_cell_address. fold (index_to_column_letter col).
    replace (row - 1 + 1) with row by lia. reflexivity.
  - apply parse_label_row; assumption.
Qed.

Lemma cell_address_builders_agree_witness :
  0 <= 500 /\ 0 <= 499
  /\ convert_indices_to_cell_address (500 - 1) 499
     = index_to_column_letter 499 ++ Py.str_of_int 500
  /\ parse_cell_address (index_to_column_letter 499 ++ Py.str_of_int 500)
     = inr (500, index_to_column_letter 499)
  /\ column_letter_to_index (index_to_column_letter 499) = 499.
Proof.
  split; [lia|]. split; [lia|]. apply (cell_address_builders_agree 500 499); lia.
Defined.

(** ** Resolving references *)

Lemma get_cell_value_run (ref : string) (r : Z) (c : string) (s : Spreadsheet) :
  parse_cell_address ref = inr (r, c) ->
  get_cell_value ref s
  = (s, inr (match df_at_get (_data s) r c with Some v => v | None => REF_ERROR end)).
Proof. intros Hp. unfold get_cell_value. rewrite Hp. reflexivity. Qed.

Lemma get_cell_value_names (ref : string) (s : Spreadsheet)
  (f : gmap string value -> gmap string value) (v : value) :
  get_cell_value ref s = (s, inr v) ->
  get_cell_value ref (with_names f s) = (with_names f s, inr v).
Proof.
  unfold get_cell_value. destruct (parse_cell_address ref) as [e|rc]; [discriminate|].
  rewrite !bind_lift_inr, !bind_get. unfold ret. simpl. intros [= <-]. reflexivity.
Qed.

Lemma resolve_loop_spec (refs : list string) :
  (forall ref, ref ∈ refs -> exists rc, parse_cell_address ref = inr rc) ->
  forall s0 : Spreadsheet, exists names,
    for_each refs (fun ref =>
      v <- get_cell_value ref ;;
      modify (with_names <[ref := or_zero v]>))%engine s0
    = (with_names (fun _ => names) s0, inr tt)
    /\ (forall ref, ref ∈ refs ->
          exists v, get_cell_value ref s0 = (s0, inr v) /\ names !! ref = Some (or_zero v))
    /\ (forall k, k ∉ refs -> names !! k = _evaluator_names s0 !! k).
Proof.
  induction refs as [|ref refs IH]; intros Hrefs s0.
  - exists (_evaluator_names s0). split; [destruct s0; reflexivity|].
    split; [intros ref Href; inversion Href | reflexivity].
  - destruct (Hrefs ref) as [[r c] Hrc]; [left|].
    pose proof (get_cell_value_run ref r c s0 Hrc) as Hget.
    set (v := match df_at_get (_data s0) r c with Some v => v | None => REF_ERROR end) in *.
    set (s1 := with_names <[ref := or_zero v]> s0).
    destruct (IH (fun x Hx => Hrefs x (list_elem_of_further _ _ _ Hx)) s1)
      as (names & Hrun & Hin & Hout).
    exists names. split; [|split].
    + simpl. rewrite (bind_inr _ _ s0 s1 tt); [|rewrite (bind_inr _ _ _ _ _ Hget); reflexivity].
      exact Hrun.
    + intros x Hx. destruct (decide (x ∈ refs)) as [Hxr|Hxr].
      * destruct (Hin x Hxr) as (w & Hw & Hnames). exists w. split; [|exact Hnames].
        destruct (Hrefs x) as [[rx cx] Hpx]; [right; exact Hxr|].
        rewrite (get_cell_value_run x rx cx s1 Hpx) in Hw.
        rewrite (get_cell_value_run x rx cx s0 Hpx). injection Hw as <-. reflexivity.
      * apply elem_of_cons in Hx as [->|Hx]; [|contradiction].
        exists v. split; [exact Hget|]. rewrite (Hout ref Hxr). simpl.
        apply lookup_insert_eq.
    + intros k Hk. apply not_elem_of_cons in Hk as [Hk1 Hk2].
      rewrite (Hout k Hk2). simpl. apply lookup_insert_ne. congruence.
Qed.

(** X5: [resolve_cell_references] never raises and touches nothing but the
    evaluator's table of names: after it, every reference found in the
    formula is bound to the value [get_cell_value] reads for it (with 0 in
    place of an empty cell and the reference-error value for an address
    outside the sheet), and every other name keeps its binding. *)
Theorem resolve_cell_references_binds_references (formula : string) (s : Spreadsheet) :
  exists names,
    resolve_cell_references formula s = (with_names (fun _ => names) s, inr tt)
    /\ (forall ref, ref ∈ findall_refs formula ->
          exists v, get_cell_value ref s = (s, inr v) /\ names !! ref = Some (or_zero v))
    /\ (forall k, k ∉ findall_refs formula -> names !! k = _evaluator_names s !! k).
Proof.
  apply (resolve_loop_spec (findall_refs formula)).
  intros ref. apply findall_refs_parse.
Qed.

(** ** The cycle check, exactly *)

Section CycleCheckExact.
Context (R : Runtime).

Lemma loop_true (deps : gmap string dep_collection) (target : string)
  (rec : string -> gset string -> option (bool * gset string))
  (l : list string) (visited V' : gset string) :
  (forall dep v V1, rec dep v = Some (true, V1) -> rtc (depends_on deps) dep target) ->
  has_circular_dependency_loop rec target l visited = Some (true, V') ->
  exists y, y ∈ l /\ rtc (depends_on deps) y target.
Proof.
  intros Hrec. revert visited. induction l as [|dep l IH]; intros visited; simpl;
    [discriminate|].
  destruct (String.eqb_spec dep target) as [->|Hne].
  - intros _. exists target. split; [left | constructor].
  - destruct (decide (dep ∈ visited)).
    + intros H. destruct (IH _ H) as (y & Hy & Hr). exists y. split; [right|]; assumption.
    + destruct (rec dep visited) as [[[|] V1]|] eqn:Hr; try discriminate.
      * intros _. exists dep. split; [left | eapply Hrec, Hr].
      * intros H. destruct (IH _ H) as (y & Hy & Hry). exists y. split; [right|]; assumption.
Qed.

Lemma has_circular_dependency_true (fuel : nat) (deps : gmap string dep_collection)
  (cell target : string) (visited V : gset string) :
  has_circular_dependency R fuel deps cell target visited = Some (true, V) ->
  rtc (depends_on deps) cell target.
Proof.
  revert cell visited V. induction fuel as [|f IH]; intros cell visited V; simpl;
    [discriminate|].
  destruct (String.eqb_spec cell target) as [->|Hne]; [constructor|].
  destruct (deps !! cell) as [d|] eqn:Hd; [|discriminate].
  intros H. apply (loop_true deps) in H as (y & Hy & Hr); [|intros; eapply IH; eassumption].
  eapply rtc_l; [|exact Hr]. exists d. split; [exact Hd | apply dep_iter_mem in Hy; exact Hy].
Qed.
End CycleCheckExact.

(** X6: [has_circular_dependency(cell, target)] decides reachability.  With
    a recursion budget above the number of cells that have dependencies, it
    returns, and it returns [True] exactly when the target can be reached
    from the cell through [_dependencies] in zero or more steps. *)
Theorem has_circular_dependency_decides_reachability
  (R : Runtime) (fuel : nat) (deps : gmap string dep_collection) (cell target : string) :
  (size (dom deps) < fuel)%nat ->
  exists answer V,
    has_circular_dependency R fuel deps cell target ∅ = Some (answer, V)
    /\ (answer = true <-> rtc (depends_on deps) cell target).
Proof.
  intros Hfuel.
  destruct (has_circular_dependency_terminates R fuel deps cell target ∅)
    as [[answer V] H]; [set_solver | |].
  { eapply Nat.le_lt_trans; [|exact Hfuel]. apply subseteq_size. set_solver. }
  exists answer, V. split; [exact H|]. destruct answer.
  - split; [intros _; eapply has_circular_dependency_true, H | reflexivity].
  - split; [discriminate|]. intros Hr. exfalso.
    eapply has_circular_dependency_false; eassumption.
Qed.

Lemma has_circular_dependency_decides_reachability_witness :
  let deps : gmap string dep_collection :=
    <["A1" := DepList ["B1"; "C1"]]> (<["C1" := DepSet {["D1"]}]> ∅) in
  (size (dom deps) < 5)%nat
  /\ exists answer V,
       has_circular_dependency Example.runtime 5 deps "A1" "D1" ∅ = Some (answer, V)
       /\ (answer = true <-> rtc (depends_on deps) "A1" "D1").
Proof.
  split; [vm_compute; lia|].
  apply (has_circular_dependency_decides_reachability Example.runtime 5).
  vm_compute. lia.
Defined.

(** ** Invariants that concern cells other than the ones written

    A second induction on the recursion budget, for invariants that are
    only kept by mutations of cells [c] with [ok c]: the target of a write,
    and the function cells a cascade re-executes. *)
Section TargetedInvariant.
Context (R : Runtime) (I : Spreadsheet -> Prop) (ok : string -> Prop).

Hypothesis T_data : forall f s, I s -> I (with_data f s).
Hypothesis T_names : forall f s, I s -> I (with_names f s).
Hypothesis T_formula_delete : forall c s, ok c -> I s -> I (with_formulas (delete c) s).
Hypothesis T_function_pop : forall c s, ok c -> I s -> I (with_functions (Dict.pop c) s).
Hypothesis T_function_keys :
  forall c s, I s -> Dict.mem c (_functions s) = true -> ok c.
Hypothesis T_function_set :
  forall c fi s, ok c -> I s -> I (with_functions (Dict.set c fi) s).
Hypothesis T_track : forall c d, ok c -> inv I (track_one_dependency c d).
Hypothesis T_commit :
  forall c formula s, ok c -> I s ->
    I (fst (update_dependencies c formula (with_formulas <[c := formula]> s))).

Section TargetedWithRecalc.
Variable fuel : nat.
Variable recalc : string -> M unit.
Hypothesis targeted_recalc : forall c, inv I (recalc c).

Lemma targeted_delete_cell_with (c : string) :
  ok c -> inv I (delete_cell_with recalc c).
Proof.
  intros Hc. unfold delete_cell_with.
  apply inv_bind; [apply inv_set_cell_value_direct, T_data|]. intros _.
  apply inv_bind; [apply inv_modify; intros; apply T_formula_delete; assumption|].
  intros _.
  apply inv_bind; [apply inv_modify; intros; apply T_function_pop; assumption|].
  intros _. apply targeted_recalc.
Qed.

Lemma targeted_set_cell_value_with (c v : string) (info : option function_info) :
  ok c -> inv I (set_cell_value_with R fuel recalc c v info).
Proof.
  intros Hc. unfold set_cell_value_with.
  apply inv_bind; [apply inv_expand_sheet_to_include_cell, T_data|]. intros _.
  apply inv_bind; [apply inv_when, targeted_delete_cell_with, Hc|]. intros _.
  apply inv_bind; [apply inv_get|]. intros s1.
  apply inv_bind; [apply inv_when, targeted_delete_cell_with, Hc|]. intros _.
  apply inv_bind.
  { destruct info as [fi|]; [|apply inv_ret].
    apply inv_modify. intros; apply T_function_set; assumption. }
  intros _. apply inv_bind; [|intros _; apply targeted_recalc].
  destruct (Py.startswith "=" v).
  - set (formula := substring 1 (String.length v - 1) v).
    intros s Hs. apply inv_bind_eq.
    + rewrite check_circular_dependencies_state. exact Hs.
    + intros [] s' Hck _.
      assert (s' = s) as ->.
      { rewrite <- (check_circular_dependencies_state R fuel c (findall_refs formula) s).
        rewrite Hck. reflexivity. }
      rewrite bind_modify.
      apply inv_bind_eq; [apply T_commit; assumption|].
      intros _ s2 _ Hs2. apply (inv_calculate_formula R I T_data T_names), Hs2.
  - apply inv_set_cell_value_direct, T_data.
Qed.

Lemma targeted_execute_function_with (c function_name : string) (rng : list string) :
  ok c -> inv I (execute_function_with R fuel recalc c function_name rng).
Proof.
  intros Hc. unfold execute_function_with.
  destruct (match_cell_address c); [|apply inv_raise].
  destruct rng as [|a [|b [|? ?]]]; try apply inv_raise.
  destruct (_ || _); [apply inv_raise|].
  apply inv_bind; [apply inv_lift|]. intros valid.
  destruct (negb valid); [apply inv_raise|].
  apply inv_bind; [apply inv_lift|]. intros inside.
  destruct inside; [apply inv_raise|].
  apply inv_bind.
  - unfold function_sum, function_average, function_max, function_min,
      function_count, function_median, function_product.
    repeat (destruct (String.eqb function_name _); [apply inv_run_reduction|]).
    apply inv_raise.
  - intros r. unfold function_handle_with.
    apply inv_bind; [apply targeted_set_cell_value_with, Hc|]. intros _.
    apply (inv_track_function_dependencies I ok T_track), Hc.
Qed.
End TargetedWithRecalc.

Lemma targeted_recalculate_dependents (fuel : nat) (c : string) :
  inv I (recalculate_dependents R fuel c).
Proof.
  revert c. induction fuel as [|f IH]; intros c; simpl; [apply inv_raise|].
  apply inv_get_bind. intros s0 Hs0.
  apply inv_bind_eq.
  - destruct (_reverse_dependencies s0 !! c) as [dependents|]; [|exact Hs0].
    apply inv_iterate_reverse_dependencies; [|exact Hs0].
    intros x. apply inv_get_bind. intros s1 Hs1.
    destruct (_formulas s1 !! x) as [formula|]; [|exact Hs1].
    apply inv_bind;
      [apply (inv_calculate_formula R I T_data T_names) | intros _; apply IH | exact Hs1].
  - intros _ s1 _ Hs1. rewrite bind_get.
    apply inv_for_each; [|exact Hs1].
    intros [func_cell [func_name cell_range_tuple]] Hin.
    assert (Hok : ok func_cell).
    { apply (T_function_keys func_cell s1 Hs1).
      unfold Dict.mem. apply existsb_exists. exists (func_cell, (func_name, cell_range_tuple)).
      split; [apply list_elem_of_In, Hin | apply String.eqb_refl]. }
    apply inv_bind; [apply inv_lift|]. intros inside.
    apply inv_when. apply inv_bind; [|intros _; apply IH].
    apply inv_when. apply targeted_execute_function_with; assumption.
Qed.

Lemma targeted_run_operation (fuel : nat) (op : operation) (c : string) :
  operation_target op = Some c -> ok c -> inv I (run_operation R fuel op).
Proof.
  destruct op as [rows columns|c' v|c' fn rng|c'|]; simpl; intros [= ->] Hc.
  - apply targeted_set_cell_value_with; [apply targeted_recalculate_dependents | exact Hc].
  - apply targeted_execute_function_with; [apply targeted_recalculate_dependents | exact Hc].
  - apply targeted_delete_cell_with; [apply targeted_recalculate_dependents | exact Hc].
Qed.
End TargetedInvariant.

(** ** Accepted and rejected writes *)

Lemma bind_inr_inv {A B} (m : M A) (k : A -> M B) (s s' : Spreadsheet) (b : B) :
  bind m k s = (s', inr b) -> exists a s1, m s = (s1, inr a) /\ k a s1 = (s', inr b).
Proof.
  unfold bind. destruct (m s) as [s1 [e|a]]; [discriminate|]. eauto.
Qed.

Lemma expand_sheet_parses (cell : string) (s s1 : Spreadsheet) :
  expand_sheet_to_include_cell cell s = (s1, inr tt) ->
  exists row col, parse_cell_address cell = inr (row, col).
Proof.
  unfold expand_sheet_to_include_cell.
  destruct (parse_cell_address cell) as [e|[row col]]; [|eauto].
  rewrite bind_lift_inl. discriminate.
Qed.

Section AcceptedWrites.
Context (R : Runtime).

(** An accepted write has passed the expansion and the clearing of the old
    contents; what remains is the branch on the new contents and the
    cascade, from a state in which the cell holds nothing. *)
Lemma set_cell_value_accepted (fuel : nat) (cell value_ : string) (s s' : Spreadsheet) :
  set_cell_value R fuel cell value_ None s = (s', inr tt) ->
  exists s2,
    holds_nothing cell s2
    /\ ((if Py.startswith "=" value_ then
           let formula := String.substring 1 (String.length value_ - 1) value_ in
           check_circular_dependencies R fuel cell (findall_refs formula) ;;
           modify (with_formulas <[cell := formula]>) ;;
           update_dependencies cell formula ;;
           calculate_formula R cell formula
         else
           set_cell_value_direct cell
             match py_float R value_ with Some x => x | None => VStr value_ end) ;;
        recalculate_dependents R fuel cell)%engine s2 = (s', inr tt).
Proof.
  unfold set_cell_value, set_cell_value_with. intros H.
  apply bind_inr_inv in H as ([] & s1 & Hexp & H).
  destruct (expand_sheet_parses _ _ _ Hexp) as (row & col & Hp).
  apply bind_inr_inv in H as ([] & s1' & _ & H).
  rewrite bind_get in H.
  apply bind_inr_inv in H as ([] & s2 & Hw & H).
  apply bind_inr_inv in H as ([] & s2' & [= <-] & H).
  exists s2. split; [|exact H].
  destruct (bool_decide (is_Some (_formulas s1' !! cell)) || Dict.mem cell (_functions s1'))
    eqn:Hc; simpl in Hw.
  - change s2 with (fst (s2, @inr exn unit tt)). rewrite <- Hw.
    apply (delete_cell_holds_nothing R fuel cell row col s1' Hp).
  - injection Hw as <-. apply orb_false_elim in Hc as [Hf Hd].
    split; [|exact Hd]. apply bool_decide_eq_false in Hf.
    destruct (_formulas s1' !! cell); [exfalso; apply Hf; eauto | reflexivity].
Qed.

Lemma formula_recorded_recalculate_dependents (cell formula : string) (fuel : nat)
  (c : string) :
  inv (formula_recorded cell formula) (recalculate_dependents R fuel c).
Proof.
  apply (targeted_recalculate_dependents R _ (fun c => c <> cell)).
  - intros f s H. exact H.
  - intros f s H. exact H.
  - intros c' s Hc (Hf & Hd & Hr & Hm). repeat split; try assumption.
    simpl. rewrite lookup_delete_ne by exact Hc. exact Hf.
  - intros c' s Hc (Hf & Hd & Hr & Hm). repeat split; try assumption.
    simpl. apply dict_mem_pop, Hm.
  - intros c' s (_ & _ & _ & Hm) Hc ->. congruence.
  - intros c' fi s Hc (Hf & Hd & Hr & Hm). repeat split; try assumption.
    simpl. rewrite dict_mem_set_ne by exact Hc. exact Hm.
  - intros c' d Hc s (Hf & Hd & Hr & Hm). unfold track_one_dependency.
    rewrite bind_modify, bind_get.
    assert (Hr' : forall ref, ref ∈ findall_refs formula ->
              reverse_mem (dict_add_to_set d c' (_reverse_dependencies s)) cell ref).
    { intros ref Href. apply reverse_mem_add. left. apply Hr, Href. }
    cbn [with_reverse_dependencies _dependencies].
    destruct (_dependencies s !! c') as [[l|st]|]; simpl;
      (repeat split; [exact Hf | | exact Hr' | exact Hm]);
      cbn [with_dependencies with_reverse_dependencies _dependencies];
      [exact Hd | rewrite lookup_insert_ne by exact Hc; exact Hd
       | rewrite lookup_insert_ne by exact Hc; exact Hd].
  - intros c' formula' s Hc (Hf & Hd & Hr & Hm). rewrite update_dependencies_state.
    repeat split; simpl.
    + rewrite lookup_insert_ne by exact Hc. exact Hf.
    + rewrite lookup_insert_ne by exact Hc. exact Hd.
    + intros ref Href. apply reverse_mem_add_all. left. apply Hr, Href.
    + exact Hm.
Qed.

(** X7: an accepted formula write is on record when [set_cell_value]
    returns, cascade included: the formula text without the [=] is the
    cell's entry of [_formulas], its references ([re.findall]) are the
    cell's entry of [_dependencies], the cell is in the reverse entry of
    each reference, and the cell has no function entry. *)
Theorem accepted_formula_is_recorded
  (fuel : nat) (cell formula : string) (s s' : Spreadsheet) :
  set_cell_value R fuel cell (String "=" formula) None s = (s', inr tt) ->
  formula_recorded cell formula s'.
Proof.
  intros H. apply set_cell_value_accepted in H as (s2 & [Hf2 Hm2] & H).
  destruct (formula_of_value formula) as (_ & Hst & Hsub).
  rewrite Hst in H. cbv zeta in H. rewrite Hsub in H.
  apply bind_inr_inv in H as ([] & s3 & Hbr & Hrec).
  apply bind_inr_inv in Hbr as ([] & s2' & Hck & Hbr).
  assert (s2' = s2) as ->.
  { rewrite <- (check_circular_dependencies_state R fuel cell (findall_refs formula) s2).
    rewrite Hck. reflexivity. }
  rewrite bind_modify in Hbr.
  apply bind_inr_inv in Hbr as ([] & s4 & Hupd & Hcalc).
  rewrite update_dependencies_state in Hupd. injection Hupd as <-.
  change s' with (fst (s', @inr exn unit tt)). rewrite <- Hrec.
  apply formula_recorded_recalculate_dependents.
  change s3 with (fst (s3, @inr exn unit tt)). rewrite <- Hcalc.
  apply (inv_calculate_formula R (formula_recorded cell formula));
    [intros f s0 H0; exact H0 | intros f s0 H0; exact H0 |].
  repeat split; simpl.
  - apply lookup_insert_eq.
  - apply lookup_insert_eq.
  - intros ref Href. apply reverse_mem_add_all. right. auto.
  - exact Hm2.
Qed.

(** X8: an accepted write of anything but a formula leaves the cell with no
    formula and no function entry when [set_cell_value] returns, whatever
    it held before and whatever the cascade recalculated. *)
Theorem accepted_literal_clears_formula_and_function
  (fuel : nat) (cell value_ : string) (s s' : Spreadsheet) :
  Py.startswith "=" value_ = false ->
  set_cell_value R fuel cell value_ None s = (s', inr tt) ->
  holds_nothing cell s'.
Proof.
  intros Hst H. apply set_cell_value_accepted in H as (s2 & H2 & H).
  rewrite Hst in H.
  change s' with (fst (s', @inr exn unit tt)). rewrite <- H.
  revert s2 H2 H.
  assert (Hinv : inv (holds_nothing cell)
            (set_cell_value_direct cell
               match py_float R value_ with Some x => x | None => VStr value_ end ;;
             recalculate_dependents R fuel cell)%engine).
  { apply inv_bind.
    - apply inv_set_cell_value_direct. intros f s0 H0. exact H0.
    - intros _. apply holds_nothing_recalculate_dependents. }
  intros s2 H2 _. apply Hinv, H2.
Qed.

Lemma record_of_recalculate_dependents (a : string) (formula : option string)
  (deps : option dep_collection) :
  (forall fuel c, inv (record_of a formula deps) (recalculate_dependents R fuel c))
  /\ (forall fuel op c, operation_target op = Some c -> c <> a ->
        inv (record_of a formula deps) (run_operation R fuel op)).
Proof.
  assert (Hdata : forall f s, record_of a formula deps s -> record_of a formula deps (with_data f s))
    by (intros f s H; exact H).
  assert (Hnames : forall f s, record_of a formula deps s -> record_of a formula deps (with_names f s))
    by (intros f s H; exact H).
  assert (Hdel : forall c s, c <> a -> record_of a formula deps s ->
            record_of a formula deps (with_formulas (delete c) s)).
  { intros c s Hc (Hf & Hd & Hm). repeat split; try assumption.
    simpl. rewrite lookup_delete_ne by exact Hc. exact Hf. }
  assert (Hpop : forall c s, c <> a -> record_of a formula deps s ->
            record_of a formula deps (with_functions (Dict.pop c) s)).
  { intros c s Hc (Hf & Hd & Hm). repeat split; try assumption.
    simpl. apply dict_mem_pop, Hm. }
  assert (Hkeys : forall c s, record_of a formula deps s ->
            Dict.mem c (_functions s) = true -> c <> a).
  { intros c s (_ & _ & Hm) Hc ->. congruence. }
  assert (Hset : forall c fi s, c <> a -> record_of a formula deps s ->
            record_of a formula deps (with_functions (Dict.set c fi) s)).
  { intros c fi s Hc (Hf & Hd & Hm). repeat split; try assumption.
    simpl. rewrite dict_mem_set_ne by exact Hc. exact Hm. }
  assert (Htrack : forall c d, c <> a -> inv (record_of a formula deps) (track_one_dependency c d)).
  { intros c d Hc s (Hf & Hd & Hm). unfold track_one_dependency.
    rewrite bind_modify, bind_get.
    cbn [with_reverse_dependencies _dependencies].
    destruct (_dependencies s !! c) as [[l|st]|]; simpl;
      (repeat split; [exact Hf | | exact Hm]);
      cbn [with_dependencies with_reverse_dependencies _dependencies];
      [exact Hd | rewrite lookup_insert_ne by exact Hc; exact Hd
       | rewrite lookup_insert_ne by exact Hc; exact Hd]. }
  assert (Hcommit : forall c formula' s, c <> a -> record_of a formula deps s ->
            record_of a formula deps
              (fst (update_dependencies c formula' (with_formulas <[c := formula']> s)))).
  { intros c formula' s Hc (Hf & Hd & Hm). rewrite update_dependencies_state.
    repeat split; simpl.
    - rewrite lookup_insert_ne by exact Hc. exact Hf.
    - rewrite lookup_insert_ne by exact Hc. exact Hd.
    - exact Hm. }
  split.
  - apply (targeted_recalculate_dependents R _ (fun c => c <> a)); assumption.
  - intros fuel op c. apply (targeted_run_operation R _ (fun c => c <> a)); assumption.
Qed.

(** X9: a write, a function execution or a deletion aimed at one address
    leaves the record of every other address that is not a function cell as
    it was, cascade included and whether the operation returns or raises:
    the same [_formulas] entry (or none), the same [_dependencies] entry (or
    none), and still no function entry.  Addresses are compared as the
    dictionary keys they are. *)
Theorem write_keeps_other_records
  (fuel : nat) (op : operation) (c a : string) (formula : option string)
  (deps : option dep_collection) (s : Spreadsheet) :
  operation_target op = Some c -> c <> a ->
  record_of a formula deps s ->
  record_of a formula deps (fst (run_operation R fuel op s)).
Proof.
  intros Hop Hc. apply (proj2 (record_of_recalculate_dependents a formula deps) fuel op c Hop Hc).
Qed.

(** X10: a literal written into a cell that lies inside the sheet, holds
    neither formula nor function and has nothing depending on it changes
    the data of that cell and nothing else, and the cell then reads as the
    stored value: [float] of the text when that parses (an integral float
    as an [int]), the text itself otherwise. *)
Theorem literal_write_round_trip
  (fuel : nat) (s : Spreadsheet) (a value_ : string) (row : Z) (col : string) :
  within_sheet s a ->
  parse_cell_address a = inr (row, col) ->
  holds_nothing a s -> no_dependents s a -> wf_frame (_data s) ->
  value_ <> EmptyString -> Py.startswith "=" value_ = false ->
  let stored :=
    integral_float_to_int
      match py_float R value_ with Some x => x | None => VStr value_ end in
  let s' := with_data (fun df => df_at_set df row col stored) s in
  set_cell_value R (S fuel) a value_ None s = (s', inr tt)
  /\ get_cell_value a s' = (s', inr stored).
Proof.
  intros Hin Hp [Hf Hm] Hdep Hwf Hne Hst stored s'. split.
  - unfold set_cell_value, set_cell_value_with.
    rewrite (bind_inr _ _ _ _ _ (expand_sheet_within s a Hin)).
    rewrite (eqb_empty_false _ Hne).
    unfold when at 1. rewrite (bind_inr (ret tt) _ s s tt eq_refl).
    rewrite bind_get, Hf, Hm.
    replace (bool_decide (is_Some (@None string)) || false) with false
      by (symmetry; apply orb_false_intro;
          [apply bool_decide_eq_false; intros [? [=]] | reflexivity]).
    unfold when at 1. rewrite (bind_inr (ret tt) _ s s tt eq_refl).
    rewrite (bind_inr (ret tt) _ s s tt eq_refl).
    rewrite Hst.
    rewrite (bind_inr _ _ _ _ _ (set_cell_value_direct_state a row col _ s Hp)).
    apply recalculate_dependents_no_dependents.
    destruct Hdep as [Hr Hfs]. split; [exact Hr | exact Hfs].
  - unfold get_cell_value. rewrite Hp, bind_lift_inr, bind_get.
    cbn [fst snd]. unfold s'. cbn [with_data _data].
    rewrite (df_at_get_set _ row col stored Hwf). reflexivity.
Qed.

End AcceptedWrites.

(** On a sheet with [A1 = 5], [B1 = A1+1] and [C1 = B1*2], the accepted
    write [B1 := "=A1*3"] replaces a formula and cascades to [C1]. *)
Lemma accepted_formula_is_recorded_witness :
  let s := fst (run_operations Example.runtime 10
                  [CreateSheet 3 3; SetCellValue "A1" "5"; SetCellValue "B1" "=A1+1";
                   SetCellValue "C1" "=B1*2"] new_spreadsheet) in
  let s' := fst (set_cell_value Example.runtime 10 "B1" "=A1*3" None s) in
  set_cell_value Example.runtime 10 "B1" "=A1*3" None s = (s', inr tt)
  /\ formula_recorded "B1" "A1*3" s'.
Proof.
  intros s s'.
  assert (H : set_cell_value Example.runtime 10 "B1" "=A1*3" None s = (s', inr tt))
    by (vm_compute; reflexivity).
  split; [exact H|].
  exact (accepted_formula_is_recorded Example.runtime 10 "B1" "A1*3" s s' H).
Defined.

(** On the same sheet, the accepted write [B1 := "7"] replaces the formula
    of [B1] by a number. *)
Lemma accepted_literal_clears_formula_and_function_witness :
  let s := fst (run_operations Example.runtime 10
                  [CreateSheet 3 3; SetCellValue "A1" "5"; SetCellValue "B1" "=A1+1";
                   SetCellValue "C1" "=B1*2"] new_spreadsheet) in
  let s' := fst (set_cell_value Example.runtime 10 "B1" "7" None s) in
  Py.startswith "=" "7" = false
  /\ set_cell_value Example.runtime 10 "B1" "7" None s = (s', inr tt)
  /\ holds_nothing "B1" s'.
Proof.
  intros s s'.
  assert (H : set_cell_value Example.runtime 10 "B1" "7" None s = (s', inr tt))
    by (vm_compute; reflexivity).
  split; [reflexivity|]. split; [exact H|].
  exact (accepted_literal_clears_formula_and_function Example.runtime 10 "B1" "7" s s'
           eq_refl H).
Defined.

(** On the same sheet, the write [A1 := "6"] cascades to [B1] and [C1] and
    leaves the record of [C1] as it was. *)
Lemma write_keeps_other_records_witness :
  let s := fst (run_operations Example.runtime 10
                  [CreateSheet 3 3; SetCellValue "A1" "5"; SetCellValue "B1" "=A1+1";
                   SetCellValue "C1" "=B1*2"] new_spreadsheet) in
  operation_target (SetCellValue "A1" "6") = Some "A1"
  /\ "A1" <> "C1"
  /\ record_of "C1" (Some "B1*2") (Some (DepList ["B1"])) s
  /\ record_of "C1" (Some "B1*2") (Some (DepList ["B1"]))
       (fst (run_operation Example.runtime 10 (SetCellValue "A1" "6") s)).
Proof.
  intros s.
  assert (H1 : operation_target (SetCellValue "A1" "6") = Some "A1") by reflexivity.
  assert (H2 : "A1" <> "C1") by discriminate.
  assert (H3 : record_of "C1" (Some "B1*2") (Some (DepList ["B1"])) s)
    by (vm_compute; repeat split; reflexivity).
  repeat (split; [assumption|]).
  exact (write_keeps_other_records Example.runtime 10 (SetCellValue "A1" "6") "A1" "C1"
           (Some "B1*2") (Some (DepList ["B1"])) s H1 H2 H3).
Defined.

(** On a fresh sheet of 2 by 2, the text [2.0] written to [B2] is stored
    and read back as the integer 2. *)
Lemma literal_write_round_trip_witness :
  let s := fst (create_sheet 2 2 new_spreadsheet) in
  let s' := with_data (fun df => df_at_set df 2 "B" (VInt 2)) s in
  within_sheet s "B2"
  /\ parse_cell_address "B2" = inr (2, "B")
  /\ holds_nothing "B2" s /\ no_dependents s "B2" /\ wf_frame (_data s)
  /\ "2.0" <> EmptyString /\ Py.startswith "=" "2.0" = false
  /\ set_cell_value Example.runtime 1 "B2" "2.0" None s = (s', inr tt)
  /\ get_cell_value "B2" s' = (s', inr (VInt 2)).
Proof.
  intros s s'.
  assert (H1 : within_sheet s "B2").
  { exists 2, "B". repeat split; vm_compute; congruence. }
  assert (H2 : parse_cell_address "B2" = inr (2, "B")) by reflexivity.
  assert (H3 : holds_nothing "B2" s) by (split; reflexivity).
  assert (H4 : no_dependents s "B2") by (split; [reflexivity | constructor]).
  assert (H5 : wf_frame (_data s)) by (repeat constructor).
  assert (H6 : "2.0" <> EmptyString) by discriminate.
  assert (H7 : Py.startswith "=" "2.0" = false) by reflexivity.
  repeat (split; [assumption|]).
  exact (literal_write_round_trip Example.runtime 0 s "B2" "2.0" 2 "B"
           H1 H2 H3 H4 H5 H6 H7).
Defined.

(** ** Aggregate functions: rejection, and what an accepted one records *)

Lemma parse_cell_address_error (cell : string) (e : exn) :
  parse_cell_address cell = inl e -> e = ValueError (InvalidCellAddress cell).
Proof.
  unfold parse_cell_address. destruct (match_cell_address cell) as [[? ?]|]; congruence.
Qed.

Lemma is_valid_range_error (a b : string) (e : exn) :
  is_valid_range a b = inl e -> exists ve, e = ValueError ve.
Proof.
  unfold is_valid_range.
  destruct (parse_cell_address a) as [e1|[? ?]] eqn:Ha.
  - intros [= <-]. eauto using parse_cell_address_error.
  - destruct (parse_cell_address b) as [e2|[? ?]] eqn:Hb; [|discriminate].
    intros [= <-]. eauto using parse_cell_address_error.
Qed.

Lemma cell_in_function_range_error (cell a b : string) (e : exn) :
  cell_in_function_range cell (a, b) = inl e -> exists ve, e = ValueError ve.
Proof.
  unfold cell_in_function_range.
  destruct (parse_cell_address a) as [e1|[? ?]] eqn:Ha.
  - intros [= <-]. eauto using parse_cell_address_error.
  - destruct (parse_cell_address b) as [e2|[? ?]] eqn:Hb.
    + intros [= <-]. eauto using parse_cell_address_error.
    + destruct (parse_cell_address cell) as [e3|[? ?]] eqn:Hc; [|discriminate].
      intros [= <-]. eauto using parse_cell_address_error.
Qed.

Lemma run_reduction_state (R : Runtime) (red : reduction) (rng : string * string)
  (s : Spreadsheet) :
  fst (run_reduction R red rng s) = s.
Proof.
  unfold run_reduction. destruct (parse_cell_range rng) as [e|sl].
  - rewrite bind_lift_inl. reflexivity.
  - rewrite bind_lift_inr, bind_get. reflexivity.
Qed.

Lemma for_each_keeps {A} (Q : Spreadsheet -> Prop) (l : list A) (body : A -> M unit) :
  (forall y s s', Q s -> body y s = (s', inr tt) -> Q s') ->
  forall s s', for_each l body s = (s', inr tt) -> Q s -> Q s'.
Proof.
  intros Hkeep. induction l as [|y l IH]; intros s s' H Hs; simpl in H.
  - injection H as <-. exact Hs.
  - apply bind_inr_inv in H as ([] & s1 & Hy & Hrest). eauto.
Qed.

Lemma for_each_establishes {A} (P : A -> Spreadsheet -> Prop) (l : list A)
  (body : A -> M unit) :
  (forall x s s', body x s = (s', inr tt) -> P x s') ->
  (forall x y s s', P x s -> body y s = (s', inr tt) -> P x s') ->
  forall s s', for_each l body s = (s', inr tt) -> forall x, x ∈ l -> P x s'.
Proof.
  intros Hest Hkeep. induction l as [|y l IH]; intros s s' H x Hx.
  - inversion Hx.
  - simpl in H. apply bind_inr_inv in H as ([] & s1 & Hy & Hrest).
    apply elem_of_cons in Hx as [->|Hx]; [|eauto].
    apply (for_each_keeps (P y) l body (Hkeep y) s1 s' Hrest). eauto.
Qed.

Lemma range_elem (a b x : Z) : x ∈ Py.range a b <-> a <= x < b.
Proof. unfold Py.range. rewrite elem_of_seqZ. lia. Qed.

Lemma range_cons (a b : Z) : a < b -> Py.range a b = a :: Py.range (a + 1) b.
Proof.
  intros H. unfold Py.range. rewrite seqZ_cons by lia.
  f_equal. f_equal; lia.
Qed.

Lemma track_one_dependency_tracks (cell d : string) (s s' : Spreadsheet) :
  track_one_dependency cell d s = (s', inr tt) -> tracked cell d s'.
Proof.
  unfold track_one_dependency. rewrite bind_modify, bind_get.
  cbn [with_reverse_dependencies _dependencies].
  destruct (_dependencies s !! cell) as [[l|st]|]; [discriminate| |];
    intros [= <-]; split.
  - eexists. split; [apply lookup_insert_eq|]. simpl. set_solver.
  - apply reverse_mem_add. right. auto.
  - eexists. split; [apply lookup_insert_eq|]. simpl. set_solver.
  - apply reverse_mem_add. right. auto.
Qed.

Lemma track_one_dependency_keeps (cell d0 d : string) (s s' : Spreadsheet) :
  tracked cell d0 s -> track_one_dependency cell d s = (s', inr tt) -> tracked cell d0 s'.
Proof.
  intros [(dc & Hdc & Hmem) Hrev]. unfold track_one_dependency.
  rewrite bind_modify, bind_get.
  cbn [with_reverse_dependencies _dependencies]. rewrite Hdc.
  destruct dc as [l|st]; [discriminate|]. intros [= <-]. split.
  - eexists. split; [apply lookup_insert_eq|]. simpl in *. set_solver.
  - apply reverse_mem_add. left. exact Hrev.
Qed.

Lemma track_function_dependencies_tracks (cell a b : string) (s s' : Spreadsheet)
  (ra rb : Z) (ca cb : string) (row col : Z) :
  track_function_dependencies cell (a, b) s = (s', inr tt) ->
  parse_cell_address a = inr (ra, ca) -> parse_cell_address b = inr (rb, cb) ->
  ra <= row <= rb -> column_letter_to_index ca <= col <= column_letter_to_index cb ->
  tracked cell (convert_indices_to_cell_address (row - 1) col) s'.
Proof.
  intros H Ha Hb Hrow Hcol. unfold track_function_dependencies in H.
  rewrite Ha, bind_lift_inr, Hb, bind_lift_inr in H. cbn [fst snd] in H.
  set (cols := Py.range (column_letter_to_index ca) (column_letter_to_index cb + 1)) in *.
  pose (P := fun (row : Z) (s : Spreadsheet) =>
               forall col, col ∈ cols ->
                 tracked cell (convert_indices_to_cell_address (row - 1) col) s).
  assert (Hinner : forall r s0 s1,
            for_each cols (fun col =>
              track_one_dependency cell (convert_indices_to_cell_address (r - 1) col)) s0
            = (s1, inr tt) ->
            (forall d, tracked cell d s0 -> tracked cell d s1) /\ P r s1).
  { intros r s0 s1 Hf. split.
    - intros d Hd. revert Hd.
      apply (for_each_keeps (tracked cell d) cols _
               (fun y s2 s3 H2 H3 => track_one_dependency_keeps cell d _ s2 s3 H2 H3)
               s0 s1 Hf).
    - unfold P. intros c Hc.
      apply (for_each_establishes
               (fun col s2 => tracked cell (convert_indices_to_cell_address (r - 1) col) s2)
               cols _
               (fun x s2 s3 H3 => track_one_dependency_tracks cell _ s2 s3 H3)
               (fun x y s2 s3 H2 H3 => track_one_dependency_keeps cell _ _ s2 s3 H2 H3)
               s0 s1 Hf c Hc). }
  assert (HP : P row s').
  { apply (for_each_establishes P (Py.range ra (rb + 1)) _
             (fun x s2 s3 H3 => proj2 (Hinner x s2 s3 H3))
             (fun x y s2 s3 H2 H3 c Hc => proj1 (Hinner y s2 s3 H3) _ (H2 c Hc))
             s s' H row).
    apply range_elem. lia. }
  apply HP. apply range_elem. lia.
Qed.

Section FunctionWrites.
Context (R : Runtime).

(** What an accepted [execute_function] went through: the range and the
    target passed the checks, one of the seven reductions gave the text
    [result_], [set_cell_value] stored it with the function entry, and the
    range was tracked. *)
Lemma execute_function_accepted (fuel : nat) (cell function_name a b : string)
  (s s' : Spreadsheet) :
  execute_function R fuel cell function_name [a; b] s = (s', inr tt) ->
  is_valid_range a b = inr true
  /\ cell_in_function_range cell (a, b) = inr false
  /\ exists result_ s2,
       set_cell_value R fuel cell result_ (Some (function_name, (a, b))) s = (s2, inr tt)
       /\ track_function_dependencies cell (a, b) s2 = (s', inr tt).
Proof.
  unfold execute_function, execute_function_with. intros H.
  destruct (match_cell_address cell); [|discriminate].
  destruct (_ || _); [discriminate|].
  destruct (is_valid_range a b) as [e|[|]];
    [rewrite bind_lift_inl in H; discriminate | | rewrite bind_lift_inr in H; discriminate].
  rewrite bind_lift_inr in H. cbn [negb] in H.
  destruct (cell_in_function_range cell (a, b)) as [e|[|]];
    [rewrite bind_lift_inl in H; discriminate | rewrite bind_lift_inr in H; discriminate |].
  rewrite bind_lift_inr in H.
  apply bind_inr_inv in H as (result_ & s1 & Hred & H).
  assert (s1 = s) as ->.
  { change s1 with (fst (s1, @inr exn string result_)). rewrite <- Hred.
    unfold function_sum, function_average, function_max, function_min,
      function_count, function_median, function_product.
    repeat (destruct (String.eqb function_name _); [apply run_reduction_state|]).
    reflexivity. }
  unfold function_handle_with in H.
  apply bind_inr_inv in H as ([] & s2 & Hset & Htrack).
  repeat split; try reflexivity. exists result_, s2. split; assumption.
Qed.

(** X11: a function name other than the seven known ones is rejected with
    a [ValueError] before anything is computed or stored: the engine state
    is exactly as before, for every target and range. *)
Theorem unknown_function_rejected_unchanged
  (fuel : nat) (cell function_name : string) (cell_range : list string) (s : Spreadsheet) :
  function_name ∉ recalculated_functions ->
  exists e, execute_function R fuel cell function_name cell_range s
            = (s, inl (ValueError e)).
Proof.
  intros Hname. unfold execute_function, execute_function_with.
  destruct (match_cell_address cell); [|eexists; reflexivity].
  destruct cell_range as [|a [|b [|? ?]]]; try (eexists; reflexivity).
  destruct (_ || _); [eexists; reflexivity|].
  destruct (is_valid_range a b) as [e|valid] eqn:Hv.
  { destruct (is_valid_range_error a b e Hv) as [ve ->].
    rewrite bind_lift_inl. eauto. }
  rewrite bind_lift_inr. destruct valid; cbn [negb]; [|eexists; reflexivity].
  destruct (cell_in_function_range cell (a, b)) as [e|inside] eqn:Hi.
  { destruct (cell_in_function_range_error cell a b e Hi) as [ve ->].
    rewrite bind_lift_inl. eauto. }
  rewrite bind_lift_inr. destruct inside; [eexists; reflexivity|].
  assert (Hneq : forall name, name ∈ recalculated_functions ->
            String.eqb function_name name = false).
  { intros name Hin. apply String.eqb_neq. intros ->. auto. }
  unfold recalculated_functions in Hneq.
  rewrite !Hneq by (repeat constructor).
  eexists. reflexivity.
Qed.

Lemma listed_dependencies_recalculate_dependents (cell : string) :
  (forall fuel c, inv (listed_dependencies cell) (recalculate_dependents R fuel c))
  /\ (forall fuel c v info,
        inv (listed_dependencies cell) (set_cell_value R fuel c v info)).
Proof.
  assert (Hdata : forall f s, listed_dependencies cell s -> listed_dependencies cell (with_data f s))
    by (intros f s H; exact H).
  assert (Hnames : forall f s, listed_dependencies cell s -> listed_dependencies cell (with_names f s))
    by (intros f s H; exact H).
  assert (Htrack : forall c d, True -> inv (listed_dependencies cell) (track_one_dependency c d)).
  { intros c d _ s [l Hl]. unfold track_one_dependency.
    rewrite bind_modify, bind_get. cbn [with_reverse_dependencies _dependencies].
    destruct (decide (c = cell)) as [->|Hc].
    - rewrite Hl. exists l. exact Hl.
    - destruct (_dependencies s !! c) as [[l'|st]|]; exists l;
        cbn [fst modify raise with_dependencies with_reverse_dependencies _dependencies];
        [exact Hl | rewrite lookup_insert_ne by exact Hc; exact Hl
         | rewrite lookup_insert_ne by exact Hc; exact Hl]. }
  assert (Hcommit : forall c formula' s, True -> listed_dependencies cell s ->
            listed_dependencies cell
              (fst (update_dependencies c formula' (with_formulas <[c := formula']> s)))).
  { intros c formula' s _ [l Hl]. rewrite update_dependencies_state.
    unfold listed_dependencies.
    cbn [fst with_dependencies with_reverse_dependencies with_formulas _dependencies].
    destruct (decide (c = cell)) as [->|Hc].
    - eexists. apply lookup_insert_eq.
    - exists l. rewrite lookup_insert_ne by exact Hc. exact Hl. }
  assert (Hrec : forall fuel c, inv (listed_dependencies cell) (recalculate_dependents R fuel c)).
  { apply (targeted_recalculate_dependents R _ (fun _ => True)); auto. }
  split; [exact Hrec|].
  intros fuel c v info.
  apply (targeted_set_cell_value_with R _ (fun _ => True)); auto.
Qed.

(** X12: a cell whose [_dependencies] entry is a list, as every formula
    write leaves it and no later write or deletion removes it, cannot take
    an aggregate function over a non-empty range: the entry survives the
    write of the result and its cascade, and [track_function_dependencies]
    then calls [.add] on the list, so [execute_function] raises. *)
Theorem function_on_listed_dependencies_fails
  (fuel : nat) (cell function_name a b : string) (s : Spreadsheet)
  (ra rb : Z) (ca cb : string) :
  listed_dependencies cell s ->
  parse_cell_address a = inr (ra, ca) -> parse_cell_address b = inr (rb, cb) ->
  ra <= rb -> column_letter_to_index ca <= column_letter_to_index cb ->
  exists e, snd (execute_function R fuel cell function_name [a; b] s) = inl e.
Proof.
  intros Hl Ha Hb Hrow Hcol.
  destruct (execute_function R fuel cell function_name [a; b] s) as [s' [e|[]]] eqn:H;
    [eauto|exfalso].
  apply execute_function_accepted in H as (_ & _ & result_ & s2 & Hset & Htrack).
  assert (H2 : listed_dependencies cell s2).
  { change s2 with (fst (s2, @inr exn unit tt)). rewrite <- Hset.
    apply (proj2 (listed_dependencies_recalculate_dependents cell)), Hl. }
  destruct H2 as [l H2].
  unfold track_function_dependencies in Htrack.
  rewrite Ha, bind_lift_inr, Hb, bind_lift_inr in Htrack. cbn [fst snd] in Htrack.
  rewrite (range_cons ra) in Htrack by lia.
  rewrite (range_cons (column_letter_to_index ca)) in Htrack by lia.
  cbn [for_each] in Htrack.
  apply bind_inr_inv in Htrack as ([] & s3 & Htrack & _).
  apply bind_inr_inv in Htrack as ([] & s4 & Htrack & _).
  unfold track_one_dependency in Htrack.
  rewrite bind_modify, bind_get in Htrack.
  cbn [with_reverse_dependencies _dependencies] in Htrack.
  rewrite H2 in Htrack. discriminate.
Qed.

(** X13: when [execute_function] is accepted, the target is recorded as
    depending on every cell of the range: for each row and column position
    between the corners, the address built by
    [convert_indices_to_cell_address] is in the target's [_dependencies]
    entry and has the target in its [_reverse_dependencies] entry. *)
Theorem accepted_function_tracks_range
  (fuel : nat) (cell function_name a b : string) (s s' : Spreadsheet)
  (ra rb : Z) (ca cb : string) (row col : Z) :
  execute_function R fuel cell function_name [a; b] s = (s', inr tt) ->
  parse_cell_address a = inr (ra, ca) -> parse_cell_address b = inr (rb, cb) ->
  ra <= row <= rb -> column_letter_to_index ca <= col <= column_letter_to_index cb ->
  tracked cell (convert_indices_to_cell_address (row - 1) col) s'.
Proof.
  intros H Ha Hb Hrow Hcol.
  apply execute_function_accepted in H as (_ & _ & result_ & s2 & _ & Htrack).
  exact (track_function_dependencies_tracks cell a b s2 s' ra rb ca cb row col
           Htrack Ha Hb Hrow Hcol).
Qed.

End FunctionWrites.

(** [Mode] is not one of the seven names. *)
Lemma unknown_function_rejected_unchanged_witness :
  let s := fst (run_operations Example.runtime 10
                  [CreateSheet 3 3; SetCellValue "A1" "1"; SetCellValue "A2" "2"]
                  new_spreadsheet) in
  ("Mode" ∉ recalculated_functions)
  /\ exists e, execute_function Example.runtime 10 "C1" "Mode" ["A1"; "A2"] s
               = (s, inl (ValueError e)).
Proof.
  intros s.
  assert (H : "Mode" ∉ recalculated_functions).
  { unfold recalculated_functions. intros H.
    repeat (apply elem_of_cons in H as [H|H]; [discriminate|]). inversion H. }
  split; [exact H|].
  exact (unknown_function_rejected_unchanged Example.runtime 10 "C1" "Mode" ["A1"; "A2"] s H).
Defined.

(** [A3] held the formula [A1+A2] and was deleted; [Sum] over [A1:A2] can
    then not be put into [A3]. *)
Lemma function_on_listed_dependencies_fails_witness :
  let s := fst (run_operations Example.runtime 10
                  [CreateSheet 3 3; SetCellValue "A1" "1"; SetCellValue "A2" "2";
                   SetCellValue "A3" "=A1+A2"; DeleteCell "A3"] new_spreadsheet) in
  listed_dependencies "A3" s
  /\ parse_cell_address "A1" = inr (1, "A") /\ parse_cell_address "A2" = inr (2, "A")
  /\ 1 <= 2 /\ column_letter_to_index "A" <= column_letter_to_index "A"
  /\ exists e, snd (execute_function Example.runtime 10 "A3" "Sum" ["A1"; "A2"] s) = inl e.
Proof.
  intros s.
  assert (H1 : listed_dependencies "A3" s) by (exists ["A1"; "A2"]; vm_compute; reflexivity).
  assert (H2 : parse_cell_address "A1" = inr (1, "A")) by reflexivity.
  assert (H3 : parse_cell_address "A2" = inr (2, "A")) by reflexivity.
  assert (H4 : 1 <= 2) by lia.
  assert (H5 : column_letter_to_index "A" <= column_letter_to_index "A") by apply Z.le_refl.
  repeat (split; [assumption|]).
  exact (function_on_listed_dependencies_fails Example.runtime 10 "A3" "Sum" "A1" "A2" s
           1 2 "A" "A" H1 H2 H3 H4 H5).
Defined.

(** [B1 := Sum(A1:A2)] is accepted, and [B1] then depends on [A2]. *)
Lemma accepted_function_tracks_range_witness :
  let s := fst (run_operations Example.runtime 10
                  [CreateSheet 3 3; SetCellValue "A1" "1"; SetCellValue "A2" "2"]
                  new_spreadsheet) in
  let s' := fst (execute_function Example.runtime 10 "B1" "Sum" ["A1"; "A2"] s) in
  execute_function Example.runtime 10 "B1" "Sum" ["A1"; "A2"] s = (s', inr tt)
  /\ parse_cell_address "A1" = inr (1, "A") /\ parse_cell_address "A2" = inr (2, "A")
  /\ 1 <= 2 <= 2 /\ column_letter_to_index "A" <= 0 <= column_letter_to_index "A"
  /\ tracked "B1" (convert_indices_to_cell_address (2 - 1) 0) s'.
Proof.
  intros s s'.
  assert (H1 : execute_function Example.runtime 10 "B1" "Sum" ["A1"; "A2"] s = (s', inr tt))
    by (vm_compute; reflexivity).
  assert (H2 : parse_cell_address "A1" = inr (1, "A")) by reflexivity.
  assert (H3 : parse_cell_address "A2" = inr (2, "A")) by reflexivity.
  assert (H4 : 1 <= 2 <= 2) by lia.
  assert (H5 : column_letter_to_index "A" <= 0 <= column_letter_to_index "A")
    by (vm_compute; split; discriminate).
  repeat (split; [assumption|]).
  exact (accepted_function_tracks_range Example.runtime 10 "B1" "Sum" "A1" "A2" s s'
           1 2 "A" "A" 2 0 H1 H2 H3 H4 H5).
Defined.

(** ** Undo and recovery *)

Section HistoryUndo.
Import History.

Lemma history_after_window (m : nat) (saved : list Spreadsheet) :
  history_after m saved
  = history_window m saved (length saved - Nat.min (length saved) m) (length saved).
Proof.
  unfold history_after, history_window. rewrite firstn_all. reflexivity.
Qed.

Lemma window_files (saved : list Spreadsheet) (a b : nat) (f : file) :
  f ∈ drop a (imap saved_file (take b saved)) ->
  exists j sp, (j < b)%nat /\ saved !! j = Some sp /\ f = saved_file j sp.
Proof.
  intros Hf. apply list_elem_of_lookup in Hf as [i Hi].
  rewrite lookup_drop in Hi. apply list_lookup_imap_Some in Hi as (sp & Hsp & ->).
  apply lookup_take_Some in Hsp as [Hsp Hlt].
  exists (a + i)%nat, sp. auto.
Qed.

Lemma window_snoc (saved : list Spreadsheet) (a b : nat) (sp : Spreadsheet) :
  (a <= b)%nat -> saved !! b = Some sp ->
  drop a (imap saved_file (take (S b) saved))
  = (drop a (imap saved_file (take b saved)) ++ [saved_file b sp])%list.
Proof.
  intros Hab Hsp. pose proof (lookup_lt_Some _ _ _ Hsp) as Hlt.
  rewrite (take_S_r _ _ _ Hsp), imap_app. cbn [imap].
  rewrite length_take, Nat.min_l, Nat.add_0_r by lia.
  rewrite drop_app_le by (rewrite length_imap, length_take; lia). reflexivity.
Qed.

Lemma window_empty (saved : list Spreadsheet) (a b : nat) :
  (b <= a)%nat -> drop a (imap saved_file (take b saved)) = [].
Proof.
  intros Hab. apply drop_ge. rewrite length_imap, length_take. lia.
Qed.

Lemma find_skips (p : file_name) (l : list file) (f : file) :
  Forall (fun g => path g <> p) l -> path f = p ->
  List.find (fun g => bool_decide (path g = p)) (l ++ [f]) = Some f
  /\ os_remove p (l ++ [f]) = l.
Proof.
  intros Hl Hf. unfold os_remove. induction Hl as [|g l Hg Hl IH]; simpl.
  - rewrite bool_decide_eq_true_2 by exact Hf. auto.
  - rewrite bool_decide_eq_false_2 by exact Hg. simpl.
    destruct IH as [-> ->]. auto.
Qed.

Lemma window_other_paths (saved : list Spreadsheet) (a b : nat) :
  Forall (fun g => path g <> StateFile b) (drop a (imap saved_file (take b saved))).
Proof.
  apply Forall_forall. intros f Hf.
  destruct (window_files saved a b f Hf) as (j & sp & Hj & _ & ->).
  simpl. intros [=]. lia.
Qed.

Lemma states_pop (b : nat) :
  rev (map StateFile (seq 0 (S b))) = StateFile b :: rev (map StateFile (seq 0 b)).
Proof.
  rewrite seq_S, map_app, rev_app_distr. reflexivity.
Qed.

(** One [undo] when the file of the last save is still there. *)
Lemma undo_window (m : nat) (saved : list Spreadsheet) (a b : nat) (sp : Spreadsheet) :
  (a <= b)%nat -> saved !! b = Some sp ->
  undo (history_window m saved a (S b))
  = (history_window m saved a b, inr (reloaded sp)).
Proof.
  intros Hab Hsp. unfold undo, history_window.
  cbn [states history_dir max_history clock next_temp].
  rewrite states_pop, rev_involutive, (window_snoc saved a b sp Hab Hsp).
  destruct (find_skips (StateFile b) _ (saved_file b sp)
              (window_other_paths saved a b) eq_refl) as [Hfind Hrm].
  unfold load_state. rewrite Hfind. cbn [pickled saved_file].
  unfold with_dir. cbn [states history_dir max_history clock next_temp].
  rewrite Hrm. reflexivity.
Qed.

(** One [undo] when the file of the last save has been evicted. *)
Lemma undo_evicted (m : nat) (saved : list Spreadsheet) (a b : nat) :
  (S b <= a)%nat ->
  undo (history_window m saved a (S b))
  = (history_window m saved a b, inl (FailedToLoadPreviousState FileNotFoundError)).
Proof.
  intros Hab. unfold undo, history_window.
  cbn [states history_dir max_history clock next_temp].
  rewrite states_pop, rev_involutive.
  rewrite (window_empty saved a (S b)) by lia.
  rewrite (window_empty saved a b) by lia. reflexivity.
Qed.

Lemma undo_times_window (m : nat) (saved : list Spreadsheet) (a k b : nat) :
  (a + k <= b)%nat -> (b <= length saved)%nat ->
  undo_times k (history_window m saved a b)
  = (map (fun sp => inr (reloaded sp)) (rev (take k (drop (b - k) saved))),
     history_window m saved a (b - k)).
Proof.
  revert b. induction k as [|k IH]; intros b Hk Hb.
  - simpl. rewrite Nat.sub_0_r. reflexivity.
  - destruct b as [|b]; [lia|].
    destruct (lookup_lt_is_Some_2 saved b ltac:(lia)) as [sp Hsp].
    cbn [undo_times]. rewrite (undo_window m saved a b sp ltac:(lia) Hsp).
    rewrite (IH b) by lia.
    replace (S b - S k)%nat with (b - k)%nat by lia.
    f_equal.
    assert (Hlast : drop (b - k) saved !! k = Some sp).
    { rewrite lookup_drop. replace (b - k + k)%nat with b by lia. exact Hsp. }
    rewrite (take_S_r _ _ _ Hlast), rev_app_distr. reflexivity.
Qed.

Lemma undo_times_evicted (m : nat) (saved : list Spreadsheet) (a k b : nat) :
  (b <= a)%nat -> (k <= b)%nat ->
  undo_times k (history_window m saved a b)
  = (replicate k (inl (FailedToLoadPreviousState FileNotFoundError)),
     history_window m saved a (b - k)).
Proof.
  revert b. induction k as [|k IH]; intros b Hab Hk.
  - simpl. rewrite Nat.sub_0_r. reflexivity.
  - destruct b as [|b]; [lia|].
    cbn [undo_times]. rewrite (undo_evicted m saved a b) by lia.
    rewrite (IH b) by lia. reflexivity.
Qed.

Lemma undo_times_add (j k : nat) (h : SpreadsheetHistory) :
  undo_times (j + k) h
  = (fst (undo_times j h) ++ fst (undo_times k (snd (undo_times j h))),
     snd (undo_times k (snd (undo_times j h))))%list.
Proof.
  revert h. induction j as [|j IH]; intros h.
  - simpl. destruct (undo_times k h). reflexivity.
  - cbn [Nat.add undo_times]. destruct (undo h) as [h1 r].
    rewrite IH. destruct (undo_times j h1) as [rs h2]. reflexivity.
Qed.

Lemma last_cons_default {A} (x d1 d2 : A) (l : list A) :
  List.last (x :: l) d1 = List.last (x :: l) d2.
Proof.
  revert x. induction l as [|y l IH]; intros x; [reflexivity|].
  change (List.last (y :: l) d1 = List.last (y :: l) d2). apply IH.
Qed.

Lemma latest_of_created (a : nat) (best : file) (l : list file) :
  created_from a (best :: l) -> latest_of best l = List.last l best.
Proof.
  revert a best. induction l as [|f l IH]; intros a best H; [reflexivity|].
  cbn [latest_of].
  destruct (created_from_head _ _ _ H) as [_ Hb].
  pose proof (created_from_tail _ _ _ H) as Ht.
  destruct (created_from_head _ _ _ Ht) as [_ Hf].
  replace (mtime best <? mtime f) with true by lia.
  rewrite (IH (S a) f Ht). destruct l as [|g l]; [reflexivity|].
  change (List.last (g :: l) f = List.last (g :: l) best). apply last_cons_default.
Qed.

Lemma glob_pkl_created (a : nat) (l : list file) :
  created_from a l -> glob_pkl_files l = l.
Proof.
  revert a. induction l as [|f l IH]; intros a H; [reflexivity|].
  unfold glob_pkl_files in *. simpl. unfold is_pkl_file at 1.
  destruct (created_from_head _ _ _ H) as [-> _].
  rewrite (IH (S a)) by (eapply created_from_tail, H). reflexivity.
Qed.

End HistoryUndo.

(** X14: after [n] saves into an empty directory with limit [m >= 1], [n]
    calls of [undo] give, in this order: the last [min n m] saved
    spreadsheets, newest first, each with a new evaluator; then, for each
    older save, the failure to load its state file, which the limit has
    deleted while its path stayed in [states].  Only then is the list of
    states empty, and one more [undo] reports that no previous state is
    available. *)
Theorem undo_replays_the_kept_states (m : nat) (saved : list Spreadsheet) :
  (1 <= m)%nat ->
  let n := length saved in
  let h := fst (History.save_all saved (History.new_history (Z.of_nat m))) in
  fst (undo_times n h)
  = (map (fun sp => inr (reloaded sp)) (rev (drop (n - Nat.min n m) saved))
     ++ replicate (n - Nat.min n m)
          (inl (History.FailedToLoadPreviousState History.FileNotFoundError)))%list
  /\ snd (History.undo (snd (undo_times n h))) = inl History.NoPreviousStatesAvailable.
Proof.
  intros Hm. cbv zeta.
  change (History.new_history (Z.of_nat m)) with (history_after m []).
  rewrite (save_all_history_after m [] saved Hm). cbn [fst app].
  rewrite history_after_window.
  pose proof (Nat.le_min_l (length saved) m) as Hw.
  remember (length saved) as n eqn:Hn.
  remember (Nat.min n m) as w eqn:Hmin. clear Hmin.
  replace (undo_times n) with (undo_times (w + (n - w))) by (f_equal; lia).
  rewrite undo_times_add.
  rewrite (undo_times_window m saved (n - w) w n) by lia.
  cbn [fst snd].
  rewrite (undo_times_evicted m saved (n - w) (n - w) (n - w)) by lia.
  cbn [fst snd]. split.
  - f_equal. f_equal. f_equal. apply take_ge. rewrite length_drop. lia.
  - rewrite Nat.sub_diag. reflexivity.
Qed.

(** With limit 2, three saves and three undos: the third and the second
    sheet come back, the first is gone. *)
Lemma undo_replays_the_kept_states_witness :
  let saved := [new_spreadsheet; fst (create_sheet 1 1 new_spreadsheet);
                fst (create_sheet 2 2 new_spreadsheet)] in
  (1 <= 2)%nat
  /\ let n := length saved in
     let h := fst (History.save_all saved (History.new_history (Z.of_nat 2))) in
     fst (undo_times n h)
     = (map (fun sp => inr (reloaded sp)) (rev (drop (n - Nat.min n 2) saved))
        ++ replicate (n - Nat.min n 2)
             (inl (History.FailedToLoadPreviousState History.FileNotFoundError)))%list
     /\ snd (History.undo (snd (undo_times n h))) = inl History.NoPreviousStatesAvailable.
Proof.
  intros saved.
  assert (H : (1 <= 2)%nat) by lia.
  split; [exact H|].
  exact (undo_replays_the_kept_states 2 saved H).
Defined.

(** X15: [can_undo] answers [True] only when at least two saves have been
    made with a limit of at least two, because it asks for more than one
    pickle file in the directory; [undo] itself needs one: after any save
    it returns the spreadsheet saved last.  After exactly one save, or
    with limit 1, [can_undo] is [False] although [undo] would succeed. *)
Theorem can_undo_asks_for_two_files (m : nat) (saved : list Spreadsheet) :
  (1 <= m)%nat ->
  let h := fst (History.save_all saved (History.new_history (Z.of_nat m))) in
  (History.can_undo h = true <-> (2 <= length saved)%nat /\ (2 <= m)%nat)
  /\ (forall sp, last saved = Some sp -> snd (History.undo h) = inr (reloaded sp)).
Proof.
  intros Hm. cbv zeta.
  change (History.new_history (Z.of_nat m)) with (history_after m []).
  rewrite (save_all_history_after m [] saved Hm). cbn [fst app]. split.
  - unfold History.can_undo.
    rewrite (glob_pkl_created _ _ (created_history_after m saved)).
    rewrite length_history_after.
    cbn [History.states history_after]. rewrite length_map, length_seq.
    rewrite andb_true_iff, !Nat.ltb_lt. lia.
  - intros sp Hlast. rewrite history_after_window.
    apply last_Some in Hlast as [l ->].
    rewrite length_app. cbn [length].
    replace (length l + 1)%nat with (S (length l)) by lia.
    rewrite (undo_window m (l ++ [sp]) _ (length l) sp); [reflexivity | lia |].
    apply list_lookup_middle. reflexivity.
Qed.

Lemma can_undo_asks_for_two_files_witness :
  let saved := [fst (create_sheet 2 2 new_spreadsheet)] in
  (1 <= 20)%nat
  /\ let h := fst (History.save_all saved (History.new_history (Z.of_nat 20))) in
     (History.can_undo h = true <-> (2 <= length saved)%nat /\ (2 <= 20)%nat)
     /\ (forall sp, last saved = Some sp -> snd (History.undo h) = inr (reloaded sp)).
Proof.
  intros saved.
  assert (H : (1 <= 20)%nat) by lia.
  split; [exact H|].
  exact (can_undo_asks_for_two_files 20 saved H).
Defined.

(** X16: after any number of saves into an empty directory with limit
    [m >= 1], [recover_last_saved_state] returns the spreadsheet saved last,
    with a new evaluator, and [None] when nothing has been saved: the
    newest pickle file by modification time is the one written last. *)
Theorem recover_returns_last_saved (m : nat) (saved : list Spreadsheet) :
  (1 <= m)%nat ->
  History.recover_last_saved_state
    (fst (History.save_all saved (History.new_history (Z.of_nat m))))
  = inr (reloaded <$> last saved).
Proof.
  intros Hm.
  change (History.new_history (Z.of_nat m)) with (history_after m []).
  rewrite (save_all_history_after m [] saved Hm). cbn [fst app].
  unfold History.recover_last_saved_state.
  pose proof (created_history_after m saved) as Hc.
  rewrite (glob_pkl_created _ _ Hc).
  rewrite history_after_window in Hc |- *.
  cbn [History.history_dir history_window] in Hc |- *.
  destruct (last saved) as [sp|] eqn:Hlast0.
  2: { apply last_None in Hlast0 as ->. reflexivity. }
  apply last_Some in Hlast0 as [l ->].
  - cbn [fmap option_fmap option_map].
    revert Hc. rewrite length_app. cbn [length].
    replace (length l + 1)%nat with (S (length l)) by lia.
    set (a := (S (length l) - Nat.min (S (length l)) m)%nat).
    rewrite (window_snoc (l ++ [sp]) a (length l) sp);
      [| unfold a; lia | apply list_lookup_middle; reflexivity].
    set (D := drop a (imap saved_file (take (length l) (l ++ [sp])))).
    intros Hc.
    destruct (find_skips (History.StateFile (length l)) D (saved_file (length l) sp)
                (window_other_paths (l ++ [sp]) a (length l)) eq_refl) as [Hfind _].
    destruct (D ++ [saved_file (length l) sp])%list as [|f files] eqn:HD.
    { destruct D; discriminate. }
    rewrite (latest_of_created _ f files Hc).
    assert (Hlast : List.last files f = saved_file (length l) sp).
    { transitivity (List.last (f :: files) f); [destruct files; reflexivity|].
      rewrite <- HD. apply List.last_last. }
    rewrite Hlast. unfold History.load_state.
    cbn [History.path saved_file]. rewrite Hfind. reflexivity.
Qed.

Lemma recover_returns_last_saved_witness :
  let saved := [new_spreadsheet; fst (create_sheet 1 1 new_spreadsheet);
                fst (create_sheet 2 2 new_spreadsheet)] in
  (1 <= 2)%nat
  /\ History.recover_last_saved_state
       (fst (History.save_all saved (History.new_history (Z.of_nat 2))))
     = inr (reloaded <$> last saved).
Proof.
  intros saved.
  assert (H : (1 <= 2)%nat) by lia.
  split; [exact H|].
  exact (recover_returns_last_saved 2 saved H).
Defined.




(** ** The sheet: creation, clearing, and addresses that are refused *)

Lemma generate_column_labels_length (n : Z) :
  length (generate_column_labels n) = Z.to_nat n.
Proof.
  unfold generate_column_labels, Py.range.
  rewrite length_map, length_seqZ. f_equal. lia.
Qed.

Lemma generate_column_labels_elem (n : Z) (label : string) :
  label ∈ generate_column_labels n
  <-> exists i, 0 <= i < n /\ label = index_to_column_letter i.
Proof.
  split.
  - intros [k Hk]%list_elem_of_lookup.
    pose proof (lookup_lt_Some _ _ _ Hk) as Hlt.
    rewrite generate_column_labels_length in Hlt.
    exists (Z.of_nat k). split; [lia|].
    pose proof (generate_column_labels_lookup n (Z.of_nat k) ltac:(lia)) as H.
    rewrite Nat2Z.id in H. congruence.
  - intros (i & Hi & ->). apply list_elem_of_lookup. exists (Z.to_nat i).
    apply generate_column_labels_lookup, Hi.
Qed.

Lemma index_to_column_letter_inj (i j : Z) :
  0 <= i -> 0 <= j -> index_to_column_letter i = index_to_column_letter j -> i = j.
Proof.
  intros Hi Hj H.
  destruct (index_to_column_letter_spec i Hi) as (<- & _).
  destruct (index_to_column_letter_spec j Hj) as (<- & _).
  rewrite H. reflexivity.
Qed.

(** A frame as [create_sheet] makes it has a value, [NaN], exactly at the
    rows 1 to [rows] of its own column labels. *)
Lemma new_frame_at (rows : Z) (labels : list string) (r : Z) (c : string) :
  df_at_get (new_frame rows labels) r c
  = if (1 <=? r) && (r <=? rows) && bool_decide (c ∈ labels) then Some VNaN else None.
Proof.
  unfold df_at_get, row_position, column_position, new_frame, Py.range.
  cbn [df_rows df_columns].
  set (mk := fun r : Z => (r, replicate (length labels) VNaN)).
  destruct (list_find (fun x : Z * list value => fst x = r) (map mk (seqZ 1 (rows + 1 - 1))))
    as [[i x]|] eqn:Hr.
  - apply list_find_Some in Hr as (Hi & Hx & _).
    change (map mk (seqZ 1 (rows + 1 - 1))) with (mk <$> seqZ 1 (rows + 1 - 1)) in Hi.
    rewrite list_lookup_fmap in Hi.
    destruct (seqZ 1 (rows + 1 - 1) !! i) as [r0|] eqn:Hr0; [|discriminate].
    injection Hi as <-. simpl in Hx. subst r0.
    apply lookup_seqZ in Hr0 as [Hr0 Hlt].
    replace ((1 <=? r) && (r <=? rows)) with true by lia.
    cbn [fmap option_fmap option_map fst andb].
    destruct (list_find (fun x => x = c) labels) as [[j y]|] eqn:Hc.
    + apply list_find_Some in Hc as (Hj & -> & _).
      rewrite bool_decide_eq_true_2 by (apply list_elem_of_lookup; eauto).
      cbn [fmap option_fmap option_map fst]. f_equal.
      change (map mk (seqZ 1 (rows + 1 - 1))) with (mk <$> seqZ 1 (rows + 1 - 1)).
      rewrite list_lookup_fmap.
      destruct (seqZ 1 (rows + 1 - 1) !! i) as [r1|]; [|reflexivity].
      cbn [fmap option_fmap option_map mbind option_bind mk snd].
      destruct (replicate (length labels) VNaN !! j) as [v|] eqn:Hv; [|reflexivity].
      apply lookup_replicate in Hv as [-> _]. reflexivity.
    + apply list_find_None in Hc.
      rewrite bool_decide_eq_false_2; [reflexivity|].
      intros Hin. rewrite Forall_forall in Hc. apply (Hc c Hin). reflexivity.
  - apply list_find_None in Hr. rewrite Forall_forall in Hr.
    destruct ((1 <=? r) && (r <=? rows)) eqn:Hin; [exfalso|reflexivity].
    apply (Hr (mk r)); [|reflexivity].
    apply list_elem_of_fmap. exists r. split; [reflexivity|].
    apply elem_of_seqZ. lia.
Qed.

(** X17: on a sheet made by [create_sheet(rows, columns)], the cell in row
    [row] of the column with index [col] reads as [NaN] when it lies in the
    sheet (rows 1 to [rows], column indices below [columns]) and as the
    [#REF!] sentinel otherwise; reading raises nothing and changes
    nothing. *)
Theorem fresh_sheet_reads (rows columns row col : Z) (s : Spreadsheet) :
  0 <= row -> 0 <= col ->
  let s' := fst (create_sheet rows columns s) in
  get_cell_value (index_to_column_letter col ++ Py.str_of_int row) s'
  = (s', inr (if (1 <=? row) && (row <=? rows) && (col <? columns)
              then VNaN else REF_ERROR)).
Proof.
  intros Hrow Hcol s'.
  destruct (index_to_column_letter_spec col Hcol) as (_ & Hup & Hne).
  unfold get_cell_value.
  rewrite (parse_label_row _ row Hup Hne Hrow), bind_lift_inr, bind_get.
  cbn [fst snd]. unfold s', create_sheet. cbn [modify fst with_data _data].
  rewrite new_frame_at.
  replace (bool_decide (index_to_column_letter col ∈ generate_column_labels columns))
    with (col <? columns); [destruct (_ && _); reflexivity|].
  destruct (col <? columns) eqn:Hlt; symmetry.
  - apply bool_decide_eq_true_2, generate_column_labels_elem. exists col. split; [lia|reflexivity].
  - apply bool_decide_eq_false_2. intros (i & Hi & Heq)%generate_column_labels_elem.
    apply index_to_column_letter_inj in Heq; lia.
Qed.

Lemma fresh_sheet_reads_witness :
  0 <= 3 /\ 0 <= 27
  /\ let s' := fst (create_sheet 3 28 new_spreadsheet) in
     get_cell_value (index_to_column_letter 27 ++ Py.str_of_int 3) s'
     = (s', inr (if (1 <=? 3) && (3 <=? 3) && (27 <? 28) then VNaN else REF_ERROR)).
Proof.
  assert (H1 : 0 <= 3) by lia.
  assert (H2 : 0 <= 27) by lia.
  repeat (split; [assumption|]).
  exact (fresh_sheet_reads 3 28 3 27 new_spreadsheet H1 H2).
Defined.

(** X18: [clear_sheet] leaves the state that [create_sheet], called with
    the current numbers of rows and columns, gives on a new spreadsheet,
    except that the evaluator's table of names is kept; the numbers of rows
    and columns are as before. *)
Theorem clear_sheet_is_a_fresh_sheet (s : Spreadsheet) :
  let rows := Z.of_nat (length (df_rows (_data s))) in
  let columns := Z.of_nat (length (df_columns (_data s))) in
  let s' := with_names (fun _ => _evaluator_names s)
              (fst (create_sheet rows columns new_spreadsheet)) in
  clear_sheet s = (s', inr tt)
  /\ length (df_rows (_data s')) = length (df_rows (_data s))
  /\ length (df_columns (_data s')) = length (df_columns (_data s)).
Proof.
  cbv zeta. split; [reflexivity|]. split.
  - cbn [create_sheet modify fst with_names with_data _data new_frame df_rows].
    unfold Py.range. rewrite length_map, length_seqZ. lia.
  - cbn [create_sheet modify fst with_names with_data _data new_frame df_columns].
    rewrite generate_column_labels_length. lia.
Qed.

Lemma expand_sheet_address_error (cell : string) (s : Spreadsheet) :
  match address_error cell with
  | Some e => expand_sheet_to_include_cell cell s = (s, inl e)
              /\ exists ve, e = ValueError ve
  | None => snd (expand_sheet_to_include_cell cell s) = inr tt
  end.
Proof.
  unfold address_error, expand_sheet_to_include_cell.
  destruct (parse_cell_address cell) as [e|[row label]] eqn:Hp.
  - rewrite bind_lift_inl. split; [reflexivity|].
    rewrite (parse_cell_address_error cell e Hp). eauto.
  - rewrite bind_lift_inr. fold (column_number label).
    destruct ((500 <? column_number label) || (500 <? row)); [split; [reflexivity|eauto]|].
    rewrite bind_get.
    destruct ((_ <? column_number label) || (_ <? row)); cbn [when]; [|reflexivity].
    unfold expand_columns, expand_rows, bind, get, when, modify, ret.
    destruct (_ <? column_number label); cbn [with_data _data df_rows df_reindex_columns];
      destruct (_ <? row); reflexivity.
Qed.

(** X19: a write to an address that does not parse, or that names a column
    beyond 500 or a row beyond 500, is refused with that [ValueError]
    before anything is touched: the state is exactly as before.  Every
    other address passes the expansion step. *)
Theorem refused_address_leaves_state
  (R : Runtime) (fuel : nat) (cell value_ : string) (info : option function_info)
  (s : Spreadsheet) :
  match address_error cell with
  | Some e => set_cell_value R fuel cell value_ info s = (s, inl e)
              /\ exists ve, e = ValueError ve
  | None => snd (expand_sheet_to_include_cell cell s) = inr tt
  end.
Proof.
  pose proof (expand_sheet_address_error cell s) as H.
  destruct (address_error cell) as [e|]; [|exact H].
  destruct H as [H Hve]. split; [|exact Hve].
  unfold set_cell_value, set_cell_value_with. apply bind_inl, H.
Qed.

Lemma refused_address_leaves_state_witness :
  match address_error "SG1" with
  | Some e => set_cell_value Example.runtime 10 "SG1" "5" None new_spreadsheet
              = (new_spreadsheet, inl e)
              /\ exists ve, e = ValueError ve
  | None => snd (expand_sheet_to_include_cell "SG1" new_spreadsheet) = inr tt
  end.
Proof.
  exact (refused_address_leaves_state Example.runtime 10 "SG1" "5" None new_spreadsheet).
Defined.

(** ** [enter_data] *)

Lemma bind_ret_tt (m : M unit) (s : Spreadsheet) : bind m (fun _ => ret tt) s = m s.
Proof. unfold bind. destruct (m s) as [s1 [e|[]]]; reflexivity. Qed.

Lemma range_nil (a b : Z) : b <= a -> Py.range a b = [].
Proof.
  intros H. unfold Py.range, seqZ. replace (Z.to_nat (b - a)) with 0%nat by lia. reflexivity.
Qed.

Lemma range_single (a : Z) : Py.range a (a + 1) = [a].
Proof. rewrite range_cons by lia. rewrite range_nil by lia. reflexivity. Qed.

Lemma index_to_column_letter_upper (label : string) :
  string_forall is_upper_letter label = true ->
  index_to_column_letter (column_letter_to_index label) = label.
Proof.
  intros Hup.
  assert (Hl : string_forall Py.is_alpha label = true)
    by (eapply string_forall_impl; [apply upper_letter_alpha | exact Hup]).
  unfold index_to_column_letter, column_letter_to_index. fold label_step.
  pose proof (string_forall_Forall _ _ Hl) as HF.
  pose proof (label_step_nonneg _ 0 ltac:(lia) HF) as Hpos.
  rewrite column_label_loop_of_letters by (try exact HF; lia).
  rewrite string_app_empty_r, <- upper_as_list. apply upper_uppercase, Hup.
Qed.

Lemma leb_refl (s : string) : String.leb s s = true.
Proof. destruct (String.leb_total s s); assumption. Qed.

(** X20: [enter_data] over a range of one cell is one [set_cell_value], to
    the canonical address of the cell: the label in upper case followed by
    the row number in decimal, whatever spelling the range used. *)
Theorem enter_data_single_cell
  (R : Runtime) (fuel : nat) (a value_ : string) (row : Z) (label : string)
  (s : Spreadsheet) :
  parse_cell_address a = inr (row, label) ->
  enter_data R fuel (a, a) value_ s
  = set_cell_value R fuel (label ++ Py.str_of_int row) value_ None s.
Proof.
  intros Hp. destruct (parse_cell_address_parts a row label Hp) as (_ & Hup & _).
  unfold enter_data. cbn [fst snd].
  rewrite Hp, !bind_lift_inr. cbn [fst snd].
  unfold is_valid_range. rewrite Hp, Z.leb_refl, leb_refl, bind_lift_inr.
  cbn [andb negb]. rewrite !range_single. cbn [for_each].
  rewrite !bind_ret_tt, (index_to_column_letter_upper label Hup). reflexivity.
Qed.

Lemma enter_data_single_cell_witness :
  parse_cell_address "ab012" = inr (12, "AB")
  /\ enter_data Example.runtime 10 ("ab012", "ab012") "7" new_spreadsheet
     = set_cell_value Example.runtime 10 ("AB" ++ Py.str_of_int 12) "7" None new_spreadsheet.
Proof.
  assert (H : parse_cell_address "ab012" = inr (12, "AB")) by reflexivity.
  split; [exact H|].
  exact (enter_data_single_cell Example.runtime 10 "ab012" "7" 12 "AB" new_spreadsheet H).
Defined.

(** X21: [enter_data] writes nothing unless [is_valid_range] accepts the
    range: when a corner does not parse or the corners are out of order,
    it raises a [ValueError] and the state is exactly as before. *)
Theorem enter_data_refuses_invalid_range
  (R : Runtime) (fuel : nat) (a b value_ : string) (s : Spreadsheet) :
  is_valid_range a b <> inr true ->
  exists e, enter_data R fuel (a, b) value_ s = (s, inl (ValueError e)).
Proof.
  intros Hv. unfold enter_data. cbn [fst snd]. unfold is_valid_range in *.
  destruct (parse_cell_address a) as [e|[ra ca]] eqn:Ha.
  { rewrite bind_lift_inl, (parse_cell_address_error a e Ha). eauto. }
  rewrite bind_lift_inr.
  destruct (parse_cell_address b) as [e|[rb cb]] eqn:Hb.
  { rewrite bind_lift_inl, (parse_cell_address_error b e Hb). eauto. }
  rewrite !bind_lift_inr.
  destruct ((ra <=? rb) && String.leb ca cb); [congruence|].
  cbn [negb]. eauto.
Qed.

Lemma enter_data_refuses_invalid_range_witness :
  let s := fst (create_sheet 3 3 new_spreadsheet) in
  is_valid_range "B2" "A1" <> inr true
  /\ exists e, enter_data Example.runtime 10 ("B2", "A1") "7" s = (s, inl (ValueError e)).
Proof.
  intros s.
  assert (H : is_valid_range "B2" "A1" <> inr true) by discriminate.
  split; [exact H|].
  exact (enter_data_refuses_invalid_range Example.runtime 10 "B2" "A1" "7" s H).
Defined.

(** ** A write to one cell and the other cells of the frame *)

Lemma list_find_map_fst {A B} (P : A -> Prop) `{forall x, Decision (P x)}
  (g : A * B -> A * B) (l : list (A * B)) :
  (forall x, fst (g x) = fst x) ->
  fst <$> list_find (fun x => P (fst x)) (map g l)
  = fst <$> list_find (fun x => P (fst x)) l.
Proof.
  intros Hg. induction l as [|x l IH]; [reflexivity|]. simpl.
  rewrite Hg. destruct (decide (P (fst x))); [reflexivity|].
  destruct (list_find _ (map g l)) as [[? ?]|], (list_find _ l) as [[? ?]|];
    simpl in *; congruence.
Qed.

Lemma df_at_get_is_Some (df : DataFrame) (r : Z) (c : string) :
  is_Some (df_at_get df r c)
  <-> is_Some (row_position df r) /\ is_Some (column_position df c).
Proof.
  unfold df_at_get.
  destruct (row_position df r), (column_position df c); split;
    try (intros [? [=]]); try (intros [[? [=]] [? [=]]]); eauto.
Qed.

Lemma df_at_get_add_column (df : DataFrame) (c : string) (r' : Z) (c' : string) :
  is_Some (column_position df c') ->
  df_at_get (df_add_column df c VNaN) r' c' = df_at_get df r' c'.
Proof.
  intros [j Hj]. unfold df_at_get.
  assert (Hrow : row_position (df_add_column df c VNaN) r' = row_position df r').
  { unfold row_position, df_add_column. cbn [df_rows].
    exact (list_find_map_fst (fun x => x = r')
             (fun row : Z * list value => (fst row, (snd row ++ [VNaN])%list))
             (df_rows df) (fun _ => eq_refl)). }
  assert (Hcol : column_position (df_add_column df c VNaN) c' = Some j).
  { unfold column_position, df_add_column in *. cbn [df_columns].
    destruct (list_find (fun x => x = c') (df_columns df)) as [[j0 x]|] eqn:E; [|discriminate].
    rewrite (list_find_app_l _ _ _ _ _ E). exact Hj. }
  rewrite Hrow, Hcol, Hj.
  destruct (row_position df r') as [i|]; [|reflexivity]. f_equal.
  unfold df_add_column. cbn [df_rows].
  change (map ?g (df_rows df)) with (g <$> df_rows df).
  rewrite list_lookup_fmap.
  destruct (df_rows df !! i) as [row|]; [|reflexivity].
  cbn [fmap option_fmap option_map mbind option_bind snd].
  destruct (snd row !! j) as [v|] eqn:Hv.
  - rewrite (lookup_app_l_Some _ _ _ _ Hv). reflexivity.
  - apply lookup_ge_None in Hv. rewrite lookup_app_r by exact Hv.
    destruct (j - length (snd row))%nat as [|[|k]]; reflexivity.
Qed.

Lemma df_at_get_add_row (df : DataFrame) (r r' : Z) (c' : string) :
  is_Some (row_position df r') ->
  df_at_get (df_add_row df r VNaN) r' c' = df_at_get df r' c'.
Proof.
  intros [i Hi]. unfold df_at_get.
  assert (Hcol : column_position (df_add_row df r VNaN) c' = column_position df c')
    by reflexivity.
  unfold row_position in Hi.
  destruct (list_find (fun x : Z * list value => fst x = r') (df_rows df))
    as [[i0 x]|] eqn:E; [|discriminate].
  injection Hi as ->.
  assert (Hrow : row_position (df_add_row df r VNaN) r' = Some i).
  { unfold row_position, df_add_row. cbn [df_rows].
    rewrite (list_find_app_l _ _ _ _ _ E). reflexivity. }
  assert (Hrow0 : row_position df r' = Some i) by (unfold row_position; rewrite E; reflexivity).
  rewrite Hrow, Hcol, Hrow0.
  destruct (column_position df c') as [j|]; [|reflexivity]. f_equal.
  unfold df_add_row. cbn [df_rows].
  apply list_find_Some in E as (Hx & _).
  rewrite (lookup_app_l_Some _ _ _ _ Hx), Hx. reflexivity.
Qed.

Lemma df_at_get_alter (df : DataFrame) (i j : nat) (r r' : Z) (c c' : string) (v : value) :
  row_position df r = Some i -> column_position df c = Some j ->
  (r', c') <> (r, c) ->
  df_at_get (mkDataFrame (df_columns df)
               (alter (fun row => (fst row, <[j:=v]> (snd row))) i (df_rows df))) r' c'
  = df_at_get df r' c'.
Proof.
  intros Hi Hj Hne. unfold df_at_get.
  assert (Hrow : row_position
                   (mkDataFrame (df_columns df)
                      (alter (fun row => (fst row, <[j:=v]> (snd row))) i (df_rows df))) r'
                 = row_position df r').
  { unfold row_position. cbn [df_rows].
    exact (list_find_alter_fst (fun x => x = r')
             (fun row : Z * list value => (fst row, <[j:=v]> (snd row)))
             i (df_rows df) (fun _ => eq_refl)). }
  rewrite Hrow.
  change (column_position (mkDataFrame (df_columns df) _) c') with (column_position df c').
  destruct (row_position df r') as [i'|] eqn:Hi'; [|reflexivity].
  destruct (column_position df c') as [j'|] eqn:Hj'; [|reflexivity].
  f_equal. cbn [df_rows].
  destruct (decide (i = i')) as [<-|Hii].
  - rewrite list_lookup_alter_eq.
    destruct (row_position_Some df r i Hi) as (row & Hrow1 & Hr).
    destruct (row_position_Some df r' i Hi') as (row' & Hrow2 & Hr').
    rewrite Hrow1 in Hrow2 |- *. injection Hrow2 as <-.
    cbn [fmap option_fmap option_map mbind option_bind snd].
    rewrite list_lookup_insert_ne; [reflexivity|].
    intros <-. apply column_position_Some in Hj, Hj'. congruence.
  - rewrite list_lookup_alter_ne by exact Hii. reflexivity.
Qed.

Lemma df_at_set_other (df : DataFrame) (r r' : Z) (c c' : string) (v : value) :
  is_Some (df_at_get df r' c') -> (r', c') <> (r, c) ->
  df_at_get (df_at_set df r c v) r' c' = df_at_get df r' c'.
Proof.
  intros Hin Hne. unfold df_at_set.
  set (df1 := match column_position df c with
              | Some _ => df
              | None => df_add_column df c VNaN
              end).
  assert (H1 : df_at_get df1 r' c' = df_at_get df r' c').
  { unfold df1. destruct (column_position df c); [reflexivity|].
    apply df_at_get_add_column. apply df_at_get_is_Some in Hin. apply Hin. }
  set (df2 := match row_position df1 r with
              | Some _ => df1
              | None => df_add_row df1 r VNaN
              end).
  assert (H2 : df_at_get df2 r' c' = df_at_get df1 r' c').
  { unfold df2. destruct (row_position df1 r); [reflexivity|].
    apply df_at_get_add_row. rewrite <- H1 in Hin.
    apply df_at_get_is_Some in Hin. apply Hin. }
  rewrite <- H1, <- H2.
  destruct (row_position df2 r) as [i|] eqn:Hi; [|reflexivity].
  destruct (column_position df2 c) as [j|] eqn:Hj; [|reflexivity].
  apply (df_at_get_alter df2 i j r r' c c' v Hi Hj Hne).
Qed.

(** X22: storing a value in one cell changes no other cell of the sheet.
    For two addresses that parse to different (row, label) pairs, the
    second one lying in the frame, [get_cell_value] of the second returns
    after [set_cell_value_direct] on the first what it returned before,
    also when the write enlarges the frame by a row or a column. *)
Theorem direct_write_leaves_other_cells
  (a b : string) (v : value) (s : Spreadsheet) (ra rb : Z) (ca cb : string) :
  parse_cell_address a = inr (ra, ca) -> parse_cell_address b = inr (rb, cb) ->
  (rb, cb) <> (ra, ca) ->
  is_Some (df_at_get (_data s) rb cb) ->
  snd (get_cell_value b (fst (set_cell_value_direct a v s))) = snd (get_cell_value b s).
Proof.
  intros Ha Hb Hne Hin.
  rewrite (set_cell_value_direct_state a ra ca v s Ha). cbn [fst].
  unfold get_cell_value. rewrite Hb, !bind_lift_inr, !bind_get.
  cbn [fst snd ret with_data _data].
  rewrite (df_at_set_other _ ra rb ca cb _ Hin Hne). reflexivity.
Qed.

Lemma direct_write_leaves_other_cells_witness :
  let s := fst (run_operations Example.runtime 10
                  [CreateSheet 2 2; SetCellValue "A1" "5"] new_spreadsheet) in
  parse_cell_address "C3" = inr (3, "C") /\ parse_cell_address "a1" = inr (1, "A")
  /\ (1, "A") <> (3, "C")
  /\ is_Some (df_at_get (_data s) 1 "A")
  /\ snd (get_cell_value "a1" (fst (set_cell_value_direct "C3" (VInt 9) s)))
     = snd (get_cell_value "a1" s).
Proof.
  intros s.
  assert (H1 : parse_cell_address "C3" = inr (3, "C")) by reflexivity.
  assert (H2 : parse_cell_address "a1" = inr (1, "A")) by reflexivity.
  assert (H3 : (1, "A") <> (3, "C")) by discriminate.
  assert (H4 : is_Some (df_at_get (_data s) 1 "A")) by (vm_compute; eauto).
  repeat (split; [assumption|]).
  exact (direct_write_leaves_other_cells "C3" "a1" (VInt 9) s 3 1 "C" "A" H1 H2 H3 H4).
Defined.

(** ** The block of a function and the cells of its range *)









(** ** The cascade of a write over the direct dependents *)

Section Cascade.
Context (R : Runtime).

Lemma same_records_calculate_formula (s : Spreadsheet) (d f : string) :
  inv (same_records s) (calculate_formula R d f).
Proof.
  apply (inv_calculate_formula R (same_records s)); intros g s0 H; exact H.
Qed.

Lemma no_dependents_same_records (s s0 : Spreadsheet) (d : string) :
  same_records s s0 -> no_dependents s d -> no_dependents s0 d.
Proof.
  intros (_ & Hf & Hr) [H1 H2]. unfold no_dependents. rewrite Hf, Hr. auto.
Qed.

Lemma bind_assoc {A B C} (m : M A) (k1 : A -> M B) (k2 : B -> M C) (s0 : Spreadsheet) :
  bind (bind m k1) k2 s0 = bind m (fun x => bind (k1 x) k2) s0.
Proof. unfold bind. destruct (m s0) as [s1 [e|x]]; reflexivity. Qed.

Lemma for_each_skipped {A} (l : list A) (body : A -> M unit) (s0 : Spreadsheet) :
  Forall (fun x => body x s0 = (s0, inr tt)) l -> for_each l body s0 = (s0, inr tt).
Proof.
  induction 1 as [|x l Hx Hl IH]; [reflexivity|].
  cbn [for_each]. rewrite (bind_inr _ _ _ _ _ Hx). exact IH.
Qed.

(** The loop over the dependents when each of them is a leaf: every
    dependent with a formula is recalculated, and its own cascade is
    empty. *)
Lemma iterate_leaves (fuel : nat) (a : string) (D : gset string) (s : Spreadsheet)
  (l : list string) (s0 : Spreadsheet) :
  _reverse_dependencies s !! a = Some D ->
  (forall d, d ∈ l -> no_dependents s d) ->
  same_records s s0 ->
  iterate_reverse_dependencies a (size D) l
    (fun dependent_cell =>
       s' <- get ;;
       match _formulas s' !! dependent_cell with
       | Some formula =>
           calculate_formula R dependent_cell formula ;;
           recalculate_dependents R (S fuel) dependent_cell
       | None => ret tt
       end)%engine s0
  = for_each l
      (fun d => match _formulas s !! d with
                | Some f => calculate_formula R d f
                | None => ret tt
                end) s0.
Proof.
  intros Hr. revert s0. induction l as [|d l IH]; intros s0 Hleaf Hsame.
  - cbn [iterate_reverse_dependencies for_each]. rewrite bind_get.
    destruct Hsame as (_ & _ & ->). rewrite Hr. cbn [default].
    rewrite Nat.eqb_refl. reflexivity.
  - cbn [iterate_reverse_dependencies for_each]. rewrite bind_get.
    pose proof Hsame as (Hf & _ & Hrd). rewrite Hrd, Hr. cbn [default].
    rewrite Nat.eqb_refl. cbn [negb].
    assert (Hl : forall d0, d0 ∈ l -> no_dependents s d0)
      by (intros d0 Hd0; apply Hleaf; right; exact Hd0).
    rewrite bind_assoc, bind_get, Hf.
    destruct (_formulas s !! d) as [f|].
    + rewrite bind_assoc.
      pose proof (same_records_calculate_formula s d f s0 Hsame) as Hsame1.
      destruct (calculate_formula R d f s0) as [s1 [e|[]]] eqn:Hc.
      { rewrite !(bind_inl _ _ _ _ _ Hc). reflexivity. }
      rewrite !(bind_inr _ _ _ _ _ Hc). cbn [fst] in Hsame1.
      rewrite (bind_inr _ _ _ _ _ (recalculate_dependents_no_dependents R fuel d s1
                 (no_dependents_same_records s s1 d Hsame1 (Hleaf d ltac:(left))))).
      apply IH; assumption.
    + rewrite !(bind_inr (ret tt) _ s0 s0 tt eq_refl). apply IH; assumption.
Qed.

(** X24: a literal written into a cell inside the sheet whose dependents
    are leaves (nothing depends on them, no function range contains them
    or the cell) is stored, and then each dependent that has a formula is
    recalculated once, in the order in which the set of dependents is
    iterated; the first failing formula ends the write with its error.
    Nothing else happens. *)
Theorem literal_write_recalculates_dependents
  (fuel : nat) (s : Spreadsheet) (a value_ : string) (row : Z) (col : string)
  (D : gset string) :
  within_sheet s a ->
  parse_cell_address a = inr (row, col) ->
  holds_nothing a s ->
  _reverse_dependencies s !! a = Some D ->
  (forall d, d ∈ D -> no_dependents s d) ->
  Forall (fun entry : string * function_info =>
            cell_in_function_range a (snd (snd entry)) = inr false) (_functions s) ->
  value_ <> EmptyString -> Py.startswith "=" value_ = false ->
  set_cell_value R (S (S fuel)) a value_ None s
  = (set_cell_value_direct a
       match py_float R value_ with Some x => x | None => VStr value_ end ;;
     for_each (set_order R D)
       (fun d => match _formulas s !! d with
                 | Some f => calculate_formula R d f
                 | None => ret tt
                 end))%engine s.
Proof.
  intros Hin Hp [Hf Hm] Hr Hleaf Hfun Hne Hst.
  unfold set_cell_value, set_cell_value_with.
  rewrite (bind_inr _ _ _ _ _ (expand_sheet_within s a Hin)).
  rewrite (eqb_empty_false _ Hne).
  unfold when at 1. rewrite (bind_inr (ret tt) _ s s tt eq_refl).
  rewrite bind_get, Hf, Hm.
  replace (bool_decide (is_Some (@None string)) || false) with false
    by (symmetry; apply orb_false_intro;
        [apply bool_decide_eq_false; intros [? [=]] | reflexivity]).
  unfold when at 1. rewrite (bind_inr (ret tt) _ s s tt eq_refl).
  rewrite (bind_inr (ret tt) _ s s tt eq_refl).
  rewrite Hst.
  rewrite !(bind_inr _ _ _ _ _ (set_cell_value_direct_state a row col _ s Hp)).
  set (s1 := with_data _ s).
  assert (Hsame : same_records s s1) by (repeat split).
  cbn [recalculate_dependents]. rewrite bind_get.
  change (_reverse_dependencies s1) with (_reverse_dependencies s). rewrite Hr.
  assert (Hl : forall d, d ∈ set_order R D -> no_dependents s d).
  { intros d Hd. apply Hleaf. rewrite (set_order_perm R D) in Hd.
    apply elem_of_elements in Hd. exact Hd. }
  pose proof (iterate_leaves fuel a D s (set_order R D) s1 Hr Hl Hsame) as Hit.
  assert (Hsame2 : same_records s
            (fst (for_each (set_order R D)
                    (fun d => match _formulas s !! d with
                              | Some f => calculate_formula R d f
                              | None => ret tt
                              end) s1))).
  { apply (inv_for_each (same_records s)); [|exact Hsame].
    intros d _. destruct (_formulas s !! d); [apply same_records_calculate_formula|].
    intros s0 H0. exact H0. }
  destruct (for_each (set_order R D) _ s1) as [s2 [e|[]]] eqn:Hfe.
  { rewrite (bind_inl _ _ _ _ _ Hit). reflexivity. }
  rewrite (bind_inr _ _ _ _ _ Hit).
  cbn [fst] in Hsame2. destruct Hsame2 as (_ & Hfs & _).
  rewrite bind_get, Hfs.
  apply for_each_skipped.
  eapply Forall_impl; [exact Hfun|].
  intros [fc [fn rng]] Hx. cbn [snd] in Hx. rewrite Hx, bind_lift_inr. reflexivity.
Qed.

End Cascade.

(** [A1 := "6"] on a sheet with [B1 = A1+1] and [C1 = A1*2]. *)
Lemma literal_write_recalculates_dependents_witness :
  let s := fst (run_operations Example.runtime 10
                  [CreateSheet 3 3; SetCellValue "A1" "5"; SetCellValue "B1" "=A1+1";
                   SetCellValue "C1" "=A1*2"] new_spreadsheet) in
  let D : gset string := {[ "B1"; "C1" ]} in
  within_sheet s "A1"
  /\ parse_cell_address "A1" = inr (1, "A")
  /\ holds_nothing "A1" s
  /\ _reverse_dependencies s !! "A1" = Some D
  /\ (forall d, d ∈ D -> no_dependents s d)
  /\ Forall (fun entry : string * function_info =>
               cell_in_function_range "A1" (snd (snd entry)) = inr false) (_functions s)
  /\ "6" <> EmptyString /\ Py.startswith "=" "6" = false
  /\ set_cell_value Example.runtime 2 "A1" "6" None s
     = (set_cell_value_direct "A1"
          match py_float Example.runtime "6" with Some x => x | None => VStr "6" end ;;
        for_each (set_order Example.runtime D)
          (fun d => match _formulas s !! d with
                    | Some f => calculate_formula Example.runtime d f
                    | None => ret tt
                    end))%engine s.
Proof.
  intros s D.
  assert (H1 : within_sheet s "A1").
  { exists 1, "A". repeat split; vm_compute; congruence. }
  assert (H2 : parse_cell_address "A1" = inr (1, "A")) by reflexivity.
  assert (H3 : holds_nothing "A1" s) by (split; vm_compute; reflexivity).
  assert (H4 : _reverse_dependencies s !! "A1" = Some D) by (vm_compute; reflexivity).
  assert (H5 : forall d, d ∈ D -> no_dependents s d).
  { intros d [->%elem_of_singleton | ->%elem_of_singleton]%elem_of_union;
      (split; [vm_compute; reflexivity | vm_compute; constructor]). }
  assert (H6 : Forall (fun entry : string * function_info =>
                         cell_in_function_range "A1" (snd (snd entry)) = inr false)
                      (_functions s)) by (vm_compute; constructor).
  assert (H7 : "6" <> EmptyString) by discriminate.
  assert (H8 : Py.startswith "=" "6" = false) by reflexivity.
  repeat (split; [assumption|]).
  exact (literal_write_recalculates_dependents Example.runtime 0 s "A1" "6" 1 "A" D
           H1 H2 H3 H4 H5 H6 H7 H8).
Defined.
